(** * Cura post-processing: the script pipeline and the Display-Info-on-LCD script

  A shallow embedding of
  - [plugins/PostProcessingPlugin/PostProcessingPlugin.py] ([execute]), and
  - [plugins/PostProcessingPlugin/scripts/DisplayInfoOnLCD.py]
    ([execute], [message_to_user]),
  together with the properties of them stated by the specification.

  Python values are modelled as follows: [str] as the [string] of the bytes of
  its UTF-8 encoding (so [len] counts code points, not bytes), [int] as [Z],
  [float] as IEEE-754 binary64 ([spec_float] with precision 53 and maximal
  exponent 1024), a [list] of strings as [list string] updated by index, a
  raised exception as a value of [exn]. *)

From Stdlib Require Import ZArith String Ascii List Bool Lia.
From Stdlib Require Import QArith Qround Qabs Qpower Lqa.
From Stdlib Require Import Floats.SpecFloat.
From Stdlib Require DecimalString.
From stdpp Require Import base option list strings gmap.

Local Open Scope Z_scope.

(** ** Exceptions and results *)

(** The exception classes the modelled code can raise (all of them subclasses
    of [Exception]), and [ScriptError] for any other [Exception] raised inside
    a script. *)
Inductive exn : Type :=
| IndexError
| ValueError
| TypeError
| OverflowError
| KeyError
| UnboundLocalError
| ZeroDivisionError
| ScriptError (what : string).

(** A computation that returns a value or raises. *)
Inductive result (A : Type) : Type :=
| Ok (a : A)
| Raise (e : exn).
Arguments Ok {A} a.
Arguments Raise {A} e.

#[global] Instance result_ret : MRet result := fun A a => Ok a.
#[global] Instance result_bind : MBind result := fun A B f m =>
  match m with
  | Ok a => f a
  | Raise e => Raise e
  end.

(** [None] as the exception [e]. *)
Definition or_raise {A : Type} (e : exn) (o : option A) : result A :=
  match o with
  | Some a => Ok a
  | None => Raise e
  end.

(** ** Python strings *)

Module PyStr.

(** The newline character, [chr(10)]. *)
Definition nl_char : ascii := ascii_of_nat 10.
Definition nl : string := String nl_char EmptyString.

(** [s.startswith(p)] *)
Definition startswith (s p : string) : bool := String.prefix p s.

(** [sub in s] *)
Fixpoint contains (sub s : string) : bool :=
  match s with
  | EmptyString => String.prefix sub EmptyString
  | String _ rest => String.prefix sub s || contains sub rest
  end.

(** [s.split(sep)] for a separator of one character; the result always has
    at least one field. *)
Fixpoint split_aux (sep : ascii) (cur : string) (s : string) : list string :=
  match s with
  | EmptyString => [cur]
  | String c rest =>
      if Ascii.eqb c sep then cur :: split_aux sep EmptyString rest
      else split_aux sep (cur +:+ String c EmptyString) rest
  end.

Definition split (s : string) (sep : ascii) : list string :=
  split_aux sep EmptyString s.

(** [sep.join(parts)] *)
Definition join (sep : string) (parts : list string) : string :=
  String.concat sep parts.

(** [s.replace(old, new)]: every non-overlapping occurrence, left to right.
    [skip] counts the characters of a matched occurrence still to drop. *)
Fixpoint replace_from (old new : string) (skip : nat) (s : string) : string :=
  match s with
  | EmptyString =>
      match old with EmptyString => new | _ => EmptyString end
  | String c rest =>
      match skip with
      | S k => replace_from old new k rest
      | O =>
          if String.prefix old s then
            match old with
            | EmptyString => new +:+ String c (replace_from old new O rest)
            | String _ old' => new +:+ replace_from old new (String.length old') rest
            end
          else String c (replace_from old new O rest)
      end
  end.

Definition replace (s old new : string) : string := replace_from old new O s.

(** [s[n:]] *)
Fixpoint skip (n : nat) (s : string) : string :=
  match n, s with
  | O, _ => s
  | S _, EmptyString => EmptyString
  | S n, String _ rest => skip n rest
  end.

(** [s.replace(old, new, 1)]: the first occurrence only. *)
Fixpoint replace_first (s old new : string) : string :=
  match s with
  | EmptyString =>
      match old with EmptyString => new | _ => EmptyString end
  | String c rest =>
      if String.prefix old s then new +:+ skip (String.length old) s
      else String c (replace_first rest old new)
  end.

(** [str(n)] for an [int]. *)
Definition str (n : Z) : string :=
  DecimalString.NilZero.string_of_int (Z.to_int n).

Definition byte (c : ascii) : Z := Z.of_nat (nat_of_ascii c).

(** A byte [10xxxxxx], which continues a character. *)
Definition continues (c : ascii) : bool := (128 <=? byte c) && (byte c <? 192).

(** The code point for bytes that encode none. *)
Definition replacement : Z := 65533.

(** The code point of a sequence of bytes, given its value and the least
    value the sequence may encode. *)
Definition encoded (least value : Z) : Z :=
  if (least <=? value) && (value <=? 1114111)
     && negb ((55296 <=? value) && (value <=? 57343))
  then value else replacement.

(** The code points of a text, read from its UTF-8 bytes: sequences of one to
    four bytes, in their shortest form. *)
Fixpoint code_points (l : list ascii) : list Z :=
  match l with
  | [] => []
  | b0 :: l1 =>
      let n0 := byte b0 in
      if n0 <? 128 then n0 :: code_points l1 else
      match l1 with
      | b1 :: l2 =>
          if negb (continues b1) then replacement :: code_points l1 else
          let v1 := byte b1 - 128 in
          if (192 <=? n0) && (n0 <? 224) then
            encoded 128 ((n0 - 192) * 64 + v1) :: code_points l2
          else
          match l2 with
          | b2 :: l3 =>
              if negb (continues b2) then replacement :: code_points l1 else
              let v2 := byte b2 - 128 in
              if (224 <=? n0) && (n0 <? 240) then
                encoded 2048 (((n0 - 224) * 64 + v1) * 64 + v2) :: code_points l3
              else
              match l3 with
              | b3 :: l4 =>
                  if (240 <=? n0) && (n0 <? 248) && continues b3 then
                    encoded 65536 ((((n0 - 240) * 64 + v1) * 64 + v2) * 64 + (byte b3 - 128))
                      :: code_points l4
                  else replacement :: code_points l1
              | [] => replacement :: code_points l1
              end
          | [] => replacement :: code_points l1
          end
      | [] => [replacement]
      end
  end.

(** [len(s)]: the number of characters (code points) of [s]. *)
Definition len (s : string) : nat := length (code_points (list_ascii_of_string s)).

End PyStr.

(** ** Python lists *)

Module PyList.

(** [l.index(x)]: position of the first element equal to [x]. *)
Fixpoint index (l : list string) (x : string) : option nat :=
  match l with
  | [] => None
  | y :: l' => if String.eqb y x then Some O else S <$> index l' x
  end.

(** [l.insert(i, x)] for [i >= 0]; past the end it appends. *)
Definition insert_at (i : nat) (x : string) (l : list string) : list string :=
  take i l ++ x :: drop i l.

(** [range(a, b)] as the list of its values. *)
Definition range (a b : nat) : list nat := seq a (b - a).

End PyList.

(** ** Python floats: IEEE-754 binary64 *)

Module PyFloat.

Definition float : Type := spec_float.
Definition prec : Z := 53.
Definition emax : Z := 1024.

Definition mul : float -> float -> float := SFmul prec emax.
Definition add : float -> float -> float := SFadd prec emax.
Definition sub : float -> float -> float := SFsub prec emax.

(** The float nearest to an integer (ties to even), infinite past the range. *)
Definition of_Z (n : Z) : float := binary_normalize prec emax n 0 false.

(** [float(n)] for an [int], as the arithmetic operators convert their [int]
    operand. *)
Definition of_int (n : Z) : result float :=
  match of_Z n with
  | S754_infinity _ => Raise OverflowError
  | x => Ok x
  end.

(** The IEEE quotient; Python raises instead when the divisor is zero. *)
Definition quot : float -> float -> float := SFdiv prec emax.

(** [x / y] on floats. *)
Definition div (x y : float) : result float :=
  match y with
  | S754_zero _ => Raise ZeroDivisionError
  | _ => Ok (SFdiv prec emax x y)
  end.

(** An integer as an unrounded operand of [SFdiv]. *)
Definition exact (n : Z) : float :=
  match n with
  | Z0 => S754_zero false
  | Zpos p => S754_finite false p 0
  | Zneg p => S754_finite true p 0
  end.

(** [a / b] on two [int]s: the correctly rounded quotient. *)
Definition int_truediv (a b : Z) : result float :=
  if b =? 0 then Raise ZeroDivisionError else
  match SFdiv prec emax (exact a) (exact b) with
  | S754_infinity _ => Raise OverflowError
  | x => Ok x
  end.

(** The integer part (towards zero) of the magnitude [m * 2^e]. *)
Definition magnitude_int (m : positive) (e : Z) : Z := Z.shiftl (Zpos m) e.

(** The numerator of the fractional part of [m * 2^e], over [2^(-e)]. *)
Definition magnitude_frac (m : positive) (e : Z) : Z :=
  if 0 <=? e then 0 else Zpos m mod 2 ^ (- e).

Definition sign (s : bool) (n : Z) : Z := if s then - n else n.

(** [int(x)]: truncation towards zero. *)
Definition trunc (x : float) : result Z :=
  match x with
  | S754_zero _ => Ok 0
  | S754_finite s m e => Ok (sign s (magnitude_int m e))
  | S754_infinity _ => Raise OverflowError
  | S754_nan => Raise ValueError
  end.

(** [round(x)] with one argument: the nearest integer, ties to even. *)
Definition round (x : float) : result Z :=
  match x with
  | S754_zero _ => Ok 0
  | S754_finite s m e =>
      let q := magnitude_int m e in
      let r := magnitude_frac m e in
      let half := 2 ^ (- e - 1) in
      let up := if 0 <=? e then false
                else if r <? half then false
                else if half <? r then true
                else Z.odd q in
      Ok (sign s (if up then q + 1 else q))
  | S754_infinity _ => Raise OverflowError
  | S754_nan => Raise ValueError
  end.

(** C's [fmod(x, 1.0)]: the fractional part, with the sign of [x]. *)
Definition fmod1 (x : float) : float :=
  match x with
  | S754_zero s => S754_zero s
  | S754_finite s m e =>
      match magnitude_frac m e with
      | Zpos r => binary_normalize prec emax (sign s (Zpos r)) e s
      | _ => S754_zero s
      end
  | _ => S754_nan
  end.

Definition one : float := of_Z 1.

(** [x % 1] on a float ([float_rem] with divisor [1.0]). *)
Definition mod1 (x : float) : float :=
  match fmod1 x with
  | S754_zero _ => S754_zero false
  | S754_finite true m e => add (S754_finite true m e) one
  | r => r
  end.

(** [x // 1] on a float ([float_floor_div] with divisor [1.0]). *)
Definition floordiv1 (x : float) : float :=
  match x with
  | S754_zero s => S754_zero s
  | S754_finite s m e =>
      let t := sign s (magnitude_int m e) in
      let fl := match fmod1 x with
                | S754_finite true _ _ => t - 1
                | _ => t
                end in
      if fl =? 0 then S754_zero false else of_Z fl
  | _ => S754_nan
  end.

Definition is_zero (x : float) : bool :=
  match x with S754_zero _ => true | _ => false end.

End PyFloat.

(** ** Parsing numbers: [int(s)] and [float(s)] *)

Module PyParse.

(** The characters outside ASCII that Python takes as whitespace
    ([Py_UNICODE_ISSPACE]). *)
Definition unicode_space (n : Z) : bool :=
  (n =? 133) || (n =? 160) || (n =? 5760) || (8192 <=? n) && (n <=? 8202)
  || (n =? 8232) || (n =? 8233) || (n =? 8239) || (n =? 8287) || (n =? 12288).

(** The digit zero of every script of decimal digits (Unicode 14.0, the
    database of Python 3.11); the nine other digits of a script follow its
    zero. *)
Definition decimal_zeros : list Z :=
  [48; 1632; 1776; 1984; 2406; 2534; 2662; 2790; 2918; 3046; 3174; 3302;
   3430; 3558; 3664; 3792; 3872; 4160; 4240; 6112; 6160; 6470; 6608; 6784;
   6800; 6992; 7088; 7232; 7248; 42528; 43216; 43264; 43472; 43504; 43600;
   44016; 65296; 66720; 68912; 69734; 69872; 69942; 70096; 70384; 70736;
   70864; 71248; 71360; 71472; 71904; 72016; 72784; 73040; 73120; 92768;
   92864; 93008; 120782; 120792; 120802; 120812; 120822; 123200; 123632;
   125264; 130032].

(** The value of a decimal digit ([Py_UNICODE_TODECIMAL]). *)
Definition unicode_decimal (n : Z) : option Z :=
  (fun zero => n - zero) <$> List.find (fun zero => (zero <=? n) && (n <? zero + 10)) decimal_zeros.

Definition ascii_of (n : Z) : ascii := ascii_of_nat (Z.to_nat n).

(** What the number parsers read in place of a text: ASCII is kept, another
    blank becomes a space, another decimal digit its ASCII digit, and
    anything else a question mark which ends the text. *)
Fixpoint to_ascii (l : list Z) : list ascii :=
  match l with
  | [] => []
  | n :: rest =>
      if n <? 127 then ascii_of n :: to_ascii rest
      else if unicode_space n then " "%char :: to_ascii rest
      else match unicode_decimal n with
           | Some d => ascii_of (48 + d) :: to_ascii rest
           | None => ["?"%char]
           end
  end.

Definition chars (s : string) : list ascii :=
  to_ascii (PyStr.code_points (list_ascii_of_string s)).

(** The blanks the parsers strip at both ends ([Py_ISSPACE]). *)
Definition is_space (c : ascii) : bool :=
  let n := nat_of_ascii c in
  ((9 <=? n) && (n <=? 13) || (n =? 32))%nat.

Fixpoint lstrip (l : list ascii) : list ascii :=
  match l with
  | c :: l' => if is_space c then lstrip l' else l
  | [] => []
  end.

Definition strip (l : list ascii) : list ascii := rev (lstrip (rev (lstrip l))).

Definition digit_of (c : ascii) : option Z :=
  let n := nat_of_ascii c in
  if ((48 <=? n) && (n <=? 57))%nat then Some (Z.of_nat n - 48) else None.

Definition is_digit (c : ascii) : bool := bool_decide (is_Some (digit_of c)).

(** A run of digits, single underscores allowed between two digits: the
    digits read and what follows them. *)
Fixpoint read_digits (l : list ascii) : list Z * list ascii :=
  match l with
  | c :: l' =>
      match digit_of c with
      | Some d =>
          let '(ds, rest) :=
            match l' with
            | u :: ((c2 :: _) as l'') =>
                if Ascii.eqb u "_" && is_digit c2 then read_digits l'' else read_digits l'
            | _ => read_digits l'
            end in
          (d :: ds, rest)
      | None => ([], l)
      end
  | [] => ([], [])
  end.

Definition value (ds : list Z) : Z := fold_left (fun acc d => 10 * acc + d) ds 0.

Definition read_sign (l : list ascii) : bool * list ascii :=
  match l with
  | c :: l' =>
      if Ascii.eqb c "-" then (true, l')
      else if Ascii.eqb c "+" then (false, l')
      else (false, l)
  | [] => (false, [])
  end.

(** The most digits [int(s)] reads (the default of
    [sys.set_int_max_str_digits] in Python 3.11). *)
Definition max_str_digits : nat := 4300.

(** [int(s)] for a string, base 10; [None] is [ValueError]. *)
Definition int_of_str (s : string) : option Z :=
  let '(neg, l) := read_sign (strip (chars s)) in
  match read_digits l with
  | (d :: ds, []) =>
      if (max_str_digits <? length (d :: ds))%nat then None
      else Some (if neg then - value (d :: ds) else value (d :: ds))
  | _ => None
  end.

Definition lower (c : ascii) : ascii :=
  let n := nat_of_ascii c in
  if ((65 <=? n) && (n <=? 90))%nat then ascii_of_nat (n + 32) else c.

Definition is_word (w : string) (l : list ascii) : bool :=
  String.eqb (string_of_list_ascii (map lower l)) w.

(** The float nearest to [d * 10^e], ties to even. *)
Definition decimal (neg : bool) (d e : Z) : spec_float :=
  match d with
  | Z0 => S754_zero neg
  | Zpos p =>
      if 0 <=? e then binary_normalize 53 1024 (if neg then - (d * 10 ^ e) else d * 10 ^ e) 0 neg
      else SFdiv 53 1024 (S754_finite neg p 0) (S754_finite false (Z.to_pos (10 ^ (- e))) 0)
  | Zneg _ => S754_nan
  end.

(** The exponent part: empty, or [e], a sign and digits to the end. *)
Definition read_exponent (l : list ascii) : option Z :=
  match l with
  | [] => Some 0
  | c :: l' =>
      if Ascii.eqb (lower c) "e" then
        let '(neg, l'') := read_sign l' in
        match read_digits l'' with
        | (d :: ds, []) => Some (if neg then - value (d :: ds) else value (d :: ds))
        | _ => None
        end
      else None
  end.

(** [float(s)] for a string; [None] is [ValueError]. *)
Definition float_of_str (s : string) : option spec_float :=
  let '(neg, l) := read_sign (strip (chars s)) in
  if is_word "inf" l || is_word "infinity" l then Some (S754_infinity neg)
  else if is_word "nan" l then Some S754_nan
  else
    let '(ip, l1) := read_digits l in
    let '(fp, l2) :=
      match l1 with
      | c :: l1' => if Ascii.eqb c "." then read_digits l1' else ([], l1)
      | [] => ([], [])
      end in
    match ip ++ fp with
    | [] => None
    | ds =>
        e ← read_exponent l2;
        Some (decimal neg (value ds) (e - Z.of_nat (length fp)))
    end.

End PyParse.

(** A G-code document: the list of its sections. *)
Abbreviation document := (list string) (only parsing).

(** ** The script pipeline runner ([PostProcessingPlugin.execute]) *)

Module Pipeline.

(** What [script.execute(gcode_list)] hands back. A script receives the list
    object itself, so it can change it in place: [arg_after] is the content
    of that object when the call ends. It then returns the same object
    ([SameList]) or another list ([NewList]), or raises. *)
Inductive retval : Type :=
| SameList
| NewList (d : document).

Inductive script_result : Type :=
| Returned (arg_after : document) (ret : retval)
| Raised (e : exn) (arg_after : document).

Definition Script : Type := document -> script_result.

(** [scene.gcode_dict]: [None] when the scene has no such attribute. *)
Record scene : Type := { gcode_dict : option (gmap Z document) }.

Inductive log_entry : Type :=
| LogException (level message : string)
| Log (level message : string).

Definition processed_marker : string := ";POSTPROCESSED".
Definition processed_line : string := ";POSTPROCESSED" +:+ PyStr.nl.

(** The state of the loop over [self._script_list].
    - [held]: content of the list object stored in the scene;
    - [fresh]: [None] while the variable [gcode_list] is that same object,
      [Some d] once a script has returned another list, of content [d];
    - [logged]: what went to the [Logger];
    - [calls]: the argument of every script call made so far, in call order
      (an observation of the run, not a program variable). *)
Record loop_state : Type := {
  held : document;
  fresh : option document;
  logged : list log_entry;
  calls : list document
}.

Definition gcode_list (st : loop_state) : document :=
  default (held st) (fresh st).

(** Store [d] as the content of the object [gcode_list] refers to. *)
Definition mutate (d : document) (st : loop_state) : loop_state :=
  match fresh st with
  | None => {| held := d; fresh := None; logged := logged st; calls := calls st |}
  | Some _ => {| held := held st; fresh := Some d; logged := logged st; calls := calls st |}
  end.

(** One iteration:
    [try: gcode_list = script.execute(gcode_list)]
    [except Exception: Logger.logException(...)]. *)
Definition call_script (st : loop_state) (script : Script) : loop_state :=
  let arg := gcode_list st in
  let st := {| held := held st; fresh := fresh st; logged := logged st;
               calls := calls st ++ [arg] |} in
  match script arg with
  | Returned a SameList => mutate a st
  | Returned a (NewList d) =>
      let st := mutate a st in
      {| held := held st; fresh := Some d; logged := logged st; calls := calls st |}
  | Raised _ a =>
      let st := mutate a st in
      {| held := held st; fresh := fresh st;
         logged := logged st ++ [LogException "e" "Exception in post-processing script."];
         calls := calls st |}
  end.

Definition run_scripts (script_list : list Script) (st : loop_state) : loop_state :=
  fold_left call_script script_list st.

(** The result of one call of [execute]. *)
Record run : Type := {
  scene_after : scene;
  raised : option exn;
  log_after : list log_entry;
  script_calls : list document
}.

Definition quiet (sc : scene) : run :=
  {| scene_after := sc; raised := None; log_after := []; script_calls := [] |}.

Definition execute (script_list : list Script) (active_build_plate_id : Z)
    (sc : scene) : run :=
  match gcode_dict sc with
  | None => quiet sc
  | Some dict =>
      if decide (dict = ∅) then quiet sc else
      match dict !! active_build_plate_id with
      | None =>
          {| scene_after := sc; raised := Some KeyError; log_after := [];
             script_calls := [] |}
      | Some [] => quiet sc
      | Some ((first :: _) as d) =>
          if negb (PyStr.contains processed_marker first) then
            let st := run_scripts script_list
                        {| held := d; fresh := None; logged := []; calls := [] |} in
            match script_list with
            | [] =>
                {| scene_after :=
                     {| gcode_dict := Some (<[active_build_plate_id := gcode_list st]> dict) |};
                   raised := None; log_after := logged st; script_calls := calls st |}
            | _ :: _ =>
                match gcode_list st with
                | [] =>
                    (* gcode_list[0] raises; the scene keeps its list object *)
                    {| scene_after :=
                         {| gcode_dict := Some (<[active_build_plate_id := held st]> dict) |};
                       raised := Some IndexError; log_after := logged st;
                       script_calls := calls st |}
                | s0 :: rest =>
                    {| scene_after :=
                         {| gcode_dict :=
                              Some (<[active_build_plate_id := (s0 +:+ processed_line) :: rest]> dict) |};
                       raised := None; log_after := logged st; script_calls := calls st |}
                end
            end
          else
            {| scene_after := sc; raised := None;
               log_after := [Log "e" "Already post processed"]; script_calls := [] |}
      end
  end.

(** Two calls of [execute] one after the other, each made on its own by the
    event that starts a write: the second is made whatever the first did, on
    the scene the first left. The results of both. *)
Definition execute_twice (script_list : list Script) (active_build_plate_id : Z)
    (sc : scene) : run * run :=
  let r1 := execute script_list active_build_plate_id sc in
  (r1, execute script_list active_build_plate_id (scene_after r1)).

(** The document a script leaves in the variable [gcode_list]. *)
Definition left_by (r : script_result) : document :=
  match r with
  | Returned a SameList => a
  | Returned _ (NewList d) => d
  | Raised _ a => a
  end.

(** The document after the first scripts of a list have run. *)
Definition document_after (script_list : list Script) (d : document) : document :=
  fold_left (fun d script => left_by (script d)) script_list d.

End Pipeline.

(** ** The script [DisplayInfoOnLCD] *)

Module LCD.

Import PyStr PyFloat.

(** The values [getSettingValueByKey] returns for the keys the script reads. *)
Record settings : Type := {
  display_option : string;
  add_m118_line : bool;
  file_name : string;
  addPrefixPrinting : bool;
  scroll : bool;
  startNum : Z;
  maxlayer : bool;
  display_total_layers : bool;
  display_remaining_time : bool;
  speed_factor : float;
  countdown_to_pause : bool;
  enable_end_message : bool;
  print_start_time : string
}.

(** A [datetime.datetime], to the second. *)
Record datetime : Type := {
  year : Z; month : Z; day : Z; hour : Z; minute : Z; second : Z
}.

(** What the script takes from the application and from Python's library:
    the job name and the estimated print time as the application displays
    it, the wall clock, [str] of a float, and the [timedelta] arithmetic of
    the [datetime] module. *)
Class Host : Type := {
  jobName : string;
  currentPrintTime : string;
  clock : datetime;
  repr_float : float -> string;
  timedelta : Type;
  timedelta_new : Z -> float -> Z -> result timedelta;
  datetime_add : datetime -> timedelta -> result datetime;
  timedelta_str : timedelta -> string
}.

Definition colon : ascii := ":"%char.
Definition bar : ascii := "|"%char.

(** [line.split(":")[1]] *)
Definition field1 (line : string) : result string :=
  or_raise IndexError (split line colon !! 1%nat).

Definition parse_int (s : string) : result Z :=
  or_raise ValueError (PyParse.int_of_str s).

Definition parse_float (s : string) : result float :=
  or_raise ValueError (PyParse.float_of_str s).

(** *** The calendar *)

Definition is_leap (y : Z) : bool :=
  (y mod 4 =? 0) && (negb (y mod 100 =? 0) || (y mod 400 =? 0)).

Definition days_in_month (y m : Z) : Z :=
  if m =? 2 then (if is_leap y then 29 else 28)
  else if (m =? 4) || (m =? 6) || (m =? 9) || (m =? 11) then 30
  else 31.

(** [datetime.datetime(yr, mo, day, hr, min, sec)] *)
Definition datetime_new (yr mo dy hr mi sec : Z) : result datetime :=
  if (1 <=? yr) && (yr <=? 9999) && (1 <=? mo) && (mo <=? 12)
     && (1 <=? dy) && (dy <=? days_in_month yr mo)
     && (0 <=? hr) && (hr <=? 23) && (0 <=? mi) && (mi <=? 59)
     && (0 <=? sec) && (sec <=? 59)
  then Ok {| year := yr; month := mo; day := dy; hour := hr; minute := mi; second := sec |}
  else Raise ValueError.

Definition days_before_year (y : Z) : Z :=
  let p := y - 1 in p * 365 + p / 4 - p / 100 + p / 400.

Fixpoint days_before_month (y : Z) (m : nat) : Z :=
  match m with
  | O => 0
  | S O => 0
  | S m' => days_before_month y m' + days_in_month y (Z.of_nat m')
  end.

(** [int(t.strftime("%w"))]: the day of the week, Sunday being 0. *)
Definition weekday_w (t : datetime) : Z :=
  (days_before_year (year t) + days_before_month (year t) (Z.to_nat (month t)) + day t) mod 7.

(** A number on two digits, as [%H], [%M] and [%d] print it. *)
Definition pad2 (n : Z) : string :=
  if n <? 10 then "0" +:+ str n else str n.

Definition week_days : list string :=
  ["Sunday"; "Monday"; "Tuesday"; "Wednesday"; "Thursday"; "Friday"; "Saturday"].

Definition month_names : list string :=
  ["January"; "February"; "March"; "April"; "May"; "June"; "July"; "August";
   "September"; "October"; "November"; "December"].

(** [names[i]] for an index that may be negative. *)
Definition item (names : list string) (i : Z) : result string :=
  let n := Z.of_nat (length names) in
  let j := if i <? 0 then i + n else i in
  if j <? 0 then Raise IndexError
  else or_raise IndexError (names !! Z.to_nat j).

(** *** [message_to_user] *)

(** The entered start time, or [""] when it is not of the form expected. *)
Definition checked_start_time (print_start_time : string) : string :=
  if String.eqb print_start_time "" || String.eqb print_start_time "0"
     || negb (Nat.eqb (len print_start_time) 5)
     || negb (contains ":" print_start_time)
  then "" else print_start_time.

(** The instant the print starts at, as [(hr, min, sec)], and the lag in
    seconds added to the print time. *)
Definition start_instant `{Host} (print_start_time : string) : result (Z * Z * Z * Z) :=
  if negb (String.eqb print_start_time "") then
    h ← or_raise IndexError (split print_start_time colon !! 0%nat);
    hr ← parse_int h;
    m ← field1 print_start_time;
    mi ← parse_int m;
    Ok (hr, mi, 0, 0)
  else
    Ok (hour clock, minute clock, second clock, 900).

(** The hour and the suffix of the twelve-hour clock. *)
Definition twelve_hour (new_time : datetime) : string * string :=
  if 12 <? hour new_time then (str (hour new_time - 12) +:+ ":", " PM")
  else if hour new_time =? 0 then ("12:", " AM")
  else (pad2 (hour new_time) +:+ ":", " AM").

Definition finish_str (new_time : datetime) : result string :=
  week_day ← item week_days (weekday_w new_time);
  mo_str ← item month_names (month new_time - 1);
  let '(show_hr, show_ampm) := twelve_hour new_time in
  Ok (week_day +:+ " " +:+ mo_str +:+ " " +:+ pad2 (day new_time) +:+ ", "
      +:+ str (year new_time) +:+ " at " +:+ show_hr +:+ pad2 (minute new_time)
      +:+ show_ampm).

Definition message_to_user `{Host} (s : settings) (speed_factor : float)
    : result (string * string * string * string) :=
  let print_time := currentPrintTime in
  let print_start_time := checked_start_time (print_start_time s) in
  '(hr, mi, sec, fifteen_minute_delay) ← start_instant print_start_time;
  let yr := year clock in
  let dy := day clock in
  let mo := month clock in
  date_and_time ← datetime_new yr mo dy hr mi sec;
  let parts := split print_time colon in
  pr_hr ← or_raise IndexError (parts !! 0%nat) ≫= parse_int;
  pr_min ← or_raise IndexError (parts !! 1%nat) ≫= parse_int;
  pr_sec ← or_raise IndexError (parts !! 2%nat) ≫= parse_int;
  let print_seconds := pr_hr * 3600 + pr_min * 60 + pr_sec + fifteen_minute_delay in
  ps ← of_int print_seconds;
  let adjusted_print_time := mul ps speed_factor in
  adj_hr ← trunc (quot adjusted_print_time (of_Z 3600));
  h3600 ← of_int (adj_hr * 3600);
  let print_seconds := sub adjusted_print_time h3600 in
  whole ← trunc print_seconds;
  adj_min ← int_truediv whole 60;
  adj_sec ← trunc (sub print_seconds (mul adj_min (of_Z 60)));
  time_change ← timedelta_new adj_hr adj_min adj_sec;
  new_time ← datetime_add date_and_time time_change;
  finish ← finish_str new_time;
  let print_start_str :=
    if negb (String.eqb print_start_time "")
    then "Print Start Time................." +:+ print_start_time +:+ "hrs"
    else "Print Start Time.................15 minutes from now." in
  let estimate_str := "Cura Time Estimate.........." +:+ print_time in
  let adjusted_str := "Adjusted Time Estimate..." +:+ timedelta_str time_change in
  Ok (finish, estimate_str, adjusted_str, print_start_str).

(** A [Message(title, text)] shown to the user. *)
Record message : Type := { title : string; text : string }.

Definition finish_message (ttl : string) (m : string * string * string * string) : message :=
  let '(m0, m1, m2, m3) := m in
  {| title := ttl; text := m0 +:+ nl +:+ nl +:+ m1 +:+ nl +:+ m2 +:+ nl +:+ m3 |}.

(** *** Display progress: the estimate lines of the first section *)

(** The hours and minutes shown for [cura_time] seconds scaled by
    [speed_factor]:
    [hhh = cura_time*speed_factor/3600; hr = round(hhh // 1);
     mmm = round((hhh % 1) * 60)]. *)
Definition adjusted_estimate (cura_time : Z) (speed_factor : float) : result (Z * Z) :=
  ct ← of_int cura_time;
  let print_time := mul ct speed_factor in
  let hhh := quot print_time (of_Z 3600) in
  hr ← round (floordiv1 hhh);
  mmm ← round (mul (mod1 hhh) (of_Z 60));
  Ok (hr, mmm).

(** The same for the unscaled time: [orig_hhh = cura_time/3600]. *)
Definition original_estimate (cura_time : Z) : result (Z * Z) :=
  orig_hhh ← int_truediv cura_time 3600;
  orig_hr ← round (floordiv1 orig_hhh);
  orig_mmm ← round (mul (mod1 orig_hhh) (of_Z 60));
  Ok (orig_hr, orig_mmm).

(** [data[len(data)-1] += text] *)
Definition append_to_last (text : string) (data : document) : result document :=
  let n := length data in
  last ← or_raise IndexError (data !! (n - 1)%nat);
  if Nat.eqb n 0 then Raise IndexError
  else Ok (<[(n - 1)%nat := last +:+ text]> data).

(** The body of [if line.startswith(";TIME:")] for the line at hand: the new
    [lines] and [data]. *)
Definition time_line `{Host} (s : settings) (speed_factor : float)
    (line : string) (lines : list string) (data : document)
    : result (list string * document) :=
  tindex ← or_raise ValueError (PyList.index lines line);
  cura_time ← field1 line ≫= parse_int;
  '(hr, mmm) ← adjusted_estimate cura_time speed_factor;
  '(orig_hr, orig_mmm) ← original_estimate cura_time;
  let lines :=
    if add_m118_line s
    then PyList.insert_at (tindex + 1)
           ("M118 Adjusted Print Time " +:+ str hr +:+ "hr " +:+ str mmm +:+ "min") lines
    else lines in
  let lines := PyList.insert_at (tindex + 1)
                 ("M117 ET " +:+ str hr +:+ "hr " +:+ str mmm +:+ "min") lines in
  let lines := PyList.insert_at (tindex + 1)
                 (";Cura Time:  " +:+ str orig_hr +:+ "hr " +:+ str orig_mmm +:+ "min") lines in
  let data := <[0%nat := join nl lines]> data in
  data ← append_to_last
           ("M117 Orig Cura Est " +:+ str orig_hr +:+ "hr " +:+ str orig_mmm +:+ "min" +:+ nl) data;
  if add_m118_line s then
    data ← append_to_last
             ("M118 Est w/FudgeFactor  " +:+ repr_float (mul speed_factor (of_Z 100))
              +:+ "% was " +:+ str hr +:+ "hr " +:+ str mmm +:+ "min" +:+ nl) data;
    Ok (lines, data)
  else Ok (lines, data).

(** A run that ends (with the document as it is then), or one the given
    number of steps does not finish. *)
Inductive ending : Type :=
| Ends (r : result unit) (data : document)
| OutOfFuel.

(** [for line in lines:] over the list [lines] that the body lengthens: the
    iterator holds the position [i] and stops when it is past the end. *)
Fixpoint time_lines `{Host} (fuel : nat) (s : settings) (speed_factor : float)
    (i : nat) (lines : list string) (data : document) : ending :=
  match fuel with
  | O => OutOfFuel
  | S fuel =>
      match lines !! i with
      | None => Ends (Ok ()) data
      | Some line =>
          if startswith line ";TIME:" then
            match time_line s speed_factor line lines data with
            | Raise e => Ends (Raise e) data
            | Ok (lines, data) => time_lines fuel s speed_factor (S i) lines data
            end
          else time_lines fuel s speed_factor (S i) lines data
      end
  end.

Definition insert_estimates `{Host} (fuel : nat) (s : settings) (speed_factor : float)
    (data : document) : ending :=
  match data !! 0%nat with
  | None => Ends (Raise IndexError) data
  | Some first_section =>
      time_lines fuel s speed_factor 0 (split first_section nl_char) data
  end.

(** *** Display progress: the end-of-gcode marker *)

Definition end_of_gcode : string := ";End of Gcode" +:+ nl.

Definition relocate_end_marker (data : document) : result document :=
  let n := length data in
  layer ← or_raise IndexError (data !! (n - 1)%nat);
  if Nat.eqb n 0 then Raise IndexError
  else Ok (<[(n - 1)%nat := replace layer end_of_gcode "" +:+ end_of_gcode]> data).

(** *** Display progress: the layer count and the total time *)

Record totals : Type := {
  first_layer_index : nat;
  number_of_layers : Z;
  time_total : Z
}.

Fixpoint scan_lines (lines : list string) (number_of_layers time_total : Z)
    : result (Z * Z) :=
  match lines with
  | [] => Ok (number_of_layers, time_total)
  | line :: lines =>
      if startswith line ";LAYER_COUNT:" then
        n ← field1 line ≫= parse_int; scan_lines lines n time_total
      else if startswith line ";TIME:" then
        t ← field1 line ≫= parse_int; scan_lines lines number_of_layers t
      else scan_lines lines number_of_layers time_total
  end.

Fixpoint scan_sections (sections : list string) (index : nat)
    (number_of_layers time_total : Z) : result totals :=
  match sections with
  | [] => Ok {| first_layer_index := 0; number_of_layers := number_of_layers;
                time_total := time_total |}
  | data_section :: sections =>
      if contains ";LAYER:" data_section then
        Ok {| first_layer_index := index; number_of_layers := number_of_layers;
              time_total := time_total |}
      else
        '(n, t) ← scan_lines (split data_section nl_char) number_of_layers time_total;
        scan_sections sections (S index) n t
  end.

Definition find_totals (data : document) : result totals :=
  scan_sections data 0 0 0.

(** *** Display progress: the loop over the layers *)

(** The text appended when the remaining time is displayed. *)
Definition remaining_time_display (time_total time_elapsed : Z) (speed_factor : float)
    : result string :=
  let time_remaining_display := " | ET " in
  let m := (time_total - time_elapsed) / 60 in
  mf ← of_int m;
  m ← trunc (mul mf speed_factor);
  let h := m / 60 in
  let m := m mod 60 in
  if 0 <? h then
    let time_remaining_display := time_remaining_display +:+ str h +:+ "h" in
    let time_remaining_display :=
      if m <? 10 then time_remaining_display +:+ "0" else time_remaining_display in
    Ok (time_remaining_display +:+ str m +:+ "m")
  else Ok (time_remaining_display +:+ str m +:+ "m").

(** The last line of [lines] that starts with [";TIME_ELAPSED:"], read as
    [int(float(...))]; [None] when there is no such line. *)
Fixpoint last_time_elapsed (reversed_lines : list string) : result (option Z) :=
  match reversed_lines with
  | [] => Ok None
  | line :: rest =>
      if startswith line ";TIME_ELAPSED:" then
        x ← field1 line ≫= parse_float; t ← trunc x; Ok (Some t)
      else last_time_elapsed rest
  end.

(** The display lines go after the first line that starts with [";LAYER:"]. *)
Fixpoint insert_display (add_m118 : bool) (display_text : string) (lines : list string)
    : list string :=
  match lines with
  | [] => []
  | line :: rest =>
      if startswith line ";LAYER:" then
        let line := line +:+ nl +:+ "M117 " +:+ display_text in
        let line := if add_m118 then line +:+ nl +:+ "M118 " +:+ display_text else line in
        line :: rest
      else line :: insert_display add_m118 display_text rest
  end.

Record progress : Type := {
  current_layer : Z;
  time_elapsed : Z;
  data : document
}.

Definition base_display_text (s : settings) : string :=
  if negb (display_total_layers s) || negb (display_remaining_time s)
  then "layer " else "".

(** One turn of [for layer_counter in range(len(data)-2)]. *)
Definition layer_step (s : settings) (speed_factor : float) (t : totals)
    (st : progress) (layer_counter : nat) : result progress :=
  let current_layer := current_layer st + 1 in
  let layer_index := (first_layer_index t + layer_counter)%nat in
  let display_text := base_display_text s +:+ str current_layer in
  section ← or_raise IndexError (data st !! layer_index);
  let lines := split section nl_char in
  if negb (contains ";LAYER:" section) then
    Ok {| current_layer := current_layer - 1; time_elapsed := time_elapsed st;
          data := data st |}
  else
    let display_text :=
      if display_total_layers s
      then display_text +:+ "/" +:+ str (number_of_layers t) else display_text in
    '(display_text, elapsed) ←
      (if display_remaining_time s then
         time_remaining_display ←
           remaining_time_display (time_total t) (time_elapsed st) speed_factor;
         let display_text := display_text +:+ time_remaining_display in
         if negb (current_layer =? number_of_layers t) then
           found ← last_time_elapsed (rev lines);
           Ok (display_text, default (time_elapsed st) found)
         else Ok (display_text, time_elapsed st)
       else Ok (display_text, time_elapsed st));
    let lines := insert_display (add_m118_line s) display_text lines in
    Ok {| current_layer := current_layer; time_elapsed := elapsed;
          data := <[layer_index := join nl lines]> (data st) |}.

(** The loop: the state it ends in, and the exception that ended it if one
    was raised. *)
Fixpoint layer_loop (s : settings) (speed_factor : float) (t : totals)
    (counters : list nat) (st : progress) : progress * option exn :=
  match counters with
  | [] => (st, None)
  | layer_counter :: counters =>
      match layer_step s speed_factor t st layer_counter with
      | Raise e => (st, Some e)
      | Ok st => layer_loop s speed_factor t counters st
      end
  end.

Definition annotate_layers (s : settings) (speed_factor : float) (t : totals)
    (data : document) : progress * option exn :=
  layer_loop s speed_factor t (PyList.range 0 (length data - 2))
    {| current_layer := 0; time_elapsed := 0; data := data |}.

(** *** Display progress: the countdown to the pauses *)

(** An entry of [time_list]. The code keeps [str(t)] for a time [t] and
    [str(t) + "P"] for a time to the next pause; [float(str(t))] is [t] and
    no [str(t)] holds a ["P"], so an entry is the float and whether the
    ["P"] is there. *)
Inductive time_entry : Type :=
| Plain (t : float)
| ToPause (t : float).

(** ["P" in entry] *)
Definition tagged (e : time_entry) : bool :=
  match e with
  | Plain _ => false
  | ToPause _ => true
  end.

(** [float(entry)] *)
Definition float_of_entry (e : time_entry) : result float :=
  match e with
  | Plain t => Ok t
  | ToPause _ => Raise ValueError
  end.

(** [float(entry[:-1])] *)
Definition float_of_stripped (e : time_entry) : result float :=
  match e with
  | ToPause t => Ok t
  | Plain _ => Raise ValueError
  end.

Record pause_state : Type := {
  time_list : list time_entry;
  this_time : float;
  pause_index : nat
}.

Definition pause_marker : string := "PauseAtHeight.py".

(** [for qnum in range(num - 1, pause_index, -1)] as the list of its values. *)
Definition countdown_range (num pause_index : nat) : list nat :=
  rev (seq (S pause_index) (num - 1 - pause_index)).

Fixpoint retag (this_time : float) (qnums : list nat) (time_list : list time_entry)
    : result (list time_entry) :=
  match qnums with
  | [] => Ok time_list
  | qnum :: qnums =>
      e ← or_raise IndexError (time_list !! qnum);
      t ← float_of_entry e;
      retag this_time qnums (<[qnum := ToPause (sub this_time t)]> time_list)
  end.

(** The lines of the section [num], in the first pass. *)
Fixpoint record_times (speed_factor : float) (num : nat) (layer : string)
    (lines : list string) (st : pause_state) : result pause_state :=
  match lines with
  | [] => Ok st
  | line :: lines =>
      if startswith line ";TIME_ELAPSED:" then
        x ← field1 line ≫= parse_float;
        let this_time := mul x speed_factor in
        let time_list := time_list st ++ [Plain this_time] in
        if contains pause_marker layer then
          time_list ← retag this_time (countdown_range num (pause_index st)) time_list;
          record_times speed_factor num layer lines
            {| time_list := time_list; this_time := this_time;
               pause_index := (num - 1)%nat |}
        else
          record_times speed_factor num layer lines
            {| time_list := time_list; this_time := this_time;
               pause_index := pause_index st |}
      else record_times speed_factor num layer lines st
  end.

(** [for num in range(2, len(data) - 1)], first pass. *)
Fixpoint layer_times (speed_factor : float) (data : document) (nums : list nat)
    (st : pause_state) : result pause_state :=
  match nums with
  | [] => Ok st
  | num :: nums =>
      layer ← or_raise IndexError (data !! num);
      st ← record_times speed_factor num layer (split layer nl_char) st;
      layer_times speed_factor data nums st
  end.

Definition initial_pause_state : pause_state :=
  {| time_list := [Plain (S754_zero false); Plain (S754_zero false)];
     this_time := S754_zero false; pause_index := 1 |}.

(** The time to the pause as it is displayed, from the seconds [t]. *)
Definition time_to_go_text (t : float) : result string :=
  hhh ← trunc (quot t (of_Z 3600));
  let hhr := if 0 <? hhh then str hhh +:+ "h" else "" in
  whole ← trunc (quot t (of_Z 3600));
  let mmm := mul (sub (quot t (of_Z 3600)) (of_Z whole)) (of_Z 60) in
  im ← trunc mmm;
  sss ← trunc (mul (sub mmm (of_Z im)) (of_Z 60));
  r ← round mmm;
  let time_to_go := hhr +:+ str r +:+ "m" in
  Ok (if String.eqb hhr "" then time_to_go +:+ str sss +:+ "s" else time_to_go).

(** [line.split("|")[0]] *)
Definition before_bar (line : string) : string :=
  default "" (split line bar !! 0%nat).

(** The state of the second pass inside a section: the text of the section
    and the variable [time_to_go], unset at first. *)
Definition rewrite_line (time_list : list time_entry) (num : nat)
    (st : string * option string) (line : string) : result (string * option string) :=
  let '(layer, time_to_go) := st in
  '(layer, time_to_go) ←
    (if startswith line "M117" && contains "|" line then
       e ← or_raise IndexError (time_list !! num);
       if tagged e then
         alt_time ← float_of_stripped e;
         ttg ← time_to_go_text alt_time;
         let M117_line := before_bar line +:+ "| TP " +:+ ttg in
         Ok (replace layer line M117_line, Some ttg)
       else Ok (layer, time_to_go)
     else Ok (layer, time_to_go));
  if startswith line "M118" && contains "|" line then
    e ← or_raise IndexError (time_list !! num);
    if tagged e then
      ttg ← or_raise UnboundLocalError time_to_go;
      let M118_line := before_bar line +:+ "| TP " +:+ ttg in
      Ok (replace layer line M118_line, time_to_go)
    else Ok (layer, time_to_go)
  else Ok (layer, time_to_go).

Fixpoint rewrite_lines (time_list : list time_entry) (num : nat)
    (lines : list string) (st : string * option string)
    : result (string * option string) :=
  match lines with
  | [] => Ok st
  | line :: lines =>
      st ← rewrite_line time_list num st line;
      rewrite_lines time_list num lines st
  end.

(** [for num in range(2, len(data) - 1)], second pass: the document it ends
    with, and the exception that ended it if one was raised. *)
Fixpoint rewrite_layers (time_list : list time_entry) (nums : list nat)
    (time_to_go : option string) (data : document) : document * option exn :=
  match nums with
  | [] => (data, None)
  | num :: nums =>
      match data !! num with
      | None => (data, Some IndexError)
      | Some layer =>
          match rewrite_lines time_list num (split layer nl_char) (layer, time_to_go) with
          | Raise e => (data, Some e)
          | Ok (layer, time_to_go) =>
              rewrite_layers time_list nums time_to_go (<[num := layer]> data)
          end
      end
  end.

Definition countdown_to_pauses (speed_factor : float) (data : document)
    : document * option exn :=
  let nums := PyList.range 2 (length data - 1) in
  match layer_times speed_factor data nums initial_pause_state with
  | Raise e => (data, Some e)
  | Ok st => rewrite_layers (time_list st) nums None data
  end.

(** *** Filename and layer *)

(** The variables of the loop over the lines of a section. [max_layer] is
    [None] while it still holds the integer [0] it starts with. *)
Record naming : Type := {
  lines : list string;
  display_text : string;
  max_layer : option string;
  i : Z
}.

(** The body of [for line in lines:] for the line at hand. *)
Definition name_line (s : settings) (file_name : string) (line : string)
    (st : naming) : result naming :=
  max_layer ←
    (if startswith line ";LAYER_COUNT:" then
       count ← field1 line;
       if startNum s =? 0 then
         n ← parse_int count; Ok (Some (str (n - 1)))
       else Ok (Some count)
     else Ok (max_layer st));
  if startswith line ";LAYER:" then
    display_text ←
      (if maxlayer s then
         total ← or_raise TypeError max_layer;
         let display_text := display_text st +:+ " of " +:+ total in
         Ok (if negb (scroll s) then display_text +:+ " " +:+ file_name else display_text)
       else
         Ok (if negb (scroll s) then display_text st +:+ " " +:+ file_name +:+ "!"
             else display_text st +:+ "!"));
    line_index ← or_raise ValueError (PyList.index (lines st) line);
    let lines := PyList.insert_at (line_index + 1) display_text (lines st) in
    let lines :=
      if add_m118_line s
      then PyList.insert_at (line_index + 2) (replace_first display_text "M117" "M118") lines
      else lines in
    Ok {| lines := lines; display_text := display_text; max_layer := max_layer;
          i := i st + 1 |}
  else
    Ok {| lines := lines st; display_text := display_text st; max_layer := max_layer;
          i := i st |}.

(** [for line in lines:] over the list the body lengthens; [None] when the
    given number of steps does not finish it. *)
Fixpoint name_lines (fuel : nat) (s : settings) (file_name : string) (pos : nat)
    (st : naming) : option (result naming) :=
  match fuel with
  | O => None
  | S fuel =>
      match lines st !! pos with
      | None => Some (Ok st)
      | Some line =>
          match name_line s file_name line st with
          | Raise e => Some (Raise e)
          | Ok st => name_lines fuel s file_name (S pos) st
          end
      end
  end.

Definition lcd_text (s : settings) (file_name : string) : string :=
  let lcd_text := "M117 " in
  let lcd_text := if addPrefixPrinting s then lcd_text +:+ "Printing " else lcd_text in
  if negb (scroll s) then lcd_text +:+ "Layer "
  else lcd_text +:+ file_name +:+ " - Layer ".

Definition shown_name `{Host} (s : settings) : string :=
  if negb (String.eqb (file_name s) "") then file_name s else jobName.

(** One turn of [for layer in data:], for the section at position [k]. *)
Definition name_section (fuel : nat) (s : settings) (file_name : string)
    (k : nat) (max_layer : option string) (i : Z) (data : document)
    : option (result (option string * Z * document)) :=
  match data !! k with
  | None => Some (Ok (max_layer, i, data))
  | Some layer =>
      match PyList.index data layer with
      | None => Some (Raise ValueError)
      | Some layer_index =>
          match name_lines fuel s file_name 0
                  {| lines := split layer nl_char;
                     display_text := lcd_text s file_name +:+ str i;
                     max_layer := max_layer; i := i |} with
          | None => None
          | Some (Raise e) => Some (Raise e)
          | Some (Ok st) =>
              Some (Ok (LCD.max_layer st, LCD.i st,
                        <[layer_index := join nl (lines st)]> data))
          end
      end
  end.

(** How a call of [execute] ends. *)
Inductive status : Type :=
| Returns
| Raises (e : exn)
| Unfinished.

(** The end of a call of [execute]: how it ends, the content of the list
    [data] then, and the messages shown. *)
Record outcome : Type := {
  ended : status;
  data_after : document;
  shown : list message
}.

Fixpoint name_sections (fuel : nat) (s : settings) (file_name : string)
    (positions : list nat) (max_layer : option string) (i : Z) (data : document)
    : status * document :=
  match positions with
  | [] => (Returns, data)
  | k :: positions =>
      match name_section fuel s file_name k max_layer i data with
      | None => (Unfinished, data)
      | Some (Raise e) => (Raises e, data)
      | Some (Ok (max_layer, i, data)) =>
          name_sections fuel s file_name positions max_layer i data
      end
  end.

(** The message at the end of both modes. *)
Definition end_message `{Host} (s : settings) (ttl : string) (speed_factor : float)
    (data : document) : outcome :=
  if enable_end_message s then
    match message_to_user s speed_factor with
    | Raise e => {| ended := Raises e; data_after := data; shown := [] |}
    | Ok m => {| ended := Returns; data_after := data; shown := [finish_message ttl m] |}
    end
  else {| ended := Returns; data_after := data; shown := [] |}.

Definition filename_layer `{Host} (fuel : nat) (s : settings) (data : document)
    : outcome :=
  let file_name := shown_name s in
  match name_sections fuel s file_name (seq 0 (length data)) None (startNum s) data with
  | (Returns, data) =>
      end_message s "Display Info on LCD - Estimated Finish Time"
        (quot (speed_factor s) (of_Z 100)) data
  | (st, data) => {| ended := st; data_after := data; shown := [] |}
  end.

Definition display_progress `{Host} (fuel : nat) (s : settings) (data : document)
    : outcome :=
  let speed_factor := quot (speed_factor s) (of_Z 100) in
  let stop (e : exn) (data : document) :=
    {| ended := Raises e; data_after := data; shown := [] |} in
  match insert_estimates fuel s speed_factor data with
  | OutOfFuel => {| ended := Unfinished; data_after := data; shown := [] |}
  | Ends (Raise e) data => stop e data
  | Ends (Ok _) data =>
      match relocate_end_marker data with
      | Raise e => stop e data
      | Ok data =>
          match find_totals data with
          | Raise e => stop e data
          | Ok t =>
              match annotate_layers s speed_factor t data with
              | (st, Some e) => stop e (LCD.data st)
              | (st, None) =>
                  let data := LCD.data st in
                  if countdown_to_pause s then
                    match countdown_to_pauses speed_factor data with
                    | (data, Some e) => stop e data
                    | (data, None) =>
                        end_message s "[Display Info on LCD] - Estimated Finish Time"
                          speed_factor data
                    end
                  else
                    end_message s "[Display Info on LCD] - Estimated Finish Time"
                      speed_factor data
              end
          end
      end
  end.

(** [DisplayInfoOnLCD.execute(data)] *)
Definition execute `{Host} (fuel : nat) (s : settings) (data : document) : outcome :=
  if String.eqb (display_option s) "filename_layer" then filename_layer fuel s data
  else if String.eqb (display_option s) "display_progress" then display_progress fuel s data
  else {| ended := Returns; data_after := data; shown := [] |}.

End LCD.

(** ** Python lists indexed by an [int] *)

Module PyIndex.

(** The position an index stands for in a list of [len] elements: a negative
    index counts from the end; [None] when it is out of range. *)
Definition position (len : nat) (i : Z) : option nat :=
  let j := if i <? 0 then i + Z.of_nat len else i in
  if (0 <=? j) && (j <? Z.of_nat len) then Some (Z.to_nat j) else None.

(** [l[i]] *)
Definition get {A : Type} (l : list A) (i : Z) : result A :=
  match position (length l) i with
  | Some j => or_raise IndexError (l !! j)
  | None => Raise IndexError
  end.

(** [l[i] = x] *)
Definition assign {A : Type} (l : list A) (i : Z) (x : A) : result (list A) :=
  match position (length l) i with
  | Some j => Ok (<[j := x]> l)
  | None => Raise IndexError
  end.

(** [l.pop(i)]: the element taken out and the list that is left. *)
Definition pop {A : Type} (l : list A) (i : Z) : result (A * list A) :=
  match position (length l) i with
  | Some j => x ← or_raise IndexError (l !! j); Ok (x, delete j l)
  | None => Raise IndexError
  end.

End PyIndex.

(** ** The list of active scripts ([PostProcessingPlugin]) *)

Module Manager.

Import PyStr.

(** What the plugin reads from a script instance: [getDefinitionId()],
    [getStackId()] and [getSettingData()["key"]] ([None] when the setting
    data has no ["key"]). *)
Record script : Type := {
  definition_id : string;
  stack_id : string;
  setting_key : option string
}.

(** A loaded script class: what calling it gives, an instance or an
    exception. *)
Definition script_class : Type := result script.

Inductive signal : Type :=
| SelectedIndexChanged
| ScriptListChanged
| PropertyChanged (key property : string).

(** The attributes of the plugin object, with the signals emitted and the
    lines logged so far. [_propertyChanged] emits on the global container
    stack, which is taken to exist. *)
Record manager : Type := {
  loaded_scripts : gmap string script_class;
  script_labels : gmap string string;
  script_list : list script;
  selected_script_index : Z;
  emitted : list signal;
  logged : list Pipeline.log_entry
}.

Definition emit (signals : list signal) (m : manager) : manager :=
  {| loaded_scripts := loaded_scripts m; script_labels := script_labels m;
     script_list := script_list m; selected_script_index := selected_script_index m;
     emitted := emitted m ++ signals; logged := logged m |}.

Definition with_script_list (l : list script) (m : manager) : manager :=
  {| loaded_scripts := loaded_scripts m; script_labels := script_labels m;
     script_list := l; selected_script_index := selected_script_index m;
     emitted := emitted m; logged := logged m |}.

Definition with_selected (index : Z) (m : manager) : manager :=
  {| loaded_scripts := loaded_scripts m; script_labels := script_labels m;
     script_list := script_list m; selected_script_index := index;
     emitted := emitted m; logged := logged m |}.

Definition log (level message : string) (m : manager) : manager :=
  {| loaded_scripts := loaded_scripts m; script_labels := script_labels m;
     script_list := script_list m; selected_script_index := selected_script_index m;
     emitted := emitted m; logged := logged m ++ [Pipeline.Log level message] |}.

(** [self._propertyChanged()] *)
Definition propertyChanged (m : manager) : manager :=
  emit [PropertyChanged "post_processing_plugin" "value"] m.

(** [moveScript] and [removeScriptByIndex] return the new state, or raise;
    they raise before they change anything, so an exception leaves the state
    as it was. *)

(** [selectedScriptDefinitionId]: any exception gives [""]. *)
Definition selectedScriptDefinitionId (m : manager) : string :=
  match PyIndex.get (script_list m) (selected_script_index m) with
  | Ok s => definition_id s
  | Raise _ => ""
  end.

Definition selectedScriptStackId (m : manager) : string :=
  match PyIndex.get (script_list m) (selected_script_index m) with
  | Ok s => stack_id s
  | Raise _ => ""
  end.

Definition setSelectedScriptIndex (index : Z) (m : manager) : manager :=
  emit [SelectedIndexChanged] (with_selected index m).

Definition selectedScriptIndex (m : manager) : Z := selected_script_index m.

(** [moveScript(index, new_index)]: the two entries are read, then
    [new_index] is written, then [index]. *)
Definition moveScript (index new_index : Z) (m : manager) : result manager :=
  if (new_index <? 0) || (Z.of_nat (length (script_list m)) - 1 <? new_index) then Ok m
  else
    at_index ← PyIndex.get (script_list m) index;
    at_new_index ← PyIndex.get (script_list m) new_index;
    l ← PyIndex.assign (script_list m) new_index at_index;
    l ← PyIndex.assign l index at_new_index;
    Ok (propertyChanged (emit [ScriptListChanged; SelectedIndexChanged] (with_script_list l m))).

Definition removeScriptByIndex (index : Z) (m : manager) : result manager :=
  '(_, l) ← PyIndex.pop (script_list m) index;
  let m := with_script_list l m in
  let m :=
    if Z.of_nat (length l) - 1 <? selected_script_index m
    then with_selected (Z.of_nat (length l) - 1) m else m in
  Ok (propertyChanged (emit [ScriptListChanged; SelectedIndexChanged] m)).

(** [scriptList]: the keys of the scripts of the list. *)
Definition scriptList (m : manager) : result (list string) :=
  mapM (fun s => or_raise KeyError (setting_key s)) (script_list m).

(** [getScriptLabelByKey(key)] *)
Definition getScriptLabelByKey (key : string) (m : manager) : result string :=
  or_raise KeyError (script_labels m !! key).

(** [addScriptToList(key)]: the state it ends in, and the exception raised
    if there is one (the line logged first stays). *)
Definition addScriptToList (key : string) (m : manager) : manager * option exn :=
  let m := log "d" ("Adding script " +:+ key +:+ " to list.") m in
  match loaded_scripts m !! key with
  | None => (m, Some KeyError)
  | Some (Raise e) => (m, Some e)
  | Some (Ok new_script) =>
      let m := with_script_list (script_list m ++ [new_script]) m in
      let m := setSelectedScriptIndex (Z.of_nat (length (script_list m)) - 1) m in
      (propertyChanged (emit [ScriptListChanged] m), None)
  end.

(** *** The scripts in the metadata of the stack *)

Definition backslash : string := "\".
(** A backslash and the letter [n]. *)
Definition backslash_n : string := "\n".

(** [script_str.replace("\\", "\\\\").replace("\n", "\\n")] *)
Definition escape (script_str : string) : string :=
  replace (replace script_str backslash (backslash +:+ backslash)) nl backslash_n.

(** [script_str.replace("\\n", "\n").replace("\\\\", "\\")] *)
Definition unescape (script_str : string) : string :=
  replace (replace script_str backslash_n nl) (backslash +:+ backslash) backslash.

(** [writeScriptsToStack]: the metadata entry, from the texts the config
    parser wrote for the scripts. *)
Definition stack_entry (serialized : list string) : string :=
  join nl (map escape serialized).

(** [_onGlobalContainerStackChanged]: the texts handed to the config parser,
    from the metadata entry. *)
Definition texts_of_entry (scripts_list_strs : string) : list string :=
  map unescape (filter (fun script_str => script_str <> "") (split scripts_list_strs nl_char)).

End Manager.

(** ** The Marketplace plug-in object ([Marketplace.py]) *)

Module Marketplace.

Inductive signal : Type :=
| TabShownChanged
| ShowRestartNotificationChanged.

(** What is done to the application and to the window: a component created
    from a path (given by its parts), a handler connected to
    [pluginsEnabledOrDisabledChanged], and the calls on the window. *)
Inductive action : Type :=
| CreateQmlComponent (path : list string)
| ConnectRestartCheck
| WindowShow
| WindowRequestActivate.

(** What the application answers: the path of the plug-in ([None] when the
    registry has none), the directory of the module, whether the component
    loads, whether packages wait to be removed or installed, and the number
    of plug-ins whose activation changed in the session. *)
Record world : Type := {
  plugin_path : option string;
  module_dir : string;
  component_loads : bool;
  hasPackagesToRemoveOrInstall : bool;
  activation_changed : nat
}.

(** The attributes of the object ([window] and [plugin_registry] say whether
    the attribute is set, not [None]), with the signals emitted and the
    actions done so far. *)
Record state : Type := {
  window : bool;
  plugin_registry : bool;
  tab_shown : Z;
  restart_needed : bool;
  emitted : list signal;
  done : list action
}.

(** The object after [__init__], the package lists apart. *)
Definition initial : state :=
  {| window := false; plugin_registry := false; tab_shown := 0; restart_needed := false;
     emitted := []; done := [] |}.

Definition getTabShown (st : state) : Z := tab_shown st.

Definition setTabShown (tab : Z) (st : state) : state :=
  if negb (tab =? tab_shown st) then
    {| window := window st; plugin_registry := plugin_registry st; tab_shown := tab;
       restart_needed := restart_needed st; emitted := emitted st ++ [TabShownChanged];
       done := done st |}
  else st.

Definition act (actions : list action) (st : state) : state :=
  {| window := window st; plugin_registry := plugin_registry st; tab_shown := tab_shown st;
     restart_needed := restart_needed st; emitted := emitted st;
     done := done st ++ actions |}.

Definition qml_path (w : world) : list string :=
  [default (module_dir w) (plugin_path w); "resources"; "qml"; "Marketplace.qml"].

(** [show()] *)
Definition show (w : world) (st : state) : state :=
  let st :=
    if negb (window st) then
      {| window := component_loads w; plugin_registry := true; tab_shown := tab_shown st;
         restart_needed := restart_needed st; emitted := emitted st;
         done := done st ++ [ConnectRestartCheck; CreateQmlComponent (qml_path w)] |}
    else st in
  if negb (window st) then st
  else act [WindowShow; WindowRequestActivate] (setTabShown 0 st).

Definition setVisibleTabToMaterials (st : state) : state := setTabShown 1 st.

(** How [checkIfRestartNeeded] ends: with a new state, or with the
    [AttributeError] of a call on [None]. *)
Inductive checked : Type :=
| Checked (st : state)
| AttributeError.

(** [checkIfRestartNeeded()]: the registry is asked only when no package
    waits. *)
Definition checkIfRestartNeeded (w : world) (st : state) : checked :=
  let set_needed (needed : bool) : checked :=
    Checked
      {| window := window st; plugin_registry := plugin_registry st; tab_shown := tab_shown st;
         restart_needed := needed;
         emitted := emitted st ++ [ShowRestartNotificationChanged]; done := done st |} in
  if hasPackagesToRemoveOrInstall w then set_needed true
  else if plugin_registry st then set_needed (0 <? activation_changed w)%nat
  else AttributeError.

Definition showRestartNotification (st : state) : bool := restart_needed st.

End Marketplace.

(** * Properties *)

(** ** Strings *)

Section StringFacts.

Import PyStr.

Lemma prefix_append (p t : string) : String.prefix p (p +:+ t) = true.
Proof.
  induction p as [|c p IH]; simpl.
  - now destruct t.
  - destruct (ascii_dec c c) as [_|ne]; [exact IH | now destruct ne].
Qed.

Lemma contains_prefix (sub s : string) :
  String.prefix sub s = true -> contains sub s = true.
Proof.
  destruct s as [|c s]; simpl; intros H; [exact H | now rewrite H].
Qed.

Lemma contains_middle (sub a t : string) : contains sub (a +:+ sub +:+ t) = true.
Proof.
  induction a as [|c a IH].
  - change ("" +:+ sub +:+ t) with (sub +:+ t).
    apply contains_prefix. apply prefix_append.
  - simpl. rewrite IH. apply orb_true_r.
Qed.

Lemma prefix_append_r (p u t : string) :
  String.prefix p u = true -> String.prefix p (u +:+ t) = true.
Proof.
  revert u. induction p as [|d p IH]; intros u H.
  - now destruct (u +:+ t).
  - destruct u as [|e u]; [discriminate|]. simpl in *.
    destruct (ascii_dec d e); [now apply IH | discriminate].
Qed.

Lemma contains_append_l (sub a t : string) :
  contains sub a = true -> contains sub (a +:+ t) = true.
Proof.
  induction a as [|c a IH]; intros H.
  - apply contains_prefix. now apply (prefix_append_r sub "" t).
  - simpl in H. apply orb_true_iff in H. destruct H as [H|H].
    + apply contains_prefix. now apply (prefix_append_r sub (String c a) t).
    + simpl. rewrite (IH H). apply orb_true_r.
Qed.

End StringFacts.

(** ** The pipeline runner *)

Section PipelineFacts.

Import Pipeline.

Lemma gcode_list_mutate (a : document) (st : loop_state) :
  gcode_list (mutate a st) = a.
Proof. unfold mutate, gcode_list. now destruct (fresh st). Qed.

Lemma calls_mutate (a : document) (st : loop_state) :
  calls (mutate a st) = calls st.
Proof. unfold mutate. now destruct (fresh st). Qed.

Lemma logged_mutate (a : document) (st : loop_state) :
  logged (mutate a st) = logged st.
Proof. unfold mutate. now destruct (fresh st). Qed.

Lemma gcode_list_call (st : loop_state) (script : Script) :
  gcode_list (call_script st script) = left_by (script (gcode_list st)).
Proof.
  unfold call_script.
  destruct (script (gcode_list st)) as [a [|d]|e a]; simpl.
  - apply gcode_list_mutate.
  - reflexivity.
  - unfold gcode_list at 1. simpl. apply gcode_list_mutate.
Qed.

Lemma calls_call (st : loop_state) (script : Script) :
  calls (call_script st script) = calls st ++ [gcode_list st].
Proof.
  unfold call_script.
  destruct (script (gcode_list st)) as [a [|d]|e a]; simpl;
    now rewrite calls_mutate.
Qed.

(** The arguments the scripts of a list are called with, one after the
    other, from the document [d]. *)
Definition arguments (script_list : list Script) (d : document) : list document :=
  map (fun i => document_after (take i script_list) d) (seq 0 (length script_list)).

Lemma arguments_cons (script : Script) (script_list : list Script) (d : document) :
  arguments (script :: script_list) d = d :: arguments script_list (left_by (script d)).
Proof.
  unfold arguments. simpl. f_equal.
  rewrite <- seq_shift, map_map. reflexivity.
Qed.

Lemma run_scripts_spec (script_list : list Script) (st : loop_state) :
  gcode_list (run_scripts script_list st) = document_after script_list (gcode_list st)
  /\ calls (run_scripts script_list st) = calls st ++ arguments script_list (gcode_list st).
Proof.
  revert st. induction script_list as [|script l IH]; intros st.
  - split; [reflexivity|]. unfold arguments. simpl. now rewrite app_nil_r.
  - destruct (IH (call_script st script)) as [IHg IHc].
    unfold run_scripts in *. simpl. rewrite IHg, IHc.
    rewrite gcode_list_call, calls_call, arguments_cons, <- app_assoc.
    split; reflexivity.
Qed.

(** The failures among the scripts of a list, run from [d]. *)
Fixpoint failures (script_list : list Script) (d : document) : nat :=
  match script_list with
  | [] => 0
  | script :: l =>
      match script d with
      | Raised _ _ => S (failures l (left_by (script d)))
      | Returned _ _ => failures l (left_by (script d))
      end
  end.

Lemma run_scripts_logged (script_list : list Script) (st : loop_state) :
  logged (run_scripts script_list st)
  = logged st ++ repeat (LogException "e" "Exception in post-processing script.")
                   (failures script_list (gcode_list st)).
Proof.
  revert st. induction script_list as [|script l IH]; intros st.
  - simpl. now rewrite app_nil_r.
  - unfold run_scripts in *. simpl. rewrite IH, gcode_list_call.
    unfold call_script.
    destruct (script (gcode_list st)) as [a [|d]|e a]; simpl;
      rewrite ?logged_mutate; simpl; try reflexivity.
    now rewrite <- app_assoc.
Qed.

Lemma processed_line_marked (section : string) :
  PyStr.contains processed_marker (section +:+ processed_line) = true.
Proof. apply (contains_middle processed_marker section PyStr.nl). Qed.

(** What [execute] does once the first section holds the marker. *)
Lemma execute_marked (script_list : list Script) (active : Z) (sc : scene)
    (dict : gmap Z document) (first : string) (rest : document) :
  gcode_dict sc = Some dict ->
  dict !! active = Some (first :: rest) ->
  PyStr.contains processed_marker first = true ->
  execute script_list active sc
  = {| scene_after := sc; raised := None;
       log_after := [Log "e" "Already post processed"]; script_calls := [] |}.
Proof.
  intros Hd Hl Hm. unfold execute. rewrite Hd.
  destruct (decide (dict = ∅)) as [->|_]; [now rewrite lookup_empty in Hl|].
  rewrite Hl, Hm. reflexivity.
Qed.

(** What [execute] does on a document that has no marker yet. *)
Lemma execute_unmarked (script_list : list Script) (active : Z) (sc : scene)
    (dict : gmap Z document) (first : string) (rest : document) :
  gcode_dict sc = Some dict ->
  dict !! active = Some (first :: rest) ->
  PyStr.contains processed_marker first = false ->
  let st := run_scripts script_list
              {| held := first :: rest; fresh := None; logged := []; calls := [] |} in
  execute script_list active sc
  = match script_list, gcode_list st with
    | [], d =>
        {| scene_after := {| gcode_dict := Some (<[active := d]> dict) |};
           raised := None; log_after := logged st; script_calls := calls st |}
    | _ :: _, [] =>
        {| scene_after := {| gcode_dict := Some (<[active := held st]> dict) |};
           raised := Some IndexError; log_after := logged st; script_calls := calls st |}
    | _ :: _, s0 :: tail =>
        {| scene_after :=
             {| gcode_dict := Some (<[active := (s0 +:+ processed_line) :: tail]> dict) |};
           raised := None; log_after := logged st; script_calls := calls st |}
    end.
Proof.
  intros Hd Hl Hm. unfold execute. rewrite Hd.
  destruct (decide (dict = ∅)) as [->|_]; [now rewrite lookup_empty in Hl|].
  rewrite Hl, Hm. simpl. now destruct script_list.
Qed.

(** A scene that holds the document [d] for the build plate 0. *)
Definition scene_of (d : document) : Pipeline.scene :=
  {| Pipeline.gcode_dict := Some {[ 0 := d ]} |}.

(** The document of the build plate 0. *)
Definition document_of (sc : Pipeline.scene) : option document :=
  Pipeline.gcode_dict sc ≫= (fun dict => dict !! 0).

(** A script that adds a section to the list it is given and hands back a
    list of its own, which is empty. *)
Definition grow_and_return_nothing : Pipeline.Script :=
  fun d => Pipeline.Returned (d ++ ["X"]) (Pipeline.NewList []).

(** C1, as stated, fails: when the scripts leave an empty list, the first
    call raises [IndexError] before the marker is added, and a second call
    runs the scripts again on what the first left. *)
Lemma second_run_changes_an_unmarked_document :
  let r := Pipeline.execute_twice [grow_and_return_nothing] 0 (scene_of ["G28"]) in
  Pipeline.raised (fst r) = Some IndexError
  /\ document_of (Pipeline.scene_after (fst r)) = Some ["G28"; "X"]
  /\ document_of (Pipeline.scene_after (snd r)) = Some ["G28"; "X"; "X"]
  /\ Pipeline.scene_after (snd r) <> Pipeline.scene_after (fst r).
Proof.
  assert (H1 : document_of (Pipeline.scene_after
                 (fst (Pipeline.execute_twice [grow_and_return_nothing] 0 (scene_of ["G28"]))))
               = Some ["G28"; "X"]) by (vm_compute; reflexivity).
  assert (H2 : document_of (Pipeline.scene_after
                 (snd (Pipeline.execute_twice [grow_and_return_nothing] 0 (scene_of ["G28"]))))
               = Some ["G28"; "X"; "X"]) by (vm_compute; reflexivity).
  cbv zeta. split; [vm_compute; reflexivity|]. split; [exact H1|]. split; [exact H2|].
  intros E. rewrite E, H1 in H2. discriminate.
Qed.

(** C1, amended. Once the first section of the document holds
    [";POSTPROCESSED"], [execute] calls no script and leaves the scene as
    it is; hence, for every scene and every list of scripts on which a first
    call does not raise [IndexError], a second call in a row calls no script
    and leaves the scene of the first. *)
Theorem processed_marker_makes_execute_idempotent :
  (forall (script_list : list Pipeline.Script) (active : Z) (sc : Pipeline.scene)
          (dict : gmap Z document) (first : string) (rest : document),
      Pipeline.gcode_dict sc = Some dict ->
      dict !! active = Some (first :: rest) ->
      PyStr.contains Pipeline.processed_marker first = true ->
      Pipeline.script_calls (Pipeline.execute script_list active sc) = []
      /\ Pipeline.scene_after (Pipeline.execute script_list active sc) = sc
      /\ Pipeline.raised (Pipeline.execute script_list active sc) = None)
  /\ (forall (script_list : list Pipeline.Script) (active : Z) (sc : Pipeline.scene),
      Pipeline.raised (Pipeline.execute script_list active sc) <> Some IndexError ->
      let r := Pipeline.execute_twice script_list active sc in
      fst r = Pipeline.execute script_list active sc
      /\ Pipeline.scene_after (snd r) = Pipeline.scene_after (fst r)
      /\ Pipeline.script_calls (snd r) = []
      /\ Pipeline.raised (snd r) = Pipeline.raised (fst r)).
Proof.
  split.
  - intros script_list active sc dict first rest Hd Hl Hm.
    rewrite (execute_marked script_list active sc dict first rest Hd Hl Hm).
    repeat split; reflexivity.
  - intros script_list active sc Hr. unfold execute_twice. cbv zeta.
    cbn [fst snd]. split; [reflexivity|].
    destruct sc as [[dict|]]; [|repeat split; reflexivity].
    destruct (decide (dict = ∅)) as [He|Hne].
    { assert (E : forall sl, execute sl active {| gcode_dict := Some dict |}
                             = quiet {| gcode_dict := Some dict |}).
      { intros sl. unfold execute. simpl. now rewrite decide_True by assumption. }
      rewrite !E. cbn [scene_after quiet]. rewrite ?E. repeat split; reflexivity. }
    destruct (dict !! active) as [[|first rest]|] eqn:Hl.
    + assert (E : forall sl, execute sl active {| gcode_dict := Some dict |}
                             = quiet {| gcode_dict := Some dict |}).
      { intros sl. unfold execute. simpl. rewrite decide_False by assumption.
        now rewrite Hl. }
      rewrite !E. cbn [scene_after quiet]. rewrite ?E. repeat split; reflexivity.
    + destruct (PyStr.contains processed_marker first) eqn:Hm.
      * rewrite !(execute_marked script_list active {| gcode_dict := Some dict |} dict first rest eq_refl Hl Hm).
        cbn [scene_after].
        rewrite ?(execute_marked script_list active {| gcode_dict := Some dict |} dict first rest eq_refl Hl Hm).
        repeat split; reflexivity.
      * pose proof (execute_unmarked script_list active {| gcode_dict := Some dict |} dict first rest eq_refl Hl Hm) as E.
        cbv zeta in E. rewrite E in Hr |- *. clear E.
        set (st := run_scripts script_list _) in *.
        destruct script_list as [|script l].
        { simpl. change (gcode_list st) with (first :: rest).
          rewrite (insert_id dict active (first :: rest) Hl).
          pose proof (execute_unmarked [] active {| gcode_dict := Some dict |}
                        dict first rest eq_refl Hl Hm) as E.
          cbv zeta in E. rewrite E. simpl.
          rewrite (insert_id dict active (first :: rest) Hl). repeat split; reflexivity. }
        destruct (gcode_list st) as [|s0 tail]; [now destruct Hr|].
        simpl.
        rewrite !(execute_marked (script :: l) active
                    {| gcode_dict := Some (<[active := (s0 +:+ processed_line) :: tail]> dict) |}
                    (<[active := (s0 +:+ processed_line) :: tail]> dict)
                    (s0 +:+ processed_line) tail eq_refl
                    (lookup_insert_eq _ _ _) (processed_line_marked s0)).
        repeat split; reflexivity.
    + assert (E : forall sl, execute sl active {| gcode_dict := Some dict |}
                             = {| scene_after := {| gcode_dict := Some dict |};
                                  raised := Some KeyError; log_after := [];
                                  script_calls := [] |}).
      { intros sl. unfold execute. simpl. rewrite decide_False by assumption.
        now rewrite Hl. }
      rewrite !E. cbn [scene_after quiet]. rewrite ?E. repeat split; reflexivity.
Qed.

Lemma processed_marker_makes_execute_idempotent_witness :
  Pipeline.script_calls
    (Pipeline.execute [fun d => Pipeline.Raised ValueError d] 0
       (scene_of ["G28" +:+ Pipeline.processed_line; "G1 X1"])) = []
  /\ Pipeline.scene_after
       (snd (Pipeline.execute_twice [fun d => Pipeline.Raised ValueError d] 0
               (scene_of ["G28"; "G1 X1"])))
     = Pipeline.scene_after
         (fst (Pipeline.execute_twice [fun d => Pipeline.Raised ValueError d] 0
                 (scene_of ["G28"; "G1 X1"]))).
Proof.
  split.
  - apply (proj1 processed_marker_makes_execute_idempotent
             [fun d => Pipeline.Raised ValueError d] 0
             (scene_of ["G28" +:+ Pipeline.processed_line; "G1 X1"])
             {[ 0 := ["G28" +:+ Pipeline.processed_line; "G1 X1"] ]}
             ("G28" +:+ Pipeline.processed_line) ["G1 X1"]).
    + reflexivity.
    + vm_compute. reflexivity.
    + vm_compute. reflexivity.
  - apply (proj2 processed_marker_makes_execute_idempotent
             [fun d => Pipeline.Raised ValueError d] 0 (scene_of ["G28"; "G1 X1"])).
    vm_compute. discriminate.
Defined.

Lemma document_after_snoc (script_list : list Script) (script : Script) (d : document) :
  document_after (script_list ++ [script]) d
  = left_by (script (document_after script_list d)).
Proof. unfold document_after. now rewrite fold_left_app. Qed.

Lemma arguments_length (script_list : list Script) (d : document) :
  length (arguments script_list d) = length script_list.
Proof. unfold arguments. now rewrite length_map, length_seq. Qed.

Lemma arguments_lookup (script_list : list Script) (d : document) (i : nat) :
  (i < length script_list)%nat ->
  arguments script_list d !! i = Some (document_after (take i script_list) d).
Proof.
  intros Hi. unfold arguments. rewrite list_lookup_fmap.
  now rewrite (lookup_seq_lt 0 (length script_list) i Hi).
Qed.

(** C2. On a document without the marker, every script of the list is
    called, in list order, whatever the scripts before it did: the script
    at position [i] receives the document as the first [i] scripts left it,
    a script that raised leaving what the list held when it raised (possibly
    unchanged). Each failure is logged, and [execute] itself raises only
    when the document it is left with has no section to take the marker
    (an [IndexError] of its own): no exception of a script reaches the
    caller. *)
Theorem script_exceptions_do_not_stop_the_pipeline :
  forall (script_list : list Pipeline.Script) (active : Z) (sc : Pipeline.scene)
         (dict : gmap Z document) (first : string) (rest : document),
    Pipeline.gcode_dict sc = Some dict ->
    dict !! active = Some (first :: rest) ->
    PyStr.contains Pipeline.processed_marker first = false ->
    let r := Pipeline.execute script_list active sc in
    length (Pipeline.script_calls r) = length script_list
    /\ (forall i : nat, (i < length script_list)%nat ->
          Pipeline.script_calls r !! i
          = Some (Pipeline.document_after (take i script_list) (first :: rest)))
    /\ (forall (i : nat) (script : Pipeline.Script) (e : exn) (a : document),
          script_list !! i = Some script ->
          script (Pipeline.document_after (take i script_list) (first :: rest))
            = Pipeline.Raised e a ->
          Pipeline.document_after (take (S i) script_list) (first :: rest) = a)
    /\ Pipeline.log_after r
       = repeat (Pipeline.LogException "e" "Exception in post-processing script.")
           (failures script_list (first :: rest))
    /\ (Pipeline.raised r = None
        \/ Pipeline.raised r = Some IndexError
           /\ Pipeline.document_after script_list (first :: rest) = [])
    /\ (Pipeline.document_after script_list (first :: rest) <> [] ->
        Pipeline.raised r = None).
Proof.
  intros script_list active sc dict first rest Hd Hl Hm r.
  pose proof (execute_unmarked script_list active sc dict first rest Hd Hl Hm) as E.
  cbv zeta in E. fold r in E.
  set (st0 := {| held := first :: rest; fresh := None; logged := []; calls := [] |}) in E.
  destruct (run_scripts_spec script_list st0) as [Hg Hc].
  pose proof (run_scripts_logged script_list st0) as Hlog.
  change (gcode_list st0) with (first :: rest) in Hg, Hc, Hlog.
  simpl in Hc, Hlog.
  assert (Hcalls : script_calls r = arguments script_list (first :: rest)).
  { rewrite E. destruct script_list; [|destruct (gcode_list _)]; exact Hc. }
  assert (Hlogs : log_after r
                  = repeat (LogException "e" "Exception in post-processing script.")
                      (failures script_list (first :: rest))).
  { rewrite E. destruct script_list; [|destruct (gcode_list _)]; exact Hlog. }
  split; [rewrite Hcalls; apply arguments_length|].
  split; [intros i Hi; rewrite Hcalls; now apply arguments_lookup|].
  split.
  { intros i script e a Hs Hr.
    rewrite (take_S_r script_list i script Hs).
    rewrite document_after_snoc, Hr. reflexivity. }
  split; [exact Hlogs|].
  rewrite E, Hg.
  destruct script_list as [|script l].
  - simpl. split; [now left|reflexivity].
  - destruct (document_after (script :: l) (first :: rest)) as [|s0 tail].
    + simpl. split; [right; now split | intros H; now destruct H].
    + simpl. split; [now left | reflexivity].
Qed.

Lemma script_exceptions_do_not_stop_the_pipeline_witness :
  Pipeline.script_calls
    (Pipeline.execute
       [fun d => Pipeline.Raised (ScriptError "boom") (d ++ ["M300"]);
        fun d => Pipeline.Returned (d ++ ["M84"]) Pipeline.SameList]
       0 (scene_of ["G28"; "G1 X1"])) !! 1%nat
  = Some ["G28"; "G1 X1"; "M300"].
Proof.
  apply (proj1 (proj2 (script_exceptions_do_not_stop_the_pipeline
           [fun d => Pipeline.Raised (ScriptError "boom") (d ++ ["M300"]);
            fun d => Pipeline.Returned (d ++ ["M84"]) Pipeline.SameList]
           0 (scene_of ["G28"; "G1 X1"]) {[ 0 := ["G28"; "G1 X1"] ]} "G28" ["G1 X1"]
           eq_refl eq_refl eq_refl)) 1%nat).
  simpl. lia.
Defined.

(** A script that empties the list it is given and raises. *)
Definition clear_and_raise : Pipeline.Script :=
  fun _ => Pipeline.Raised (ScriptError "boom") [].

(** A script that raises and leaves the list alone. *)
Definition just_raise : Pipeline.Script :=
  fun d => Pipeline.Raised (ScriptError "boom") d.

(** C9, as stated, fails: when the scripts, all raising, leave a list
    without any section, there is no first section to take the marker;
    [execute] raises [IndexError] and the document holds no marker. *)
Lemma no_marker_when_the_scripts_leave_no_section :
  let r := Pipeline.execute [clear_and_raise; just_raise] 0 (scene_of ["G28"; "G1 X1"]) in
  Pipeline.raised r = Some IndexError
  /\ document_of (Pipeline.scene_after r) = Some []
  /\ Pipeline.log_after r
     = [Pipeline.LogException "e" "Exception in post-processing script.";
        Pipeline.LogException "e" "Exception in post-processing script."].
Proof. cbv zeta. repeat split; vm_compute; reflexivity. Qed.

(** C9, amended. After a run with a list of scripts that is not empty, on a
    document without the marker, if the scripts leave a document that has a
    first section, that section ends with the line [";POSTPROCESSED"],
    whichever of the scripts raised, and [execute] raises nothing; every
    later run, with any list of scripts, then calls no script and leaves the
    scene as it is. Scripts that all raise and leave the document alone
    leave the input, so that the marked document is the input with that
    line added. *)
Theorem marker_is_added_even_if_every_script_raises :
  forall (script_list : list Pipeline.Script) (active : Z) (sc : Pipeline.scene)
         (dict : gmap Z document) (first : string) (rest : document)
         (s0 : string) (tail : document),
    script_list <> [] ->
    Pipeline.gcode_dict sc = Some dict ->
    dict !! active = Some (first :: rest) ->
    PyStr.contains Pipeline.processed_marker first = false ->
    Pipeline.document_after script_list (first :: rest) = s0 :: tail ->
    let r := Pipeline.execute script_list active sc in
    Pipeline.raised r = None
    /\ Pipeline.scene_after r
       = {| Pipeline.gcode_dict :=
              Some (<[active := (s0 +:+ Pipeline.processed_line) :: tail]> dict) |}
    /\ (forall others : list Pipeline.Script,
          Pipeline.script_calls (Pipeline.execute others active (Pipeline.scene_after r)) = []
          /\ Pipeline.scene_after (Pipeline.execute others active (Pipeline.scene_after r))
             = Pipeline.scene_after r)
    /\ (Forall (fun script : Pipeline.Script =>
                  forall d : document, exists e : exn, script d = Pipeline.Raised e d)
          script_list ->
        s0 = first /\ tail = rest
        /\ failures script_list (first :: rest) = length script_list).
Proof.
  intros script_list active sc dict first rest s0 tail Hne Hd Hl Hm Hafter r.
  pose proof (execute_unmarked script_list active sc dict first rest Hd Hl Hm) as E.
  cbv zeta in E. fold r in E.
  set (st0 := {| held := first :: rest; fresh := None; logged := []; calls := [] |}) in E.
  destruct (run_scripts_spec script_list st0) as [Hg _].
  change (gcode_list st0) with (first :: rest) in Hg.
  split; [|split; [|split]].
  - rewrite Hg, Hafter in E.
    destruct script_list as [|script l]; [now destruct Hne|]. now rewrite E.
  - rewrite Hg, Hafter in E.
    destruct script_list as [|script l]; [now destruct Hne|]. now rewrite E.
  - rewrite Hg, Hafter in E.
    destruct script_list as [|script l]; [now destruct Hne|].
    rewrite E. simpl.
    intros others.
    rewrite (execute_marked others active _
               (<[active := (s0 +:+ processed_line) :: tail]> dict)
               (s0 +:+ processed_line) tail); simpl;
      [split; reflexivity | reflexivity | apply lookup_insert_eq
      | apply processed_line_marked].
  - intros Hall.
    assert (G : document_after script_list (first :: rest) = first :: rest
                /\ failures script_list (first :: rest) = length script_list).
    { clear - Hall. generalize (first :: rest) as d.
      induction script_list as [|script l IH]; intros d.
      + split; reflexivity.
      + inversion Hall as [|? ? Hs Hl]; subst.
        destruct (Hs d) as [e He]. destruct (IH Hl d) as [IH1 IH2].
        change (document_after (script :: l) d)
          with (document_after l (left_by (script d))).
        cbn [failures]. rewrite He. cbn [left_by].
        rewrite IH1, IH2. split; reflexivity. }
    destruct G as [G1 G2]. rewrite G1 in Hafter. inversion Hafter; subst.
    repeat split. exact G2.
Qed.

Lemma marker_is_added_even_if_every_script_raises_witness :
  Pipeline.scene_after
    (Pipeline.execute [fun d => Pipeline.Raised (ScriptError "boom") d] 0
       (scene_of ["G28"; "G1 X1"]))
  = {| Pipeline.gcode_dict :=
         Some (<[0 := ["G28" +:+ Pipeline.processed_line; "G1 X1"]]> {[ 0 := ["G28"; "G1 X1"] ]}) |}.
Proof.
  refine (proj1 (proj2 (marker_is_added_even_if_every_script_raises
           [fun d => Pipeline.Raised (ScriptError "boom") d] 0
           (scene_of ["G28"; "G1 X1"]) {[ 0 := ["G28"; "G1 X1"] ]} "G28" ["G1 X1"]
           "G28" ["G1 X1"] _ eq_refl eq_refl eq_refl eq_refl))).
  discriminate.
Defined.

End PipelineFacts.

(** ** The finish-time message *)

Section MessageFacts.

Import PyStr LCD.

(** The settings [s] with the start time entered as [entered]. *)
Definition with_start_time (s : settings) (entered : string) : settings :=
  {| display_option := display_option s; add_m118_line := add_m118_line s;
     file_name := file_name s; addPrefixPrinting := addPrefixPrinting s;
     scroll := scroll s; startNum := startNum s; maxlayer := maxlayer s;
     display_total_layers := display_total_layers s;
     display_remaining_time := display_remaining_time s;
     speed_factor := speed_factor s; countdown_to_pause := countdown_to_pause s;
     enable_end_message := enable_end_message s; print_start_time := entered |}.


(** A host for the examples: a job whose print time is one hour, on a
    Friday morning; its [timedelta] keeps whole seconds, its sum with a date
    stays within the day, and its [str] of a float is right for the whole
    numbers. *)
Definition example_host : Host := {|
  jobName := "benchy";
  currentPrintTime := "01:00:00";
  clock := {| year := 2024; month := 5; day := 17; hour := 10; minute := 30; second := 0 |};
  repr_float := fun x => match PyFloat.round x with Ok n => str n +:+ ".0" | Raise _ => "nan" end;
  timedelta := Z;
  timedelta_new := fun h m sec =>
    r ← PyFloat.round (PyFloat.mul m (PyFloat.of_Z 60)); Ok (h * 3600 + r + sec);
  datetime_add := fun t d =>
    let total := hour t * 3600 + minute t * 60 + second t + d in
    if total <? 86400 then
      Ok {| year := year t; month := month t; day := day t; hour := total / 3600;
            minute := total / 60 mod 60; second := total mod 60 |}
    else Raise OverflowError;
  timedelta_str := fun d => str (d / 3600) +:+ ":" +:+ pad2 (d / 60 mod 60) +:+ ":" +:+ pad2 (d mod 60)
|}.

Definition example_settings : settings :=
  {| display_option := "display_progress"; add_m118_line := false; file_name := "";
     addPrefixPrinting := true; scroll := false; startNum := 0; maxlayer := true;
     display_total_layers := true; display_remaining_time := true;
     speed_factor := PyFloat.of_Z 100; countdown_to_pause := false;
     enable_end_message := false; print_start_time := "" |}.





(** The message of the example host for the entry ["9:3"]: made from the
    clock and the lag, as for no entry. A character outside ASCII counts
    for one: ["12:3é"] has five characters, so it is not dropped. *)
Example message_for_malformed_entry :
  @message_to_user example_host (with_start_time example_settings "9:3") (PyFloat.of_Z 1)
  = Ok ("Friday May 17, 2024 at 11:45 AM", "Cura Time Estimate..........01:00:00",
        "Adjusted Time Estimate...1:15:00",
        "Print Start Time.................15 minutes from now.")
  /\ checked_start_time "12:3é" = "12:3é"
  /\ @message_to_user example_host (with_start_time example_settings "12:3é") (PyFloat.of_Z 1)
     = Raise ValueError.
Proof. repeat split; vm_compute; reflexivity. Qed.

(** C10. A finish time in the hour of noon is written ["12:<MM> AM"]: the
    suffix is [" PM"] only for an hour above 12, the hour 0 is written
    ["12:"] with [" AM"], and every hour from 1 to 12 is written as it is,
    on two digits, with [" AM"]. *)
Theorem noon_is_written_AM :
  forall new_time : LCD.datetime,
    (LCD.hour new_time = 12 -> 1 <= LCD.month new_time <= 12 ->
     exists week_day mo_str : string,
       LCD.finish_str new_time
       = Ok (week_day +:+ " " +:+ mo_str +:+ " " +:+ LCD.pad2 (LCD.day new_time) +:+ ", "
             +:+ PyStr.str (LCD.year new_time) +:+ " at " +:+ "12:"
             +:+ LCD.pad2 (LCD.minute new_time) +:+ " AM"))
    /\ (12 < LCD.hour new_time ->
        LCD.twelve_hour new_time = (PyStr.str (LCD.hour new_time - 12) +:+ ":", " PM"))
    /\ (LCD.hour new_time = 0 -> LCD.twelve_hour new_time = ("12:", " AM"))
    /\ (1 <= LCD.hour new_time <= 12 ->
        LCD.twelve_hour new_time = (LCD.pad2 (LCD.hour new_time) +:+ ":", " AM"))
    /\ (snd (LCD.twelve_hour new_time) = " PM" <-> 12 < LCD.hour new_time).
Proof.
  intros new_time. repeat split.
  - intros H12 Hmonth. unfold finish_str.
    assert (Hw : exists w, item week_days (weekday_w new_time) = Ok w).
    { unfold weekday_w.
      set (n := days_before_year _ + _ + _).
      pose proof (Z.mod_pos_bound n 7 ltac:(lia)) as Hb.
      unfold item. simpl length.
      destruct (n mod 7 <? 0) eqn:E; [apply Z.ltb_lt in E; lia|]. rewrite E.
      destruct (week_days !! Z.to_nat (n mod 7)) as [w|] eqn:El; [now exists w|].
      apply lookup_ge_None in El. simpl in El. lia. }
    assert (Hmo : exists m, item month_names (month new_time - 1) = Ok m).
    { unfold item. simpl length.
      destruct (month new_time - 1 <? 0) eqn:E; [apply Z.ltb_lt in E; lia|]. rewrite E.
      destruct (month_names !! Z.to_nat (month new_time - 1)) as [m|] eqn:El;
        [now exists m|].
      apply lookup_ge_None in El. simpl in El. lia. }
    destruct Hw as [w Hw], Hmo as [m Hmo]. exists w, m.
    rewrite Hw, Hmo. simpl. unfold twelve_hour. rewrite H12. reflexivity.
  - intros H. unfold twelve_hour. apply Z.ltb_lt in H. now rewrite H.
  - intros H. unfold twelve_hour. rewrite H. reflexivity.
  - intros [H1 H2]. unfold twelve_hour.
    destruct (12 <? hour new_time) eqn:E; [apply Z.ltb_lt in E; lia|].
    destruct (hour new_time =? 0) eqn:E0; [apply Z.eqb_eq in E0; lia|]. reflexivity.
  - unfold twelve_hour.
    destruct (12 <? hour new_time) eqn:E; [intros _; now apply Z.ltb_lt|].
    destruct (hour new_time =? 0); simpl; discriminate.
  - intros H. unfold twelve_hour. apply Z.ltb_lt in H. now rewrite H.
Qed.

Lemma noon_is_written_AM_witness :
  LCD.twelve_hour {| LCD.year := 2024; LCD.month := 5; LCD.day := 17;
                     LCD.hour := 12; LCD.minute := 7; LCD.second := 0 |}
  = ("12:", " AM")
  /\ LCD.finish_str {| LCD.year := 2024; LCD.month := 5; LCD.day := 17;
                       LCD.hour := 12; LCD.minute := 7; LCD.second := 0 |}
     = Ok "Friday May 17, 2024 at 12:07 AM".
Proof.
  split.
  - apply (proj1 (proj2 (proj2 (proj2 (noon_is_written_AM
             {| LCD.year := 2024; LCD.month := 5; LCD.day := 17;
                LCD.hour := 12; LCD.minute := 7; LCD.second := 0 |}))))).
    simpl. lia.
  - vm_compute. reflexivity.
Defined.

End MessageFacts.

(** ** Display progress: the loop over the layers *)

Section LayerLoopFacts.

Import PyStr LCD.

Lemma append_cons (c : ascii) (s t : string) : String c s +:+ t = String c (s +:+ t).
Proof. reflexivity. Qed.

Lemma append_empty_r (s : string) : s +:+ "" = s.
Proof. induction s as [|c s IH]; [reflexivity|]. now rewrite append_cons, IH. Qed.

(** [";LAYER:" in section] *)
Definition has_layer (section : string) : bool := contains ";LAYER:" section.

(** The display text up to the remaining time: the ordinal after the base
    text, and the number of layers when it is displayed. *)
Definition ordinal_text (s : settings) (t : totals) (ordinal : Z) : string :=
  let display_text := base_display_text s +:+ str ordinal in
  if display_total_layers s
  then display_text +:+ "/" +:+ str (number_of_layers t) else display_text.

(** The section with the display lines of [text] put in. *)
Definition annotated (s : settings) (text : string) (section : string) : string :=
  join nl (insert_display (add_m118_line s) text (split section nl_char)).

(** What a turn of the loop that ends well has done. *)
Lemma layer_step_ok (s : settings) (sf : PyFloat.float) (t : totals)
    (st st' : progress) (k : nat) :
  layer_step s sf t st k = Ok st' ->
  exists section : string,
    data st !! (first_layer_index t + k)%nat = Some section
    /\ if has_layer section then
         exists (rest : string) (elapsed : Z),
           (if display_remaining_time s
            then remaining_time_display (time_total t) (time_elapsed st) sf = Ok rest
            else rest = "")
           /\ st' = {| current_layer := current_layer st + 1; time_elapsed := elapsed;
                       data := <[(first_layer_index t + k)%nat :=
                                   annotated s (ordinal_text s t (current_layer st + 1) +:+ rest)
                                     section]> (data st) |}
       else st' = {| current_layer := current_layer st + 1 - 1;
                     time_elapsed := time_elapsed st; data := data st |}.
Proof.
  unfold layer_step, has_layer.
  destruct (data st !! (first_layer_index t + k)%nat) as [section|] eqn:Hl;
    [|discriminate].
  simpl. intros H. exists section. split; [reflexivity|].
  destruct (contains ";LAYER:" section); simpl in H.
  - fold (ordinal_text s t (current_layer st + 1)) in H.
    destruct (display_remaining_time s).
    + destruct (remaining_time_display (time_total t) (time_elapsed st) sf)
        as [rest|e] eqn:Hr; [|discriminate].
      simpl in H.
      destruct (negb (current_layer st + 1 =? number_of_layers t)).
      * destruct (last_time_elapsed (rev (split section nl_char))) as [found|e];
          [|discriminate].
        simpl in H. inversion H; subst. now exists rest, (default (time_elapsed st) found).
      * simpl in H. inversion H; subst. now exists rest, (time_elapsed st).
    + simpl in H. inversion H; subst. exists "", (time_elapsed st).
      split; [reflexivity|]. now rewrite append_empty_r.
  - inversion H; subst. reflexivity.
Qed.

Lemma layer_step_out_of_range (s : settings) (sf : PyFloat.float) (t : totals)
    (st : progress) (k : nat) :
  data st !! (first_layer_index t + k)%nat = None ->
  layer_step s sf t st k = Raise IndexError.
Proof. intros H. unfold layer_step. now rewrite H. Qed.

(** The minutes on [width] digits, zeros in front. *)
Definition zero_padded (width : nat) (digits : string) : string :=
  string_of_list_ascii (repeat "0"%char (width - String.length digits)) +:+ digits.

(** The remaining time as the specification writes it. *)
Definition remaining_time_text (h m : Z) : string :=
  if 0 <? h then str h +:+ "h" +:+ zero_padded 2 (str m) +:+ "m"
  else str m +:+ "m".

Lemma minutes_on_two_digits (m : Z) :
  0 <= m < 60 ->
  zero_padded 2 (str m) = if m <? 10 then "0" +:+ str m else str m.
Proof.
  intros H. rewrite <- (Z2Nat.id m) by lia.
  assert (Hn : (Z.to_nat m < 60)%nat) by lia.
  generalize dependent (Z.to_nat m). clear. intros n Hn.
  do 60 (destruct n as [|n]; [reflexivity|]). lia.
Qed.

Lemma append_assoc (a b c : string) : (a +:+ b) +:+ c = a +:+ b +:+ c.
Proof. induction a as [|x a IH]; [reflexivity|]. now rewrite !append_cons, IH. Qed.

(** C3. With the remaining time displayed, the text appended for a layer is
    [" | ET "] followed by ["<h>h<mm>m"] (minutes on two digits) when
    [h > 0] and by ["<m>m"] otherwise, for [m0 = (total - elapsed) // 60],
    [m1 = int(m0 * factor)] and [(h, m) = divmod(m1, 60)]; and the loop puts
    that text, after the ordinal, into the display line of every layer
    section it processes. *)
Theorem remaining_time_suffix :
  (forall (time_total time_elapsed : Z) (speed_factor : PyFloat.float),
      LCD.remaining_time_display time_total time_elapsed speed_factor
      = (m0 ← PyFloat.of_int ((time_total - time_elapsed) / 60);
         m1 ← PyFloat.trunc (PyFloat.mul m0 speed_factor);
         Ok (" | ET " +:+ remaining_time_text (m1 / 60) (m1 mod 60))))
  /\ (forall (s : LCD.settings) (speed_factor : PyFloat.float) (t : LCD.totals)
             (st st' : LCD.progress) (k : nat) (section : string),
        LCD.display_remaining_time s = true ->
        LCD.data st !! (LCD.first_layer_index t + k)%nat = Some section ->
        PyStr.contains ";LAYER:" section = true ->
        LCD.layer_step s speed_factor t st k = Ok st' ->
        exists suffix : string,
          LCD.remaining_time_display (LCD.time_total t) (LCD.time_elapsed st) speed_factor
          = Ok suffix
          /\ LCD.data st' !! (LCD.first_layer_index t + k)%nat
             = Some (annotated s (ordinal_text s t (LCD.current_layer st + 1) +:+ suffix)
                       section)).
Proof.
  split.
  - intros time_total time_elapsed speed_factor. unfold remaining_time_display.
    destruct (PyFloat.of_int ((time_total - time_elapsed) / 60)) as [m0|e];
      [|reflexivity].
    simpl. destruct (PyFloat.trunc (PyFloat.mul m0 speed_factor)) as [m1|e];
      [|reflexivity].
    simpl. unfold remaining_time_text.
    pose proof (Z.mod_pos_bound m1 60 ltac:(lia)) as Hm.
    rewrite (minutes_on_two_digits _ Hm).
    destruct (0 <? m1 / 60); [|reflexivity].
    destruct (m1 mod 60 <? 10); now rewrite !append_assoc.
  - intros s speed_factor t st st' k section Hdrt Hl Hc Hstep.
    destruct (layer_step_ok s speed_factor t st st' k Hstep) as [section' [Hl' H]].
    rewrite Hl in Hl'. inversion Hl'; subst section'. clear Hl'.
    unfold has_layer in H. rewrite Hc in H.
    destruct H as [rest [elapsed [Hrest ->]]]. rewrite Hdrt in Hrest.
    exists rest. split; [exact Hrest|]. simpl.
    apply list_lookup_insert_eq. now apply lookup_lt_Some in Hl.
Qed.

Lemma remaining_time_suffix_witness :
  exists suffix : string,
    LCD.remaining_time_display 7500 1200 (PyFloat.of_Z 1) = Ok suffix
    /\ LCD.data {| LCD.current_layer := 2; LCD.time_elapsed := 1200;
                   LCD.data := ["a"; "b";
                                ";LAYER:0" +:+ PyStr.nl +:+ "M117 2/3 | ET 1h45m"
                                +:+ PyStr.nl +:+ "G1 X1"] |} !! (2 + 0)%nat
       = Some (annotated example_settings
                 (ordinal_text example_settings
                    {| LCD.first_layer_index := 2; LCD.number_of_layers := 3;
                       LCD.time_total := 7500 |} (1 + 1) +:+ suffix)
                 (";LAYER:0" +:+ PyStr.nl +:+ "G1 X1")).
Proof.
  apply (proj2 remaining_time_suffix example_settings (PyFloat.of_Z 1)
           {| LCD.first_layer_index := 2; LCD.number_of_layers := 3;
              LCD.time_total := 7500 |}
           {| LCD.current_layer := 1; LCD.time_elapsed := 1200;
              LCD.data := ["a"; "b"; ";LAYER:0" +:+ PyStr.nl +:+ "G1 X1"] |}
           _ 0%nat (";LAYER:0" +:+ PyStr.nl +:+ "G1 X1")).
  - reflexivity.
  - reflexivity.
  - vm_compute. reflexivity.
  - vm_compute. reflexivity.
Defined.

(** The layer that starts 1200 of 7500 seconds in shows 1h45m, the one that
    starts 2400 of 3600 seconds in shows 20m. *)
Example remaining_time_examples :
  LCD.remaining_time_display 7500 1200 (PyFloat.of_Z 1) = Ok " | ET 1h45m"
  /\ LCD.remaining_time_display 7500 3600 (PyFloat.of_Z 1) = Ok " | ET 1h05m"
  /\ LCD.remaining_time_display 3600 2400 (PyFloat.of_Z 1) = Ok " | ET 20m".
Proof. repeat split; vm_compute; reflexivity. Qed.





(** The loop changes no section that is without [";LAYER:"], and no
    section at a position it does not visit, however it ends. *)
Lemma layer_loop_frame (s : settings) (sf : PyFloat.float) (t : totals)
    (counters : list nat) :
  forall (st st' : progress) (r : option exn),
    layer_loop s sf t counters st = (st', r) ->
    length (data st') = length (data st)
    /\ (forall (j : nat) (x : string),
          data st !! j = Some x -> has_layer x = false -> data st' !! j = Some x)
    /\ (forall j : nat,
          (forall k : nat, k ∈ counters -> j <> (first_layer_index t + k)%nat) ->
          data st' !! j = data st !! j).
Proof.
  induction counters as [|k counters IH]; intros st st' r H; simpl in H.
  - inversion H; subst. repeat split; auto.
  - destruct (layer_step s sf t st k) as [st1|e] eqn:Hstep.
    + destruct (IH st1 st' r H) as [IHlen [IHkeep IHout]].
      destruct (layer_step_ok s sf t st st1 k Hstep) as [section [Hl Hcase]].
      destruct (has_layer section) eqn:Hh.
      * destruct Hcase as [rest [elapsed [_ ->]]]. simpl in *.
        rewrite length_insert in IHlen. split; [exact IHlen|]. split.
        -- intros j x Hj Hx. apply IHkeep; [|exact Hx].
           rewrite list_lookup_insert_ne; [exact Hj|].
           intros <-. rewrite Hl in Hj. inversion Hj; subst. congruence.
        -- intros j Hj. rewrite IHout.
           ++ apply list_lookup_insert_ne. intros E. apply (Hj k); [left|now symmetry].
           ++ intros k' Hk'. apply Hj. now right.
      * subst st1. simpl in *. split; [exact IHlen|]. split; [exact IHkeep|].
        intros j Hj. apply IHout. intros k' Hk'. apply Hj. now right.
    + inversion H; subst. repeat split; auto.
Qed.



Lemma annotate_layers_eq (s : settings) (sf : PyFloat.float) (t : totals)
    (d : list string) :
  annotate_layers s sf t d
  = layer_loop s sf t (seq 0 (length d - 2))
      {| current_layer := 0; time_elapsed := 0; data := d |}.
Proof. unfold annotate_layers, PyList.range. now rewrite Nat.sub_0_r. Qed.

(** The second pass of the countdown changes the sections of its range only. *)
Lemma rewrite_layers_frame (time_list : list time_entry) (nums : list nat) :
  forall (time_to_go : option string) (d d' : list string) (r : option exn),
    rewrite_layers time_list nums time_to_go d = (d', r) ->
    length d' = length d
    /\ forall j : nat, j ∉ nums -> d' !! j = d !! j.
Proof.
  induction nums as [|num nums IH]; intros time_to_go d d' r H; simpl in H.
  - inversion H; subst. now split.
  - destruct (d !! num) as [layer|] eqn:Hl; [|inversion H; subst; now split].
    destruct (rewrite_lines time_list num (split layer nl_char) (layer, time_to_go))
      as [[layer' ttg]|e]; [|inversion H; subst; now split].
    destruct (IH ttg _ d' r H) as [IHlen IHout].
    rewrite length_insert in IHlen. split; [exact IHlen|].
    intros j Hj. rewrite IHout.
    + apply list_lookup_insert_ne. intros ->. apply Hj. left.
    + intros Hin. apply Hj. now right.
Qed.

Lemma countdown_frame (sf : PyFloat.float) (d : list string) :
  length (fst (countdown_to_pauses sf d)) = length d
  /\ forall j : nat, (j < 2 \/ length d - 1 <= j)%nat ->
       fst (countdown_to_pauses sf d) !! j = d !! j.
Proof.
  unfold countdown_to_pauses.
  destruct (layer_times sf d _ initial_pause_state) as [st|e]; [|now split].
  destruct (rewrite_layers (time_list st) (PyList.range 2 (length d - 1)) None d)
    as [d' r] eqn:H.
  destruct (rewrite_layers_frame _ _ _ _ _ _ H) as [Hlen Hout].
  simpl. split; [exact Hlen|].
  intros j Hj. apply Hout. unfold PyList.range. rewrite elem_of_seq. lia.
Qed.

(** The document [epilogue_with_marker] has an end section that holds a
    line [";LAYER:done"]. *)
Definition gcode (lines : list string) : string := join nl lines.





End LayerLoopFacts.

(** ** Filename and layer: the lines of a section *)

Section NamingFacts.

Import PyStr LCD.

(** A line that starts neither with [";LAYER:"] nor with [";LAYER_COUNT:"]. *)
Definition is_plain (line : string) : Prop :=
  startswith line ";LAYER:" = false /\ startswith line ";LAYER_COUNT:" = false.

Lemma prefix_inv (p s : string) :
  String.prefix p s = true -> exists rest : string, s = p +:+ rest.
Proof.
  revert s. induction p as [|c p IH]; intros s H.
  - now exists s.
  - destruct s as [|d s]; [discriminate|]. simpl in H.
    destruct (ascii_dec c d) as [->|]; [|discriminate].
    destruct (IH s H) as [rest ->]. now exists rest.
Qed.

Lemma marker_is_no_count (line : string) :
  startswith line ";LAYER:" = true -> startswith line ";LAYER_COUNT:" = false.
Proof.
  intros H. destruct (prefix_inv _ _ H) as [rest ->]. reflexivity.
Qed.

Lemma name_line_plain (s : settings) (fn line : string) (st : naming) :
  is_plain line -> name_line s fn line st = Ok st.
Proof.
  intros [H1 H2]. unfold name_line. rewrite H2. simpl. rewrite H1. now destruct st.
Qed.

(** The loop passes over plain lines without a change. *)
Lemma name_lines_skip (s : settings) (fn : string) (st : naming) (k : nat) :
  forall (fuel pos : nat),
    (forall j : nat, (j < k)%nat ->
       exists line : string, lines st !! (pos + j)%nat = Some line /\ is_plain line) ->
    name_lines (k + fuel) s fn pos st = name_lines fuel s fn (pos + k) st.
Proof.
  induction k as [|k IH]; intros fuel pos H.
  - now rewrite Nat.add_0_r.
  - destruct (H 0%nat ltac:(lia)) as [line [Hl Hp]]. rewrite Nat.add_0_r in Hl.
    simpl. rewrite Hl, (name_line_plain s fn line st Hp).
    rewrite IH; [f_equal; lia|].
    intros j Hj. destruct (H (S j) ltac:(lia)) as [line' [Hl' Hp']].
    exists line'. split; [|exact Hp']. now replace (S pos + j)%nat with (pos + S j)%nat by lia.
Qed.

Lemma name_lines_plain (s : settings) (fn : string) (st : naming) (pos fuel : nat) :
  (forall j line, (pos <= j)%nat -> lines st !! j = Some line -> is_plain line) ->
  (length (lines st) < pos + fuel)%nat ->
  (0 < fuel)%nat ->
  name_lines fuel s fn pos st = Some (Ok st).
Proof.
  intros Hplain Hfuel Hpositive.
  destruct (decide (pos <= length (lines st))%nat) as [Hpos|Hpos].
  - replace fuel with ((length (lines st) - pos) + (fuel - (length (lines st) - pos)))%nat
      by lia.
    rewrite name_lines_skip.
    + destruct (fuel - (length (lines st) - pos))%nat as [|fuel'] eqn:E; [lia|].
      simpl. rewrite lookup_ge_None_2; [reflexivity | lia].
    + intros j Hj.
      destruct (lookup_lt_is_Some_2 (lines st) (pos + j)%nat ltac:(lia)) as [line Hl].
      exists line. split; [exact Hl|]. apply (Hplain (pos + j)%nat); [lia | exact Hl].
  - destruct fuel as [|fuel']; [lia|]. simpl.
    rewrite lookup_ge_None_2; [reflexivity | lia].
Qed.

Lemma index_fresh (pre post : list string) (y : string) :
  (forall x : string, x ∈ pre -> x <> y) ->
  PyList.index (pre ++ y :: post) y = Some (length pre).
Proof.
  induction pre as [|x pre IH]; intros H; simpl.
  - now rewrite String.eqb_refl.
  - destruct (String.eqb x y) eqn:E.
    + apply String.eqb_eq in E. exfalso. apply (H x); [left | exact E].
    + rewrite IH; [reflexivity|]. intros z Hz. apply H. now right.
Qed.

Lemma insert_at_after (pre post : list string) (y text : string) :
  PyList.insert_at (length pre + 1) text (pre ++ y :: post) = pre ++ y :: text :: post.
Proof.
  unfold PyList.insert_at.
  replace (length pre + 1)%nat with (length (pre ++ [y])) by (rewrite length_app; simpl; lia).
  replace (pre ++ y :: post) with ((pre ++ [y]) ++ post) by (now rewrite <- app_assoc).
  rewrite take_app_length, drop_app_length. now rewrite <- app_assoc.
Qed.

Lemma insert_at_after2 (pre post : list string) (y text other : string) :
  PyList.insert_at (length pre + 2) other (pre ++ y :: text :: post)
  = pre ++ y :: text :: other :: post.
Proof.
  unfold PyList.insert_at.
  replace (length pre + 2)%nat with (length (pre ++ [y; text]))
    by (rewrite length_app; simpl; lia).
  replace (pre ++ y :: text :: post) with ((pre ++ [y; text]) ++ post)
    by (now rewrite <- app_assoc).
  rewrite take_app_length, drop_app_length. now rewrite <- app_assoc.
Qed.

(** The text of the display line of a layer: the ordinal [i] after the
    text in front, then the total or the name, as the settings ask. *)
Definition layer_text (s : settings) (fn : string) (i : Z) (total : string) : string :=
  let display_text := lcd_text s fn +:+ str i in
  if maxlayer s then
    let display_text := display_text +:+ " of " +:+ total in
    if negb (scroll s) then display_text +:+ " " +:+ fn else display_text
  else
    if negb (scroll s) then display_text +:+ " " +:+ fn +:+ "!"
    else display_text +:+ "!".

Lemma layer_text_head (s : settings) (fn : string) (i : Z) (total : string) :
  exists tail : string, layer_text s fn i total = "M117 " +:+ tail.
Proof.
  unfold layer_text, lcd_text.
  destruct (maxlayer s), (scroll s), (addPrefixPrinting s); simpl;
    rewrite ?append_assoc; eexists; reflexivity.
Qed.

Lemma display_line_plain (tail : string) : is_plain ("M117 " +:+ tail).
Proof. split; reflexivity. Qed.

Lemma mirrored_line_plain (tail : string) :
  is_plain (replace_first ("M117 " +:+ tail) "M117" "M118").
Proof. split; reflexivity. Qed.

(** The display lines put after the marker line. *)
Definition display_lines (s : settings) (text : string) : list string :=
  if add_m118_line s then [text; replace_first text "M117" "M118"] else [text].

Lemma display_lines_plain (s : settings) (fn : string) (i : Z) (total line : string) :
  line ∈ display_lines s (layer_text s fn i total) -> is_plain line.
Proof.
  destruct (layer_text_head s fn i total) as [tail E]. rewrite E.
  unfold display_lines. destruct (add_m118_line s); intros H.
  - apply elem_of_cons in H. destruct H as [->|H]; [apply display_line_plain|].
    apply list_elem_of_singleton in H. subst. apply mirrored_line_plain.
  - apply list_elem_of_singleton in H. subst. apply display_line_plain.
Qed.

(** The marker line as the loop meets it: the display lines go in after it
    and the counter goes up by one. *)
Lemma name_line_marker (s : settings) (fn marker total : string)
    (pre post : list string) (mx : option string) (i : Z) :
  Forall is_plain pre ->
  startswith marker ";LAYER:" = true ->
  (maxlayer s = true -> mx = Some total) ->
  name_line s fn marker
    {| lines := pre ++ marker :: post; display_text := lcd_text s fn +:+ str i;
       max_layer := mx; i := i |}
  = Ok {| lines := pre ++ marker :: display_lines s (layer_text s fn i total) ++ post;
          display_text := layer_text s fn i total; max_layer := mx; i := i + 1 |}.
Proof.
  intros Hpre Hm Hmx. unfold name_line.
  rewrite (marker_is_no_count marker Hm). simpl. rewrite Hm.
  assert (Hi : PyList.index (pre ++ marker :: post) marker = Some (length pre)).
  { apply index_fresh. intros x Hx ->.
    rewrite Forall_forall in Hpre. destruct (Hpre marker Hx) as [H1 _]. congruence. }
  unfold layer_text, display_lines.
  destruct (maxlayer s) eqn:Emax.
  - rewrite (Hmx eq_refl). simpl. rewrite Hi. simpl.
    rewrite insert_at_after.
    destruct (add_m118_line s); [rewrite insert_at_after2|]; reflexivity.
  - simpl. rewrite Hi. simpl. rewrite insert_at_after.
    destruct (add_m118_line s); [rewrite insert_at_after2|]; reflexivity.
Qed.

Lemma name_lines_single_marker (s : settings) (fn marker total : string)
    (pre post : list string) (mx : option string) (i : Z) (fuel : nat) :
  Forall is_plain pre -> Forall is_plain post ->
  startswith marker ";LAYER:" = true ->
  (maxlayer s = true -> mx = Some total) ->
  (length pre + length post + 3 < fuel)%nat ->
  name_lines fuel s fn 0
    {| lines := pre ++ marker :: post; display_text := lcd_text s fn +:+ str i;
       max_layer := mx; i := i |}
  = Some (Ok {| lines := pre ++ marker :: display_lines s (layer_text s fn i total) ++ post;
                display_text := layer_text s fn i total; max_layer := mx; i := i + 1 |}).
Proof.
  intros Hpre Hpost Hm Hmx Hfuel.
  replace fuel with (length pre + S (fuel - length pre - 1))%nat by lia.
  rewrite name_lines_skip.
  - simpl. rewrite list_lookup_middle by reflexivity.
    rewrite (name_line_marker s fn marker total pre post mx i Hpre Hm Hmx).
    apply name_lines_plain.
    + simpl. intros j line Hj Hl.
      rewrite lookup_app_r in Hl by lia.
      destruct (j - length pre)%nat as [|j'] eqn:Ej; [lia|]. simpl in Hl.
      apply lookup_app_Some in Hl. destruct Hl as [Hl|[_ Hl]].
      * apply (display_lines_plain s fn i total). eapply list_elem_of_lookup_2, Hl.
      * rewrite Forall_forall in Hpost. apply Hpost. eapply list_elem_of_lookup_2, Hl.
    + simpl. rewrite length_app. simpl. rewrite length_app.
      assert (length (display_lines s (layer_text s fn i total)) <= 2)%nat.
      { unfold display_lines. destruct (add_m118_line s); simpl; lia. }
      lia.
    + lia.
  - simpl. intros j Hj. rewrite lookup_app_l by lia.
    destruct (lookup_lt_is_Some_2 pre j Hj) as [line Hl]. exists line.
    split; [exact Hl|]. rewrite Forall_forall in Hpre. apply Hpre.
    eapply list_elem_of_lookup_2, Hl.
Qed.

End NamingFacts.

(** ** Documents and settings for the display of the file name *)

Section OrdinalFacts.

Import PyStr LCD.


Definition filename_settings : settings :=
  {| display_option := "filename_layer"; add_m118_line := false; file_name := "";
     addPrefixPrinting := false; scroll := true; startNum := 0; maxlayer := false;
     display_total_layers := true; display_remaining_time := true;
     speed_factor := PyFloat.of_Z 100; countdown_to_pause := false;
     enable_end_message := false; print_start_time := "" |}.

End OrdinalFacts.

(** ** The countdown to the pauses *)

Section CountdownFacts.

Import PyStr LCD.















End CountdownFacts.

(** ** The rounding of binary64, on integers *)

Section RoundingFacts.

Lemma digits2_pos_bound (p : positive) :
  2 ^ (Zpos (digits2_pos p) - 1) <= Zpos p < 2 ^ Zpos (digits2_pos p).
Proof.
  induction p as [p IH|p IH|]; simpl digits2_pos.
  - rewrite Pos2Z.inj_succ.
    replace (Z.succ (Zpos (digits2_pos p)) - 1) with (Z.succ (Zpos (digits2_pos p) - 1)) by lia.
    rewrite !Z.pow_succ_r by lia. lia.
  - rewrite Pos2Z.inj_succ.
    replace (Z.succ (Zpos (digits2_pos p)) - 1) with (Z.succ (Zpos (digits2_pos p) - 1)) by lia.
    rewrite !Z.pow_succ_r by lia. lia.
  - simpl. lia.
Qed.

Lemma Zdigits2_bound (m : Z) :
  0 < m -> 2 ^ (Zdigits2 m - 1) <= m < 2 ^ Zdigits2 m.
Proof. destruct m as [|p|p]; try lia. intros _. apply digits2_pos_bound. Qed.

Lemma Zdigits2_nonneg (m : Z) : 0 <= Zdigits2 m.
Proof. destruct m; simpl; lia. Qed.

Lemma iter_pos_nat {A : Type} (f : A -> A) (p : positive) :
  forall x : A, SpecFloat.iter_pos f p x = Nat.iter (Pos.to_nat p) f x.
Proof.
  induction p as [p IH|p IH|]; intros x; cbn [SpecFloat.iter_pos].
  - rewrite !IH, Pos2Nat.inj_xI.
    replace (S (2 * Pos.to_nat p)) with (Pos.to_nat p + (Pos.to_nat p + 1))%nat by lia.
    rewrite !Nat.iter_add. reflexivity.
  - rewrite !IH, Pos2Nat.inj_xO.
    replace (2 * Pos.to_nat p)%nat with (Pos.to_nat p + Pos.to_nat p)%nat by lia.
    rewrite Nat.iter_add. reflexivity.
  - reflexivity.
Qed.

Lemma shr_1_m (mrs : shr_record) :
  0 <= shr_m mrs -> shr_m (shr_1 mrs) = shr_m mrs / 2.
Proof.
  destruct mrs as [m r s]. cbn [shr_m]. intros H.
  destruct m as [|[p|p|]|p]; cbn [shr_1 shr_m]; try lia.
  - reflexivity.
  - apply Z.div_unique with 1; lia.
  - apply Z.div_unique with 0; lia.
  - reflexivity.
Qed.

Lemma shr_iter_m (n : nat) (mrs : shr_record) :
  0 <= shr_m mrs ->
  shr_m (Nat.iter n shr_1 mrs) = shr_m mrs / 2 ^ Z.of_nat n.
Proof.
  intros H. induction n as [|n IH].
  - simpl. now rewrite Z.div_1_r.
  - rewrite Nat2Z.inj_succ, Z.pow_succ_r by lia. simpl.
    assert (0 <= shr_m (Nat.iter n shr_1 mrs)).
    { rewrite IH. apply Z.div_pos; [exact H | apply Z.pow_pos_nonneg; lia]. }
    rewrite shr_1_m, IH by assumption.
    rewrite Z.div_div by (try apply Z.pow_pos_nonneg; lia).
    f_equal. lia.
Qed.

(** The mantissa and the exponent after [shr]. *)
Lemma shr_m_e (mrs : shr_record) (e n : Z) :
  0 <= shr_m mrs ->
  shr_m (fst (shr mrs e n)) = shr_m mrs / 2 ^ Z.max 0 n
  /\ snd (shr mrs e n) = e + Z.max 0 n.
Proof.
  intros H. unfold shr. destruct n as [|p|p]; simpl.
  - rewrite Z.div_1_r. split; lia.
  - rewrite iter_pos_nat, shr_iter_m by exact H.
    rewrite positive_nat_Z. split; reflexivity.
  - rewrite Z.div_1_r. split; lia.
Qed.

Lemma shr_exact (m e n : Z) :
  n <= 0 -> loc_of_shr_record (fst (shr (shr_record_of_loc m loc_Exact) e n)) = loc_Exact.
Proof. intros H. unfold shr. destruct n as [|p|p]; try lia; reflexivity. Qed.

Lemma round_nearest_even_bound (m : Z) (l : location) :
  m <= round_nearest_even m l <= m + 1.
Proof.
  unfold round_nearest_even. destruct l as [|[| |]]; try lia.
  destruct (Z.even m); lia.
Qed.

Lemma shr_record_of_loc_m (m : Z) (l : location) : shr_m (shr_record_of_loc m l) = m.
Proof. destruct l as [|[| |]]; reflexivity. Qed.

Lemma fexp_eq (e : Z) : fexp 53 1024 e = Z.max (e - 53) (-1074).
Proof. reflexivity. Qed.

(** The shape of a rounding: the mantissa [mx] loses [n1] bits, goes up by
    one or stays, then loses [n2] bits more. *)
Lemma binary_round_aux_shape (sx : bool) (mx ex : Z) (lx : location) :
  0 <= mx ->
  exists n1 n2 m2 : Z,
    0 <= n1 /\ 0 <= n2
    /\ (n1 = 0 \/ ex + n1 = fexp 53 1024 (Zdigits2 mx + ex))
    /\ (n2 = 0 \/ ex + n1 + n2 = fexp 53 1024 (Zdigits2 m2 + (ex + n1)))
    /\ mx / 2 ^ n1 <= m2 <= mx / 2 ^ n1 + 1
    /\ (lx = loc_Exact -> n1 = 0 -> m2 = mx)
    /\ binary_round_aux 53 1024 sx mx ex lx
       = match m2 / 2 ^ n2 with
         | Z0 => S754_zero sx
         | Zpos m =>
             if ex + n1 + n2 <=? 971 then S754_finite sx m (ex + n1 + n2)
             else S754_infinity sx
         | Zneg _ => S754_nan
         end.
Proof.
  intros Hmx. unfold binary_round_aux, shr_fexp.
  set (k1 := fexp 53 1024 (Zdigits2 mx + ex) - ex).
  destruct (shr_m_e (shr_record_of_loc mx lx) ex k1) as [Hm1 He1].
  { now rewrite shr_record_of_loc_m. }
  rewrite shr_record_of_loc_m in Hm1.
  destruct (shr (shr_record_of_loc mx lx) ex k1) as [mrs1 e1] eqn:E1.
  simpl in Hm1, He1.
  set (m2 := round_nearest_even (shr_m mrs1) (loc_of_shr_record mrs1)).
  pose proof (round_nearest_even_bound (shr_m mrs1) (loc_of_shr_record mrs1)) as Hm2.
  fold m2 in Hm2. rewrite Hm1 in Hm2.
  assert (H2pos : 0 <= m2).
  { assert (0 <= mx / 2 ^ Z.max 0 k1) by (apply Z.div_pos; [lia | apply Z.pow_pos_nonneg; lia]).
    lia. }
  set (k2 := fexp 53 1024 (Zdigits2 m2 + e1) - e1).
  destruct (shr_m_e (shr_record_of_loc m2 loc_Exact) e1 k2) as [Hm3 He2].
  { now rewrite shr_record_of_loc_m. }
  rewrite shr_record_of_loc_m in Hm3.
  destruct (shr (shr_record_of_loc m2 loc_Exact) e1 k2) as [mrs2 e2] eqn:E2.
  simpl in Hm3, He2.
  exists (Z.max 0 k1), (Z.max 0 k2), m2.
  split; [lia|]. split; [lia|]. split; [unfold k1; lia|].
  subst e1. split; [unfold k2; lia|]. split; [exact Hm2|]. split.
  - intros -> Hk. unfold m2.
    assert (Hk1 : k1 <= 0) by lia.
    pose proof (shr_exact mx ex k1 Hk1) as Hl. rewrite E1 in Hl. simpl in Hl.
    rewrite Hl. simpl. rewrite Hm1, Hk. now rewrite Z.div_1_r.
  - rewrite Hm3, He2. reflexivity.
Qed.

End RoundingFacts.

(** ** The accuracy of the float operations of the time estimate *)

Section EstimateFacts.

Local Open Scope Q_scope.

Definition pow2 (e : Z) : Q := (2 # 1) ^ e.

Lemma pow2_pos (e : Z) : 0 < pow2 e.
Proof. apply Qpower_0_lt. reflexivity. Qed.

Lemma pow2_add (a b : Z) : pow2 (a + b) == pow2 a * pow2 b.
Proof. apply Qpower_plus. discriminate. Qed.

Lemma pow2_le (a b : Z) : (a <= b)%Z -> pow2 a <= pow2 b.
Proof. intros H. apply Qpower_le_compat_l; [exact H | discriminate]. Qed.

Lemma pow2_lt_inv (a b : Z) : pow2 a < pow2 b -> (a < b)%Z.
Proof. intros H. apply (Qpower_lt_compat_l_inv (2 # 1)); [exact H | reflexivity]. Qed.

Lemma pow2_inject (n : Z) : (0 <= n)%Z -> inject_Z (2 ^ n) == pow2 n.
Proof. intros H. unfold pow2. now rewrite Zpower_Qpower. Qed.

Lemma inject_le (a b : Z) : (a <= b)%Z -> inject_Z a <= inject_Z b.
Proof. now rewrite Zle_Qle. Qed.

Lemma scale_le (a b : Z) (q : Q) :
  (a <= b)%Z -> 0 <= q -> inject_Z a * q <= inject_Z b * q.
Proof. intros H Hq. apply Qmult_le_compat_r; [now apply inject_le | exact Hq]. Qed.

(** The value of a finite float, as a rational; 0 for the others. *)
Definition Qval (x : spec_float) : Q :=
  match x with
  | S754_finite s m e => (if s then - (1) else 1) * (inject_Z (Zpos m) * pow2 e)
  | _ => 0
  end.

(** Zero, or finite and positive. *)
Definition nonneg_finite (x : spec_float) : Prop :=
  x = S754_zero false \/ exists (m : positive) (e : Z), x = S754_finite false m e.

(** The digits of [m] in [Q]: [2^(d - 1) <= m]. *)
Lemma digits_pow2 (m : Z) :
  (0 < m)%Z -> pow2 (Zdigits2 m - 1) <= inject_Z m.
Proof.
  intros H. destruct (Zdigits2_bound m H) as [Hl _].
  assert (0 <= Zdigits2 m - 1)%Z.
  { destruct m; simpl in *; lia. }
  rewrite <- pow2_inject by assumption. now apply inject_le.
Qed.

Ltac qlin :=
  let tiny := fresh "tiny" in
  pose proof (pow2_pos (-1074));
  set (tiny := pow2 (-1074)) in *;
  let big := fresh "big" in
  set (big := pow2 1022) in *;
  unfold pow2 in *; lra.

(** The accuracy of a rounding to binary64: the result is a finite float
    within [2^-51] of the exact Qval [X], relatively, or within [2^-1074]. *)
Lemma round_accuracy (mx ex : Z) (lx : location) (X : Q) :
  (0 <= mx)%Z ->
  inject_Z mx * pow2 ex <= X -> X <= (inject_Z mx + 1) * pow2 ex ->
  (lx = loc_Exact -> X == inject_Z mx * pow2 ex) ->
  (lx <> loc_Exact -> pow2 ex <= pow2 (-52) * X + pow2 (-1074)) ->
  (ex <= 971)%Z -> X < pow2 1022 ->
  nonneg_finite (binary_round_aux 53 1024 false mx ex lx)
  /\ Qabs (Qval (binary_round_aux 53 1024 false mx ex lx) - X)
     <= pow2 (-51) * X + pow2 (-1074).
Proof.
  intros Hmx HlX HuX Hexact Hinexact Hex HX.
  destruct (binary_round_aux_shape false mx ex lx Hmx)
    as (n1 & n2 & m2 & Hn1 & Hn2 & He1 & He2 & Hm2 & Hexm & HR).
  rewrite HR. clear HR.
  rewrite !fexp_eq in *.
  set (a := (2 ^ n1)%Z) in *. set (b := (2 ^ n2)%Z) in *.
  assert (Ha : (0 < a)%Z) by (apply Z.pow_pos_nonneg; lia).
  assert (Hb : (0 < b)%Z) by (apply Z.pow_pos_nonneg; lia).
  assert (Ha1 : (n1 = 0 -> a = 1)%Z) by (intros ->; reflexivity).
  assert (Hb1 : (n2 = 0 -> b = 1)%Z) by (intros ->; reflexivity).
  pose proof (Z.mul_div_le mx a Ha) as H1l.
  pose proof (Z.mul_succ_div_gt mx a Ha) as H1u.
  pose proof (Z.mul_div_le m2 b Hb) as H3l.
  pose proof (Z.mul_succ_div_gt m2 b Hb) as H3u.
  assert (Hm1 : (0 <= mx / a)%Z) by (apply Z.div_pos; lia).
  assert (Hm2pos : (0 <= m2)%Z) by lia.
  assert (Hm3 : (0 <= m2 / b)%Z) by (apply Z.div_pos; lia).
  set (m1 := (mx / a)%Z) in *. set (m3 := (m2 / b)%Z) in *.
  (* integer bounds on the final mantissa, in units of 2^ex *)
  assert (HWu : (m3 * b * a <= mx + a)%Z) by nia.
  assert (HWl : (mx + 1 - a * b <= m3 * b * a)%Z) by nia.
  assert (Hm2a : (m2 * a <= mx + a)%Z) by nia.
  (* the same in Q *)
  set (px := pow2 ex) in *. set (E1 := pow2 (ex + n1)) in *. set (E := pow2 (ex + n1 + n2)) in *.
  assert (Hpx : 0 < px) by apply pow2_pos.
  assert (HE1 : E1 == inject_Z a * px).
  { unfold E1, a, px. rewrite pow2_add, pow2_inject by lia. ring. }
  assert (HE : E == inject_Z (a * b) * px).
  { unfold E, a, b, px. rewrite !pow2_add, inject_Z_mult, !pow2_inject by lia. ring. }
  assert (HE1E : E1 <= E) by (apply pow2_le; lia).
  assert (HE1pos : 0 < E1) by apply pow2_pos.
  assert (HEpos : 0 < E) by apply pow2_pos.
  set (V := inject_Z m3 * E).
  assert (HV : V == inject_Z (m3 * b * a) * px).
  { unfold V. rewrite HE, !inject_Z_mult. ring. }
  assert (HVu : V <= X + E1).
  { rewrite HV, HE1.
    apply Qle_trans with (inject_Z (mx + a) * px); [apply scale_le; [exact HWu | lra]|].
    rewrite inject_Z_plus. lra. }
  assert (HVl : X - E <= V).
  { rewrite HV, HE.
    apply Qle_trans with (inject_Z (mx + 1 - a * b) * px);
      [|apply scale_le; [exact HWl | lra]].
    unfold Z.sub. rewrite !inject_Z_plus, inject_Z_opp. change (inject_Z 1) with 1. lra. }
  assert (Hm2E1 : inject_Z m2 * E1 <= X + E1).
  { rewrite HE1.
    apply Qle_trans with (inject_Z (mx + a) * px).
    - rewrite Qmult_assoc, <- inject_Z_mult. apply scale_le; [exact Hm2a | lra].
    - rewrite inject_Z_plus. lra. }
  assert (HX0 : 0 <= X).
  { apply Qle_trans with (inject_Z mx * px); [|exact HlX].
    apply Qmult_le_0_compat; [now apply (inject_le 0 mx) | lra]. }
  (* the size of the last unit *)
  assert (Hcases : (n1 = 0%Z /\ n2 = 0%Z /\ lx = loc_Exact)
                   \/ (E <= pow2 (-51) * X + pow2 (-1074)
                       /\ ((0 < m3)%Z -> (ex + n1 + n2 <= 971)%Z))).
  { destruct (Z.eq_dec n2 0%Z) as [Hz2|Hz2].
    - destruct (Z.eq_dec n1 0%Z) as [Hz1|Hz1].
      + destruct lx as [|c] eqn:Hlx; [left; now repeat split|].
        right. unfold E. rewrite Hz1, Hz2, !Z.add_0_r. fold px. split; [|lia].
        assert (Hi := Hinexact ltac:(discriminate)). fold px in Hi.
        qlin.
      + right. destruct He1 as [He1|He1]; [contradiction|].
        assert (HEE1 : E == E1) by (unfold E, E1; rewrite Hz2, Z.add_0_r; reflexivity).
        destruct (Z.max_spec (Zdigits2 mx + ex - 53)%Z (-1074)%Z) as [[_ Hmax]|[_ Hmax]];
          rewrite Hmax in He1.
        * split; [|lia]. rewrite HEE1. unfold E1. rewrite He1. qlin.
        * assert (Hpos : (0 < mx)%Z).
          { destruct mx; [simpl in He1; lia | lia | lia]. }
          pose proof (digits_pow2 mx Hpos) as Hd.
          assert (Hd' : pow2 (Zdigits2 mx - 1) * px <= X).
          { apply Qle_trans with (inject_Z mx * px); [|exact HlX].
            apply Qmult_le_compat_r; [exact Hd | lra]. }
          assert (HE1eq : E1 == pow2 (-52) * (pow2 (Zdigits2 mx - 1) * px)).
          { unfold E1, px. rewrite He1.
            replace (Zdigits2 mx + ex - 53)%Z with (-52 + ((Zdigits2 mx - 1) + ex))%Z by lia.
            now rewrite !pow2_add. }
          split.
          -- rewrite HEE1, HE1eq.
             set (t := pow2 (Zdigits2 mx - 1) * px) in *. qlin.
          -- intros _. rewrite Hz2, Z.add_0_r.
             assert (Hlt : pow2 (Zdigits2 mx - 1 + ex) < pow2 1022).
             { rewrite pow2_add. fold px. lra. }
             apply pow2_lt_inv in Hlt. lia.
    - right. destruct He2 as [He2|He2]; [contradiction|].
      destruct (Z.max_spec (Zdigits2 m2 + (ex + n1) - 53)%Z (-1074)%Z) as [[_ Hmax]|[_ Hmax]];
        rewrite Hmax in He2.
      + split; [|lia]. unfold E. rewrite He2. qlin.
      + assert (Hpos : (0 < m2)%Z).
        { destruct m2; [simpl in He2; lia | lia | lia]. }
        pose proof (digits_pow2 m2 Hpos) as Hd.
        assert (Hd' : pow2 (Zdigits2 m2 - 1) * E1 <= X + E1).
        { apply Qle_trans with (inject_Z m2 * E1); [|exact Hm2E1].
          apply Qmult_le_compat_r; [exact Hd | lra]. }
        assert (HEeq : E == pow2 (-52) * (pow2 (Zdigits2 m2 - 1) * E1)).
        { unfold E, E1. rewrite He2.
          replace (Zdigits2 m2 + (ex + n1) - 53)%Z
            with (-52 + ((Zdigits2 m2 - 1) + (ex + n1)))%Z by lia.
          now rewrite !pow2_add. }
        set (t := pow2 (Zdigits2 m2 - 1) * E1) in *.
        split; [qlin|].
        intros _. rewrite He2.
        assert (Hlt : pow2 (Zdigits2 m2 - 1 + (ex + n1)) < pow2 1023).
        { rewrite pow2_add. fold E1.
          apply Qle_lt_trans with (X + E1); [exact Hd'|].
          assert (H2 : pow2 1023 == 2 * pow2 1022) by (rewrite (pow2_add 1 1022); reflexivity).
          rewrite H2. qlin. }
        apply pow2_lt_inv in Hlt. lia. }
  destruct Hcases as [(Hz1 & Hz2 & Hlx)|[HEb Hover]].
  - (* nothing is lost *)
    assert (Hm2mx : m2 = mx) by (apply Hexm; assumption).
    assert (Hm3mx : m3 = mx).
    { unfold m3. rewrite (Hb1 Hz2), Hm2mx. apply Z.div_1_r. }
    rewrite Hz1, Hz2, !Z.add_0_r, Hm3mx.
    assert (HXe := Hexact Hlx). fold px in HXe.
    destruct mx as [|p|p]; [| |lia].
    + split; [now left|]. simpl Qval. apply Qabs_Qle_condition.
      change (inject_Z 0) with 0 in HXe. qlin.
    + destruct (ex <=? 971)%Z eqn:Hle; [|apply Z.leb_gt in Hle; lia].
      split; [right; eauto|]. simpl Qval. fold px. apply Qabs_Qle_condition.
      qlin.
  - assert (Hval : forall R : spec_float,
              (R = S754_zero false /\ m3 = 0%Z)
              \/ (exists p, m3 = Zpos p /\ R = S754_finite false p (ex + n1 + n2)) ->
              nonneg_finite R /\ Qabs (Qval R - X) <= pow2 (-51) * X + pow2 (-1074)).
    { intros R [[-> Hz]|[p [Hp ->]]].
      - split; [now left|]. simpl Qval. apply Qabs_Qle_condition.
        assert (HV0 : V == 0) by (unfold V; rewrite Hz; change (inject_Z 0) with 0; ring).
        lra.
      - split; [right; eauto|]. simpl Qval. fold E. rewrite <- Hp. fold V.
        apply Qabs_Qle_condition. lra. }
    apply Hval. destruct m3 as [|p|p] eqn:Hm3e; [left; now split | | lia].
    right. exists p. split; [reflexivity|].
    destruct (ex + n1 + n2 <=? 971)%Z eqn:Hle; [reflexivity|].
    apply Z.leb_gt in Hle. specialize (Hover ltac:(lia)). lia.
Qed.

(** [close R X]: the float [R] is finite, not negative, and is [X] rounded. *)
Definition close (R : spec_float) (X : Q) : Prop :=
  nonneg_finite R /\ Qabs (Qval R - X) <= pow2 (-51) * X + pow2 (-1074).

Lemma close_eq (R : spec_float) (X Y : Q) : X == Y -> close R X -> close R Y.
Proof. intros H [Hf Hc]. split; [exact Hf|]. now rewrite <- H. Qed.

Lemma close_zero (X : Q) : X == 0 -> close (S754_zero false) X.
Proof.
  intros H. split; [now left|]. simpl Qval. rewrite H.
  apply Qabs_Qle_condition. qlin.
Qed.

Lemma value_nonneg (x : spec_float) : nonneg_finite x -> 0 <= Qval x.
Proof.
  intros [->|(m & e & ->)]; simpl; [lra|].
  pose proof (pow2_pos e). assert (0 <= inject_Z (Z.pos m)) by (now apply (inject_le 0)).
  nra.
Qed.

Lemma shifted_mantissa (p d : positive) :
  Z.pos (Pos.iter xO p d) = (Z.pos p * 2 ^ Z.pos d)%Z.
Proof.
  change (Pos.iter xO p d) with (shift_pos d p).
  rewrite Zpower.shift_pos_correct.
  change (Z.pow_pos 2 d) with (2 ^ Z.pos d)%Z. lia.
Qed.

(** Normalisation of [m * 2^e]. *)
Lemma round_exact_accuracy (m : positive) (e : Z) :
  (e <= 971)%Z -> inject_Z (Z.pos m) * pow2 e < pow2 1022 ->
  close (binary_round_aux 53 1024 false (Z.pos m) e loc_Exact)
        (inject_Z (Z.pos m) * pow2 e).
Proof.
  intros He HX. apply round_accuracy.
  - lia.
  - apply Qle_refl.
  - apply Qmult_le_compat_r; [|apply Qlt_le_weak, pow2_pos].
    set (q := inject_Z (Z.pos m)). lra.
  - intros _. reflexivity.
  - intros H. now contradiction H.
  - exact He.
  - exact HX.
Qed.

Lemma normalize_accuracy (m e : Z) :
  (0 <= m)%Z -> (e <= 971)%Z -> inject_Z m * pow2 e < pow2 1022 ->
  close (binary_normalize 53 1024 m e false) (inject_Z m * pow2 e).
Proof.
  intros Hm He HX. destruct m as [|p|p]; [|clear Hm|lia].
  - apply close_zero. change (inject_Z 0) with 0. ring.
  - unfold binary_normalize, binary_round, shl_align.
    set (fe := fexp 53 1024 (Z.pos (digits2_pos p) + e)).
    destruct (fe - e)%Z as [|d|d] eqn:Hd.
    + now apply round_exact_accuracy.
    + now apply round_exact_accuracy.
    + assert (Heq : inject_Z (Z.pos (Pos.iter xO p d)) * pow2 fe == inject_Z (Z.pos p) * pow2 e).
      { assert (Hp : pow2 e == pow2 (Z.pos d) * pow2 fe).
        { rewrite <- pow2_add. replace (Z.pos d + fe)%Z with e by lia. reflexivity. }
        rewrite Hp, shifted_mantissa, inject_Z_mult, pow2_inject by lia. ring. }
      apply close_eq with (1 := Heq).
      apply round_exact_accuracy; [lia|]. now rewrite Heq.
Qed.

Import PyFloat.

Lemma mul_accuracy (x y : spec_float) :
  nonneg_finite x -> nonneg_finite y -> Qval x * Qval y < pow2 971 ->
  close (mul x y) (Qval x * Qval y).
Proof.
  intros [->|(mx & ex & ->)] [->|(my & ey & ->)] HX; unfold mul; cbn [SFmul xorb].
  - apply close_zero. simpl. ring.
  - apply close_zero. simpl. ring.
  - apply close_zero. simpl. ring.
  - assert (Heq : inject_Z (Z.pos (mx * my)) * pow2 (ex + ey)
                  == Qval (S754_finite false mx ex) * Qval (S754_finite false my ey)).
    { cbn [Qval]. rewrite Pos2Z.inj_mul, inject_Z_mult, pow2_add. ring. }
    rewrite <- Heq in HX.
    apply close_eq with (1 := Heq). apply round_exact_accuracy.
    + assert (Hlt : pow2 (ex + ey) < pow2 971).
      { assert (H1 : 1 <= inject_Z (Z.pos (mx * my))) by (apply (inject_le 1); lia).
        pose proof (pow2_pos (ex + ey)) as Hp.
        set (q := inject_Z (Z.pos (mx * my))) in *. set (P := pow2 (ex + ey)) in *.
        set (B := pow2 971) in *. nra. }
      apply pow2_lt_inv in Hlt. lia.
    + eapply Qlt_le_trans; [exact HX | apply pow2_le; lia].
Qed.

Lemma new_location_exact (n r : Z) : new_location n r = loc_Exact -> r = 0%Z.
Proof.
  unfold new_location, new_location_even, new_location_odd.
  destruct (Z.even n), (r =? 0)%Z eqn:E; try discriminate; intros _; lia.
Qed.

(** Cancellation of a positive factor. *)
Lemma Qmult_le_cancel (a b c : Q) : 0 < c -> a * c <= b * c -> a <= b.
Proof. intros Hc H. now apply (Qmult_le_r a b c Hc). Qed.

Lemma quot_accuracy (x : spec_float) (my : positive) (ey : Z) (X : Q) :
  nonneg_finite x ->
  X * Qval (S754_finite false my ey) == Qval x -> X < pow2 1022 ->
  close (quot x (S754_finite false my ey)) X.
Proof.
  intros Hx HXv HX.
  pose proof (value_nonneg x Hx) as Hvx.
  cbn [Qval] in HXv.
  pose proof (pow2_pos ey) as Hpy.
  assert (Hmy : 1 <= inject_Z (Z.pos my)) by (apply (inject_le 1); lia).
  set (imy := inject_Z (Z.pos my)) in *. set (py := pow2 ey) in *.
  assert (HX0 : 0 <= X).
  { apply Qmult_le_cancel with (imy * py); [nra|]. rewrite <- HXv in Hvx. nra. }
  destruct Hx as [->|(mx & ex & ->)]; unfold quot; cbn [SFdiv xorb].
  - apply close_zero. cbn [Qval] in HXv.
    assert (Hz : X * (imy * py) == 0) by (rewrite <- HXv; ring).
    apply Qmult_integral in Hz. destruct Hz as [Hz|Hz]; [exact Hz|].
    assert (0 < imy * py) by nra. lra.
  - cbn [Qval] in HXv, Hvx. unfold SFdiv_core_binary. rewrite fexp_eq.
    set (d1 := Zdigits2 (Z.pos mx)). set (d2 := Zdigits2 (Z.pos my)).
    set (e' := Z.min (Z.max (d1 + ex - (d2 + ey) - 53) (-1074)) (ex - ey)).
    assert (Hs : (0 <= ex - ey - e')%Z) by lia.
    set (s := (ex - ey - e')%Z) in *.
    set (m' := match s with 0%Z => Z.pos mx | Z.pos _ => Z.shiftl (Z.pos mx) s | Z.neg _ => 0%Z end).
    assert (Hm' : m' = (Z.pos mx * 2 ^ s)%Z).
    { unfold m'. destruct s eqn:Es; [lia | now rewrite Z.shiftl_mul_pow2 | lia]. }
    pose proof (Z_div_mod m' (Z.pos my) ltac:(lia)) as Hdm.
    destruct (Z.div_eucl m' (Z.pos my)) as [q r] eqn:Hdiv.
    destruct Hdm as [Hmq Hr].
    assert (Hpow : (0 < 2 ^ s)%Z) by (apply Z.pow_pos_nonneg; lia).
    assert (Hq0 : (0 <= q)%Z) by nia.
    pose proof (pow2_pos e') as Hpe. pose proof (pow2_pos ex) as Hpx.
    assert (Hex : pow2 ex == pow2 s * pow2 e' * py).
    { unfold py. rewrite <- !pow2_add. replace (s + e' + ey)%Z with ex by lia. reflexivity. }
    assert (HK : X * imy == (imy * inject_Z q + inject_Z r) * pow2 e').
    { assert (Hm'q : inject_Z m' == imy * inject_Z q + inject_Z r).
      { rewrite Hmq at 1. unfold imy. rewrite inject_Z_plus, inject_Z_mult. reflexivity. }
      assert (Hm'x : inject_Z m' == inject_Z (Z.pos mx) * pow2 s).
      { rewrite Hm', inject_Z_mult, pow2_inject by lia. reflexivity. }
      rewrite <- Hm'q, Hm'x.
      apply Qmult_inj_r with py; [lra|].
      rewrite Hex in HXv. lra. }
    assert (Hr0 : 0 <= inject_Z r) by (apply (inject_le 0); lia).
    assert (Hr1 : inject_Z r <= imy) by (apply inject_le; lia).
    set (iq := inject_Z q) in *. set (ir := inject_Z r) in *. set (pe := pow2 e') in *.
    (* the size of the quotient *)
    assert (Hsize : pow2 (d1 + ex - (d2 + ey) - 1) <= X).
    { pose proof (digits_pow2 (Z.pos mx) ltac:(lia)) as Hd1. fold d1 in Hd1.
      assert (Hd2 : imy <= pow2 d2).
      { destruct (Zdigits2_bound (Z.pos my) ltac:(lia)) as [_ Hu]. fold d2 in Hu.
        assert (0 <= d2)%Z by (unfold d2; simpl; lia).
        rewrite <- pow2_inject by assumption. apply inject_le. lia. }
      pose proof (pow2_pos d2) as Hpd2. pose proof (pow2_pos (d1 - 1)) as Hpd1.
      apply Qmult_le_cancel with (pow2 d2 * py); [nra|].
      assert (Hsplit : pow2 (d1 + ex - (d2 + ey) - 1) * (pow2 d2 * py) == pow2 (d1 - 1) * pow2 ex).
      { unfold py. rewrite <- !pow2_add. f_equiv. lia. }
      rewrite Hsplit.
      apply Qle_trans with (inject_Z (Z.pos mx) * pow2 ex); [nra|].
      apply Qle_trans with (X * (imy * py)); [lra|].
      set (A := pow2 d2) in *. nra. }
    set (D := (d1 + ex - (d2 + ey))%Z) in *.
    apply round_accuracy; fold iq; fold pe.
    + exact Hq0.
    + apply Qmult_le_cancel with imy; [lra|]. rewrite HK.
      assert (0 <= ir * pe) by (apply Qmult_le_0_compat; lra). lra.
    + apply Qmult_le_cancel with imy; [lra|]. rewrite HK.
      assert (ir * pe <= imy * pe) by (apply Qmult_le_compat_r; lra). lra.
    + intros Hl. apply new_location_exact in Hl.
      apply Qmult_inj_r with imy; [lra|]. rewrite HK. unfold ir. rewrite Hl.
      change (inject_Z 0) with 0. ring.
    + intros _. destruct (Z.max_spec (D - 53) (-1074)) as [[_ Hmax]|[_ Hmax]].
      * assert (pe <= pow2 (-1074)) by (apply pow2_le; lia). qlin.
      * assert (Hle : pe <= pow2 (-52 + (D - 1))) by (apply pow2_le; lia).
        rewrite pow2_add in Hle. set (t := pow2 (D - 1)) in *. qlin.
    + destruct (Z.max_spec (D - 53) (-1074)) as [[_ Hmax]|[_ Hmax]]; [lia|].
      assert (Hlt : pow2 (D - 1) < pow2 1022) by lra.
      apply pow2_lt_inv in Hlt. lia.
    + exact HX.
Qed.

(** The integer and fractional parts of [m * 2^e]. *)
Lemma magnitude_parts (m : positive) (e : Z) :
  let H := magnitude_int m e in
  let r := magnitude_frac m e in
  (0 <= H)%Z /\ (0 <= r)%Z
  /\ inject_Z (Z.pos m) * pow2 e == inject_Z H + inject_Z r * pow2 e
  /\ inject_Z r * pow2 e < 1
  /\ ((0 <= e)%Z -> r = 0%Z)
  /\ ((e < 0)%Z -> r = (Z.pos m mod 2 ^ (- e))%Z
                  /\ pow2 e * inject_Z (2 ^ (- e)) == 1).
Proof.
  unfold magnitude_int, magnitude_frac. cbv zeta.
  destruct (0 <=? e)%Z eqn:He.
  - apply Z.leb_le in He. rewrite Z.shiftl_mul_pow2 by exact He.
    assert (0 < 2 ^ e)%Z by (apply Z.pow_pos_nonneg; lia).
    split; [lia|]. split; [lia|]. split.
    + rewrite inject_Z_mult, pow2_inject by exact He. change (inject_Z 0) with 0. ring.
    + split; [change (inject_Z 0) with 0; lra|]. split; [reflexivity | lia].
  - apply Z.leb_gt in He. rewrite Z.shiftl_div_pow2 by lia.
    assert (Hk : (0 < 2 ^ (- e))%Z) by (apply Z.pow_pos_nonneg; lia).
    pose proof (Z.div_mod (Z.pos m) (2 ^ (- e)) ltac:(lia)) as Hdm.
    pose proof (Z.mod_pos_bound (Z.pos m) (2 ^ (- e)) Hk) as Hr.
    assert (Hq : (0 <= Z.pos m / 2 ^ (- e))%Z) by (apply Z.div_pos; lia).
    assert (Hone : pow2 e * inject_Z (2 ^ (- e)) == 1).
    { rewrite pow2_inject by lia. rewrite <- pow2_add.
      replace (e + - e)%Z with 0%Z by lia. reflexivity. }
    pose proof (pow2_pos e) as Hp.
    split; [exact Hq|]. split; [lia|]. split.
    + rewrite Hdm at 1. rewrite inject_Z_plus, inject_Z_mult.
      set (k := inject_Z (2 ^ (- e))) in *. set (P := pow2 e) in *.
      set (iq := inject_Z (Z.pos m / 2 ^ (- e))). set (ir := inject_Z (Z.pos m mod 2 ^ (- e))).
      transitivity (iq * (P * k) + ir * P); [ring|]. rewrite Hone. ring.
    + split; [|split; [lia | intros _; split; [reflexivity | exact Hone]]].
      assert (Hlt : inject_Z (Z.pos m mod 2 ^ (- e)) < inject_Z (2 ^ (- e))).
      { rewrite <- Zlt_Qlt. lia. }
      rewrite <- Hone. rewrite (Qmult_comm (pow2 e)).
      apply Qmult_lt_compat_r; assumption.
Qed.

(** [round] gives a nearest integer. *)
Lemma round_nearest (x : spec_float) :
  nonneg_finite x ->
  exists n : Z, round x = Ok n /\ (0 <= n)%Z /\ Qabs (inject_Z n - Qval x) <= 1 # 2.
Proof.
  intros [->|(m & e & ->)].
  - exists 0%Z. split; [reflexivity|]. split; [lia|]. cbn [Qval].
    change (inject_Z 0) with 0. apply Qabs_Qle_condition. lra.
  - destruct (magnitude_parts m e) as (HH & Hr & Hv & Hlt & Hpos & Hneg).
    cbn [round Qval sign].
    set (H := magnitude_int m e) in *. set (r := magnitude_frac m e) in *.
    eexists. split; [reflexivity|]. rewrite Hv.
    destruct (0 <=? e)%Z eqn:He.
    + apply Z.leb_le in He. rewrite (Hpos He). split; [exact HH|].
      change (inject_Z 0) with 0. apply Qabs_Qle_condition. lra.
    + apply Z.leb_gt in He. destruct (Hneg He) as [Hrm Hone].
      assert (Hhalf : (2 ^ (- e) = 2 * 2 ^ (- e - 1))%Z).
      { rewrite <- Z.pow_succ_r by lia. f_equal. lia. }
      rewrite Hhalf, inject_Z_mult in Hone. change (inject_Z 2) with 2 in Hone.
      set (half := (2 ^ (- e - 1))%Z) in *.
      pose proof (pow2_pos e) as Hp.
      assert (Hcmp : forall a b : Z, (a <= b)%Z -> inject_Z a * pow2 e <= inject_Z b * pow2 e).
      { intros a b Hab. apply scale_le; [exact Hab | lra]. }
      set (U := inject_Z r * pow2 e) in *.
      assert (Hh : inject_Z half * pow2 e == 1 # 2) by lra.
      destruct (r <? half)%Z eqn:E1.
      * apply Z.ltb_lt in E1. split; [exact HH|].
        pose proof (Hcmp r half ltac:(lia)) as Hc. fold U in Hc.
        pose proof (Hcmp 0%Z r Hr) as Hc0. fold U in Hc0. change (inject_Z 0) with 0 in Hc0.
        apply Qabs_Qle_condition. lra.
      * apply Z.ltb_ge in E1.
        pose proof (Hcmp half r E1) as Hc. fold U in Hc.
        destruct (half <? r)%Z eqn:E2.
        -- split; [lia|]. rewrite inject_Z_plus. change (inject_Z 1) with 1.
           apply Qabs_Qle_condition. lra.
        -- apply Z.ltb_ge in E2.
           pose proof (Hcmp r half E2) as Hc'. fold U in Hc'.
           destruct (Z.odd H); (split; [lia|]);
             [rewrite inject_Z_plus; change (inject_Z 1) with 1|];
             apply Qabs_Qle_condition; lra.
Qed.

(** [x // 1] and [x % 1] of a float that is not negative: the floor [H] of
    its Qval as a float, and the rest. *)
Lemma floor_and_fraction (x : spec_float) :
  nonneg_finite x -> Qval x < pow2 1022 ->
  exists H : Z,
    (0 <= H)%Z /\ inject_Z H <= Qval x /\ Qval x < inject_Z H + 1
    /\ close (floordiv1 x) (inject_Z H)
    /\ close (mod1 x) (Qval x - inject_Z H).
Proof.
  intros [->|(m & e & ->)] HX.
  - exists 0%Z. cbn [Qval floordiv1 mod1 fmod1]. change (inject_Z 0) with 0.
    split; [lia|]. split; [lra|]. split; [lra|].
    split; apply close_zero; ring.
  - destruct (magnitude_parts m e) as (HH & Hr & Hv & Hlt & Hpos & Hneg).
    cbn [Qval] in *. rewrite Qmult_1_l in *.
    set (H := magnitude_int m e) in *.
    assert (Hr0 : 0 <= inject_Z (magnitude_frac m e) * pow2 e).
    { apply Qmult_le_0_compat; [now apply (inject_le 0) | apply Qlt_le_weak, pow2_pos]. }
    assert (Hfrac : close (fmod1 (S754_finite false m e))
                          (inject_Z (magnitude_frac m e) * pow2 e)).
    { cbn [fmod1 sign]. destruct (magnitude_frac m e) as [|r|r] eqn:Er.
      - apply close_zero. change (inject_Z 0) with 0. ring.
      - apply normalize_accuracy; [lia| |].
        + destruct (Z_lt_le_dec e 0) as [Hlt0|Hge0]; [lia|].
          specialize (Hpos Hge0). discriminate Hpos.
        + eapply Qlt_trans; [exact Hlt|].
          change 1 with (pow2 0). apply Qpower_lt_compat_l; [lia | reflexivity].
      - lia. }
    assert (Hmod : mod1 (S754_finite false m e) = fmod1 (S754_finite false m e)).
    { unfold mod1. destruct Hfrac as [[->|(m' & e' & ->)] _]; reflexivity. }
    assert (Hfloor : floordiv1 (S754_finite false m e) = of_Z H).
    { unfold floordiv1. cbn [sign]. fold H.
      destruct Hfrac as [[->|(m' & e' & ->)] _];
        (destruct (H =? 0)%Z eqn:E0; [apply Z.eqb_eq in E0; rewrite E0; reflexivity | reflexivity]). }
    exists H. split; [exact HH|]. split; [lra|]. split; [lra|]. split.
    + rewrite Hfloor. unfold of_Z.
      apply close_eq with (inject_Z H * pow2 0); [change (pow2 0) with 1; ring|].
      apply normalize_accuracy; [exact HH | lia |].
      change (pow2 0) with 1. lra.
    + rewrite Hmod. apply close_eq with (2 := Hfrac). lra.
Qed.

Lemma float_3600 : of_Z 3600 = S754_finite false 7916483719987200 (-41).
Proof. reflexivity. Qed.

Lemma float_60 : of_Z 60 = S754_finite false 8444249301319680 (-47).
Proof. reflexivity. Qed.

Lemma close_bounds (R : spec_float) (X : Q) :
  close R X ->
  nonneg_finite R
  /\ - (pow2 (-51) * X + pow2 (-1074)) <= Qval R - X
  /\ Qval R - X <= pow2 (-51) * X + pow2 (-1074).
Proof. intros [Hf Hc]. split; [exact Hf|]. now apply Qabs_Qle_condition. Qed.

Lemma estimate_of_nothing (f : spec_float) :
  nonneg_finite f -> LCD.adjusted_estimate 0 f = Ok (0, 0)%Z.
Proof. intros [->|(m & e & ->)]; reflexivity. Qed.

Lemma scale_bounds (a b d k : Q) :
  0 <= k -> - d <= a - b -> a - b <= d ->
  - (d * k) <= a * k - b * k /\ a * k - b * k <= d * k.
Proof.
  intros Hk Hl Hu.
  assert ((a - b) * k <= d * k) by (apply Qmult_le_compat_r; assumption).
  assert ((- d) * k <= (a - b) * k) by (apply Qmult_le_compat_r; assumption).
  split; lra.
Qed.

Lemma adjusted_estimate_eq (s : Z) (f : spec_float) :
  LCD.adjusted_estimate s f
  = match of_int s with
    | Ok ct =>
        let hhh := quot (mul ct f) (of_Z 3600) in
        match round (floordiv1 hhh) with
        | Ok hr =>
            match round (mul (mod1 hhh) (of_Z 60)) with
            | Ok mmm => Ok (hr, mmm)
            | Raise e => Raise e
            end
        | Raise e => Raise e
        end
    | Raise e => Raise e
    end.
Proof. reflexivity. Qed.

Lemma tiny_bound : pow2 (-1074) <= pow2 (-100).
Proof. apply pow2_le. lia. Qed.

Lemma big_bound : pow2 100 <= pow2 971.
Proof. apply pow2_le. lia. Qed.

(** C7, as stated, fails: the estimate is computed in binary64. For a raw
    estimate of [10^20] seconds and the factor [1.0], the hours and minutes
    that are displayed are 6400 seconds away from [s * f]. *)
Lemma huge_estimate_is_off_by_more_than_a_minute :
  LCD.adjusted_estimate (10 ^ 20) (of_Z 1) = Ok (27777777777777776, 0)%Z
  /\ Qval (of_Z 1) == 1
  /\ Qabs (inject_Z (27777777777777776 * 3600 + 0 * 60)
           - inject_Z (10 ^ 20) * Qval (of_Z 1)) == 6400
  /\ ~ 6400 <= 60.
Proof. repeat split; try (vm_compute; reflexivity). intros H. vm_compute in H. now apply H. Qed.

(** C7, amended. For a raw estimate [0 <= s < 2^1000] and a finite factor [f]
    that is not negative (so for every finite [f > 0]) with [s * f] at most
    [10^16] seconds, the adjusted estimate is computed without an error and
    its hours [hr = round((s*f/3600) // 1)] and minutes
    [mmm = round(((s*f/3600) % 1) * 60)], evaluated in binary64, are within
    60 seconds of the exact product: [|hr*3600 + mmm*60 - s*f| <= 60]. *)
Theorem adjusted_estimate_within_a_minute (s : Z) (f : spec_float) :
  (0 <= s < 2 ^ 1000)%Z -> nonneg_finite f ->
  inject_Z s * Qval f <= inject_Z (10 ^ 16) ->
  exists hr mmm : Z,
    LCD.adjusted_estimate s f = Ok (hr, mmm)
    /\ Qabs (inject_Z (hr * 3600 + mmm * 60) - inject_Z s * Qval f) <= 60.
Proof.
  intros [Hs0 Hs1] Hf HP.
  change (inject_Z (10 ^ 16)) with 10000000000000000 in HP.
  destruct (Z.eq_dec s 0%Z) as [->|Hsz].
  { exists 0%Z, 0%Z. split; [now apply estimate_of_nothing|].
    change (inject_Z 0) with 0. change (inject_Z (0 * 3600 + 0 * 60)) with 0.
    apply Qabs_Qle_condition. lra. }
  pose proof (value_nonneg f Hf) as HF.
  pose proof tiny_bound as Htiny. pose proof (pow2_pos (-1074)) as Htiny0.
  pose proof big_bound as Hbig.
  assert (Hbig' : pow2 971 <= pow2 1022) by (apply pow2_le; lia).
  assert (HS1 : 1 <= inject_Z s) by (apply (inject_le 1); lia).
  set (secs := inject_Z s) in *. set (F := Qval f) in *.
  assert (HFP : F <= secs * F).
  { rewrite <- (Qmult_1_l F) at 1. apply Qmult_le_compat_r; assumption. }
  (* float(cura_time) *)
  assert (Hc : close (of_Z s) secs).
  { apply close_eq with (inject_Z s * pow2 0); [change (pow2 0) with 1; unfold secs; ring|].
    apply normalize_accuracy; [lia | lia |].
    change (pow2 0) with 1. rewrite Qmult_1_r.
    apply Qlt_le_trans with (pow2 1000); [|apply pow2_le; lia].
    rewrite <- pow2_inject by lia. rewrite <- Zlt_Qlt. exact Hs1. }
  apply close_bounds in Hc. destruct Hc as (Hcf & Hcl & Hcu).
  assert (Hct : of_int s = Ok (of_Z s)).
  { unfold of_int. destruct Hcf as [->|(m & e & ->)]; reflexivity. }
  set (c := of_Z s) in *.
  (* print_time *)
  destruct (scale_bounds (Qval c) secs _ F HF Hcl Hcu) as [HcFl' HcFu'].
  assert (HcFl : - (pow2 (-51) * (secs * F) + pow2 (-1074) * F) <= Qval c * F - secs * F) by lra.
  assert (HcFu : Qval c * F - secs * F <= pow2 (-51) * (secs * F) + pow2 (-1074) * F) by lra.
  clear HcFl' HcFu'.
  assert (HtF : pow2 (-1074) * F <= pow2 (-100) * F).
  { apply Qmult_le_compat_r; assumption. }
  set (P0 := secs * F) in *. set (cF := Qval c * F) in *. set (tF := pow2 (-1074) * F) in *.
  set (tiny := pow2 (-1074)) in *.
  assert (Hp : close (mul c f) cF).
  { apply mul_accuracy; [exact Hcf | exact Hf |]. fold F. fold cF.
    eapply Qlt_le_trans; [|exact Hbig]. unfold pow2 in *. lra. }
  apply close_bounds in Hp. destruct Hp as (Hpf & Hpl & Hpu).
  set (p := mul c f) in *.
  (* hhh *)
  assert (Hh : close (quot p (of_Z 3600)) (Qval p * (1 # 3600))).
  { rewrite float_3600. apply quot_accuracy; [exact Hpf | |].
    - assert (Hv : Qval (S754_finite false 7916483719987200 (-41)) == 3600) by reflexivity.
      rewrite Hv. ring.
    - eapply Qlt_le_trans; [|exact Hbig']. eapply Qlt_le_trans; [|exact Hbig].
      fold tiny in Hpl, Hpu. unfold pow2 in *. lra. }
  apply close_bounds in Hh. destruct Hh as (Hhf & Hhl & Hhu).
  set (h := quot p (of_Z 3600)) in *.
  destruct (floor_and_fraction h Hhf) as (H & HH0 & HHl & HHu & Hfl & Hfr).
  { eapply Qlt_le_trans; [|exact Hbig']. eapply Qlt_le_trans; [|exact Hbig].
    fold tiny in Hpl, Hpu, Hhl, Hhu. unfold pow2 in *. lra. }
  apply close_bounds in Hfl. destruct Hfl as (Hflf & Hfll & Hflu).
  apply close_bounds in Hfr. destruct Hfr as (Hfrf & Hfrl & Hfru).
  (* hr *)
  destruct (round_nearest (floordiv1 h) Hflf) as (n1 & Hn1 & Hn10 & Hn1a).
  apply Qabs_Qle_condition in Hn1a. destruct Hn1a as [Hn1l Hn1u].
  fold tiny in Hpl, Hpu, Hhl, Hhu, Hfll, Hflu, Hfrl, Hfru.
  assert (Hn1H : n1 = H).
  { assert (Hlt1 : inject_Z n1 < inject_Z (H + 1)).
    { rewrite inject_Z_plus. change (inject_Z 1) with 1. unfold pow2 in *. lra. }
    assert (Hlt2 : inject_Z H < inject_Z (n1 + 1)).
    { rewrite inject_Z_plus. change (inject_Z 1) with 1. unfold pow2 in *. lra. }
    rewrite <- Zlt_Qlt in Hlt1, Hlt2. lia. }
  subst n1.
  (* mmm *)
  assert (Hg : close (mul (mod1 h) (of_Z 60)) (Qval (mod1 h) * 60)).
  { assert (Hv : Qval (of_Z 60) == 60) by reflexivity.
    apply close_eq with (Qval (mod1 h) * Qval (of_Z 60)); [now rewrite Hv|].
    apply mul_accuracy; [exact Hfrf | rewrite float_60; right; eauto |].
    rewrite Hv. eapply Qlt_le_trans; [|exact Hbig]. unfold pow2 in *. lra. }
  apply close_bounds in Hg. destruct Hg as (Hgf & Hgl & Hgu).
  fold tiny in Hgl, Hgu.
  destruct (round_nearest _ Hgf) as (n2 & Hn2 & Hn20 & Hn2a).
  apply Qabs_Qle_condition in Hn2a. destruct Hn2a as [Hn2l Hn2u].
  exists H, n2. split.
  - rewrite adjusted_estimate_eq, Hct. cbv beta iota zeta.
    unfold h, p in Hn1, Hn2. rewrite Hn1, Hn2. reflexivity.
  - rewrite inject_Z_plus, !inject_Z_mult.
    change (inject_Z 3600) with 3600. change (inject_Z 60) with 60.
    apply Qabs_Qle_condition. unfold pow2 in *. lra.
Qed.

Lemma adjusted_estimate_within_a_minute_witness :
  exists hr mmm : Z,
    LCD.adjusted_estimate 7199 (S754_finite false 4953959590107546 (-52)) = Ok (hr, mmm)
    /\ Qabs (inject_Z (hr * 3600 + mmm * 60)
             - inject_Z 7199 * Qval (S754_finite false 4953959590107546 (-52))) <= 60.
Proof.
  apply adjusted_estimate_within_a_minute.
  - split; [lia | reflexivity].
  - right. exists 4953959590107546%positive, (-52)%Z. reflexivity.
  - vm_compute. discriminate.
Defined.

End EstimateFacts.

(** ** The escaping of the scripts in the metadata *)

Section EscapeFacts.

Import PyStr Manager.

Definition bs : ascii := "\"%char.

(** [s] with every character [c] replaced by the text [new]. *)
Fixpoint subst (c : ascii) (new : string) (s : string) : string :=
  match s with
  | EmptyString => EmptyString
  | String d rest =>
      if Ascii.eqb d c then new +:+ subst c new rest else String d (subst c new rest)
  end.

Lemma prefix_empty (s : string) : String.prefix "" s = true.
Proof. now destruct s. Qed.

Lemma prefix_cons (c d : ascii) (p s : string) :
  String.prefix (String c p) (String d s) = Ascii.eqb d c && String.prefix p s.
Proof.
  simpl. destruct (ascii_dec c d) as [->|Hn].
  - now rewrite Ascii.eqb_refl.
  - destruct (Ascii.eqb d c) eqn:E; [|reflexivity].
    apply Ascii.eqb_eq in E. congruence.
Qed.

Lemma str_app_nil (t : string) : "" +:+ t = t.
Proof. reflexivity. Qed.

Lemma replace_char (c : ascii) (new s : string) :
  replace s (String c "") new = subst c new s.
Proof.
  unfold replace. induction s as [|d rest IH]; [reflexivity|].
  cbn [replace_from subst]. rewrite prefix_cons, prefix_empty, andb_true_r.
  destruct (Ascii.eqb d c); cbn [String.length]; now rewrite IH.
Qed.

(** The escaped text, character by character. *)
Fixpoint escaped (s : string) : string :=
  match s with
  | EmptyString => EmptyString
  | String c rest =>
      if Ascii.eqb c bs then String bs (String bs (escaped rest))
      else if Ascii.eqb c nl_char then String bs (String "n" (escaped rest))
      else String c (escaped rest)
  end.

Lemma escape_escaped (s : string) : escape s = escaped s.
Proof.
  unfold escape, backslash, nl, backslash_n.
  change ("\" +:+ "\") with (String bs (String bs "")).
  change "\n" with (String bs (String "n" "")).
  change "\" with (String bs "").
  rewrite !replace_char.
  induction s as [|c rest IH]; [reflexivity|].
  cbn [subst escaped].
  destruct (Ascii.eqb c bs) eqn:Eb.
  - rewrite !append_cons, str_app_nil. cbn [subst].
    change (Ascii.eqb bs nl_char) with false. cbv iota. now rewrite IH.
  - cbn [subst]. destruct (Ascii.eqb c nl_char) eqn:En.
    + rewrite !append_cons, str_app_nil. now rewrite IH.
    + now rewrite IH.
Qed.

Lemma replace_match2 (a b : ascii) (new rest : string) :
  replace_from (String a (String b "")) new 0 (String a (String b rest))
  = new +:+ replace_from (String a (String b "")) new 0 rest.
Proof.
  cbn [replace_from]. rewrite !prefix_cons, !Ascii.eqb_refl, prefix_empty. reflexivity.
Qed.

Lemma replace_no_match (old new : string) (c : ascii) (rest : string) :
  String.prefix old (String c rest) = false ->
  replace_from old new 0 (String c rest) = String c (replace_from old new 0 rest).
Proof. intros H. cbn [replace_from]. now rewrite H. Qed.

Lemma escaped_head_n (s : string) :
  String.prefix "n" (escaped s) = String.prefix "n" s.
Proof.
  destruct s as [|c rest]; [reflexivity|]. cbn [escaped].
  destruct (Ascii.eqb c bs) eqn:Eb.
  - apply Ascii.eqb_eq in Eb. subst c. rewrite !prefix_cons. reflexivity.
  - destruct (Ascii.eqb c nl_char) eqn:En.
    + apply Ascii.eqb_eq in En. subst c. rewrite !prefix_cons. reflexivity.
    + rewrite !prefix_cons, !prefix_empty. reflexivity.
Qed.

(** The first replacement of [unescape] undoes the second one of [escape],
    when no backslash of the text is followed by an [n]. *)
Lemma unescape_newlines (s : string) :
  contains backslash_n s = false ->
  replace (escaped s) backslash_n nl = subst bs (String bs (String bs "")) s.
Proof.
  unfold replace, backslash_n. change "\n" with (String bs (String "n" "")).
  induction s as [|c rest IH]; intros Hs; [reflexivity|].
  cbn [contains] in Hs. apply orb_false_elim in Hs. destruct Hs as [Hhere Hrest].
  specialize (IH Hrest). cbn [escaped subst].
  destruct (Ascii.eqb c bs) eqn:Eb.
  - apply Ascii.eqb_eq in Eb. subst c.
    rewrite prefix_cons, Ascii.eqb_refl in Hhere. cbn [andb] in Hhere.
    rewrite replace_no_match by (rewrite !prefix_cons; reflexivity).
    rewrite replace_no_match.
    + rewrite IH. reflexivity.
    + rewrite prefix_cons, Ascii.eqb_refl. cbn [andb]. now rewrite escaped_head_n.
  - destruct (Ascii.eqb c nl_char) eqn:En.
    + apply Ascii.eqb_eq in En. subst c. rewrite replace_match2, IH. reflexivity.
    + rewrite replace_no_match by (rewrite prefix_cons, Eb; reflexivity).
      now rewrite IH.
Qed.

(** The second replacement of [unescape] undoes the first one of [escape]. *)
Lemma unescape_backslashes (s : string) :
  replace (subst bs (String bs (String bs "")) s) (backslash +:+ backslash) backslash = s.
Proof.
  unfold replace, backslash.
  change ("\" +:+ "\") with (String bs (String bs "")). change "\" with (String bs "").
  induction s as [|c rest IH]; [reflexivity|]. cbn [subst].
  destruct (Ascii.eqb c bs) eqn:Eb.
  - apply Ascii.eqb_eq in Eb. subst c. rewrite !append_cons, str_app_nil.
    rewrite replace_match2, IH. reflexivity.
  - rewrite replace_no_match by (rewrite prefix_cons, Eb; reflexivity).
    now rewrite IH.
Qed.

Lemma unescape_escape (s : string) :
  contains backslash_n s = false -> unescape (escape s) = s.
Proof.
  intros Hs. unfold unescape. rewrite escape_escaped, unescape_newlines by exact Hs.
  apply unescape_backslashes.
Qed.

(** No character of [s] is a newline. *)
Fixpoint newline_free (s : string) : bool :=
  match s with
  | EmptyString => true
  | String c rest => negb (Ascii.eqb c nl_char) && newline_free rest
  end.

Lemma newline_free_contains (s : string) :
  newline_free s = true <-> contains nl s = false.
Proof.
  unfold nl. induction s as [|c rest IH]; [now split|].
  cbn [newline_free contains]. rewrite prefix_cons, prefix_empty, andb_true_r.
  destruct (Ascii.eqb c nl_char); cbn [negb andb orb]; [now split | exact IH].
Qed.

Lemma escaped_newline_free (s : string) : newline_free (escaped s) = true.
Proof.
  induction s as [|c rest IH]; [reflexivity|]. cbn [escaped].
  destruct (Ascii.eqb c bs) eqn:Eb; [exact IH|].
  destruct (Ascii.eqb c nl_char) eqn:En; [exact IH|].
  cbn [newline_free]. now rewrite En.
Qed.

Lemma escaped_empty (s : string) : escaped s = "" -> s = "".
Proof.
  destruct s as [|c rest]; [reflexivity|]. cbn [escaped].
  destruct (Ascii.eqb c bs); [discriminate|].
  destruct (Ascii.eqb c nl_char); discriminate.
Qed.

(** [split] passes over a text without a newline. *)
Lemma split_aux_free (s : string) :
  newline_free s = true ->
  forall cur t : string,
    split_aux nl_char cur (s +:+ t) = split_aux nl_char (cur +:+ s) t.
Proof.
  induction s as [|c rest IH]; intros Hs cur t.
  - now rewrite str_app_nil, append_empty_r.
  - cbn [newline_free] in Hs. apply andb_true_iff in Hs. destruct Hs as [Hc Hrest].
    apply negb_true_iff in Hc. rewrite append_cons. cbn [split_aux]. rewrite Hc.
    rewrite IH by exact Hrest. now rewrite append_assoc, append_cons, str_app_nil.
Qed.

Lemma join_cons (x y : string) (l : list string) :
  join nl (x :: y :: l) = x +:+ nl +:+ join nl (y :: l).
Proof. reflexivity. Qed.

(** The lines of texts joined by newlines are these texts, when none of them
    holds a newline. *)
Lemma split_join (l : list string) :
  forall (cur x : string),
    Forall (fun s => newline_free s = true) (x :: l) ->
    split_aux nl_char cur (join nl (x :: l)) = (cur +:+ x) :: l.
Proof.
  induction l as [|y l IH]; intros cur x H.
  - apply Forall_cons_1 in H. destruct H as [Hx _].
    change (join nl [x]) with x. rewrite <- (append_empty_r x) at 1.
    rewrite split_aux_free by exact Hx. reflexivity.
  - apply Forall_cons_1 in H. destruct H as [Hx Hl].
    rewrite join_cons, split_aux_free by exact Hx.
    unfold nl at 1. rewrite append_cons, str_app_nil. cbn [split_aux].
    rewrite Ascii.eqb_refl, IH by exact Hl. now rewrite str_app_nil.
Qed.

Lemma filter_all {A : Type} (P : A -> Prop) `{forall x, Decision (P x)} (l : list A) :
  Forall P l -> filter P l = l.
Proof.
  induction 1 as [|x l Hx Hl IH]; [reflexivity|].
  rewrite filter_cons_True by exact Hx. now rewrite IH.
Qed.

(** X7. The escaping of a serialised script. The escaped text holds no
    newline; unescaping gives the text back when no backslash of it is
    followed by the letter [n]; it does not for a backslash followed by an
    [n], which comes back as a backslash and a newline. *)
Theorem escape_round_trip :
  (forall s : string, PyStr.contains PyStr.nl (Manager.escape s) = false)
  /\ (forall s : string,
        PyStr.contains Manager.backslash_n s = false ->
        Manager.unescape (Manager.escape s) = s)
  /\ Manager.unescape (Manager.escape Manager.backslash_n)
     = Manager.backslash +:+ PyStr.nl.
Proof.
  split; [|split].
  - intros s. apply newline_free_contains. rewrite escape_escaped.
    apply escaped_newline_free.
  - apply unescape_escape.
  - reflexivity.
Qed.

Lemma escape_round_trip_witness :
  Manager.unescape (Manager.escape ("[Script]" +:+ PyStr.nl +:+ "path = C:\dir" +:+ PyStr.nl))
  = "[Script]" +:+ PyStr.nl +:+ "path = C:\dir" +:+ PyStr.nl.
Proof.
  apply (proj1 (proj2 escape_round_trip)). reflexivity.
Defined.

(** X8. Writing the scripts to the stack and reading them back. The texts
    handed to the config parser are the texts it wrote, provided none of
    them is empty or holds a backslash followed by the letter [n]. *)
Theorem stack_entry_round_trip (serialized : list string) :
  Forall (fun s => s <> "" /\ PyStr.contains Manager.backslash_n s = false) serialized ->
  Manager.texts_of_entry (Manager.stack_entry serialized) = serialized.
Proof.
  intros H. unfold texts_of_entry, stack_entry, split.
  destruct serialized as [|x l]; [reflexivity|].
  assert (Hfree : Forall (fun s => newline_free s = true) (map escape (x :: l))).
  { apply Forall_forall. intros s Hs. apply list_elem_of_In, in_map_iff in Hs.
    destruct Hs as [s0 [<- _]]. rewrite escape_escaped. apply escaped_newline_free. }
  assert (Hfull : Forall (fun s => s <> "") (map escape (x :: l))).
  { apply Forall_forall. intros s Hs. apply list_elem_of_In, in_map_iff in Hs.
    destruct Hs as [s0 [<- Hin]]. apply list_elem_of_In in Hin.
    rewrite Forall_forall in H. destruct (H s0 Hin) as [Hne _].
    intros He. apply Hne, escaped_empty. now rewrite <- escape_escaped. }
  cbn [map] in *. rewrite split_join by exact Hfree. rewrite str_app_nil.
  rewrite filter_all by exact Hfull.
  change (map unescape (map escape (x :: l)) = x :: l).
  rewrite map_map. rewrite <- (map_id (x :: l)) at 2.
  apply map_ext_in. intros s Hin. apply list_elem_of_In in Hin.
  rewrite Forall_forall in H. destruct (H s Hin) as [_ Hs]. now apply unescape_escape.
Qed.

Lemma stack_entry_round_trip_witness :
  Manager.texts_of_entry
    (Manager.stack_entry ["[PauseAtHeight]" +:+ PyStr.nl +:+ "pause_height = 5.0" +:+ PyStr.nl;
                          "[DisplayInfoOnLCD]" +:+ PyStr.nl +:+ "scroll = False" +:+ PyStr.nl])
  = ["[PauseAtHeight]" +:+ PyStr.nl +:+ "pause_height = 5.0" +:+ PyStr.nl;
     "[DisplayInfoOnLCD]" +:+ PyStr.nl +:+ "scroll = False" +:+ PyStr.nl].
Proof.
  apply stack_entry_round_trip.
  repeat constructor; discriminate.
Defined.

End EscapeFacts.

(** ** The list of active scripts *)

Section ManagerFacts.

Import PyIndex Manager.

Lemma position_Some (len : nat) (i : Z) (j : nat) :
  position len i = Some j <->
  (j < len)%nat /\ (i = Z.of_nat j \/ i = Z.of_nat j - Z.of_nat len).
Proof.
  unfold position. destruct (i <? 0) eqn:Hneg.
  - apply Z.ltb_lt in Hneg.
    destruct ((0 <=? i + Z.of_nat len) && (i + Z.of_nat len <? Z.of_nat len)) eqn:E.
    + apply andb_true_iff in E. destruct E as [E1 E2].
      apply Z.leb_le in E1. apply Z.ltb_lt in E2.
      split; [intros [= <-]; lia | intros [? ?]; f_equal; lia].
    + split; [discriminate|]. intros [? ?].
      apply andb_false_iff in E. destruct E as [E|E];
        [apply Z.leb_gt in E | apply Z.ltb_ge in E]; lia.
  - apply Z.ltb_ge in Hneg.
    destruct ((0 <=? i) && (i <? Z.of_nat len)) eqn:E.
    + apply andb_true_iff in E. destruct E as [E1 E2].
      apply Z.leb_le in E1. apply Z.ltb_lt in E2.
      split; [intros [= <-]; lia | intros [? ?]; f_equal; lia].
    + split; [discriminate|]. intros [? ?].
      apply andb_false_iff in E. destruct E as [E|E];
        [apply Z.leb_gt in E | apply Z.ltb_ge in E]; lia.
Qed.

Lemma position_None (len : nat) (i : Z) :
  position len i = None <-> i < - Z.of_nat len \/ Z.of_nat len <= i.
Proof.
  destruct (position len i) as [j|] eqn:E.
  - apply position_Some in E. split; [discriminate | lia].
  - split; [intros _ | reflexivity].
    destruct (Z_lt_le_dec i (- Z.of_nat len)) as [?|Hl]; [now left|].
    destruct (Z_lt_le_dec i (Z.of_nat len)) as [Hu|?]; [|now right].
    exfalso. destruct (Z_lt_le_dec i 0).
    + assert (H : position len i = Some (Z.to_nat (i + Z.of_nat len))).
      { apply position_Some. lia. }
      congruence.
    + assert (H : position len i = Some (Z.to_nat i)).
      { apply position_Some. lia. }
      congruence.
Qed.

Lemma get_position {A : Type} (l : list A) (i : Z) (j : nat) :
  position (length l) i = Some j ->
  exists x : A, l !! j = Some x /\ get l i = Ok x.
Proof.
  intros H. unfold get. rewrite H. apply position_Some in H.
  destruct (lookup_lt_is_Some_2 l j ltac:(lia)) as [x Hx].
  exists x. now rewrite Hx.
Qed.

(** Exchanging two entries gives a permutation. *)
Lemma swap_one {A : Type} (l : list A) (j : nat) (a y : A) :
  l !! j = Some y -> y :: <[j := a]> l ≡ₚ a :: l.
Proof.
  revert j. induction l as [|b l IH]; intros [|j] H; try discriminate.
  - injection H as ->. apply Permutation_swap.
  - cbn in H. cbn [list_insert].
    etransitivity; [apply Permutation_swap|].
    etransitivity; [apply Permutation_skip, (IH j H)|]. apply Permutation_swap.
Qed.

Lemma swap_Permutation {A : Type} (l : list A) :
  forall (i j : nat) (x y : A),
    l !! i = Some x -> l !! j = Some y -> <[i := y]> (<[j := x]> l) ≡ₚ l.
Proof.
  induction l as [|a l IH]; intros [|i] [|j] x y Hi Hj; try discriminate; cbn in *.
  - injection Hi as ->. injection Hj as ->. reflexivity.
  - injection Hi as ->. now apply swap_one.
  - injection Hj as ->. now apply swap_one.
  - f_equiv. now apply IH.
Qed.

Lemma position_mod (len : nat) (i : Z) :
  - Z.of_nat len <= i < Z.of_nat len ->
  position len i = Some (Z.to_nat (i mod Z.of_nat len))
  /\ (Z.to_nat (i mod Z.of_nat len) < len)%nat.
Proof.
  intros H. assert (Hlen : 0 < Z.of_nat len) by lia.
  pose proof (Z.mod_pos_bound i (Z.of_nat len) Hlen) as Hm.
  split; [|lia]. apply position_Some. split; [lia|].
  rewrite Z2Nat.id by lia. destruct (Z_lt_le_dec i 0).
  - right. assert (Hq : i mod Z.of_nat len = i + Z.of_nat len).
    { symmetry. apply (Z.mod_unique i (Z.of_nat len) (-1)); lia. }
    lia.
  - left. rewrite Z.mod_small; lia.
Qed.

Definition move_signals : list signal :=
  [ScriptListChanged; SelectedIndexChanged; PropertyChanged "post_processing_plugin" "value"].

Lemma moveScript_valid (index new_index : Z) (m : manager) (i : nat) :
  0 <= new_index < Z.of_nat (length (script_list m)) ->
  position (length (script_list m)) index = Some i ->
  moveScript index new_index m
  = Ok (propertyChanged
          (emit [ScriptListChanged; SelectedIndexChanged]
             (with_script_list
                (<[i := default (Build_script "" "" None) (script_list m !! Z.to_nat new_index)]>
                   (<[Z.to_nat new_index :=
                        default (Build_script "" "" None) (script_list m !! i)]> (script_list m)))
                m)))
  /\ is_Some (script_list m !! i) /\ is_Some (script_list m !! Z.to_nat new_index).
Proof.
  intros Hnew Hi. unfold moveScript.
  destruct ((new_index <? 0) || (Z.of_nat (length (script_list m)) - 1 <? new_index)) eqn:E.
  { apply orb_true_iff in E. destruct E as [E|E]; apply Z.ltb_lt in E; lia. }
  assert (Hj : position (length (script_list m)) new_index = Some (Z.to_nat new_index)).
  { apply position_Some. lia. }
  destruct (get_position _ _ _ Hi) as [x [Hx Hgx]].
  destruct (get_position _ _ _ Hj) as [y [Hy Hgy]].
  rewrite Hgx, Hgy. cbn. unfold assign. rewrite Hj. cbn.
  rewrite length_insert, Hi. cbn. rewrite Hx, Hy. cbn. split; [reflexivity|].
  split; eauto.
Qed.

Lemma moveScript_outside (index new_index : Z) (m : manager) :
  new_index < 0 \/ Z.of_nat (length (script_list m)) <= new_index ->
  moveScript index new_index m = Ok m.
Proof.
  intros H. unfold moveScript.
  destruct ((new_index <? 0) || (Z.of_nat (length (script_list m)) - 1 <? new_index)) eqn:E;
    [reflexivity|].
  apply orb_false_iff in E. destruct E as [E1 E2].
  apply Z.ltb_ge in E1. apply Z.ltb_ge in E2. lia.
Qed.

Lemma moveScript_bad_index (index new_index : Z) (m : manager) :
  0 <= new_index < Z.of_nat (length (script_list m)) ->
  index < - Z.of_nat (length (script_list m))
  \/ Z.of_nat (length (script_list m)) <= index ->
  moveScript index new_index m = Raise IndexError.
Proof.
  intros Hnew Hidx. unfold moveScript.
  destruct ((new_index <? 0) || (Z.of_nat (length (script_list m)) - 1 <? new_index)) eqn:E.
  { apply orb_true_iff in E. destruct E as [E|E]; apply Z.ltb_lt in E; lia. }
  apply position_None in Hidx. unfold get. now rewrite Hidx.
Qed.

(** X1. [moveScript] exchanges two scripts. A [new_index] out of the list
    does nothing at all; an [index] out of the list raises [IndexError];
    otherwise the scripts at the two places are exchanged, a negative [index]
    counting from the end, every other script stays, and the selected index
    stays where it is. *)
Theorem moveScript_exchanges_two_scripts :
  (forall (index new_index : Z) (m : Manager.manager),
      new_index < 0 \/ Z.of_nat (length (Manager.script_list m)) <= new_index ->
      Manager.moveScript index new_index m = Ok m)
  /\ (forall (index new_index : Z) (m : Manager.manager),
        0 <= new_index < Z.of_nat (length (Manager.script_list m)) ->
        index < - Z.of_nat (length (Manager.script_list m))
        \/ Z.of_nat (length (Manager.script_list m)) <= index ->
        Manager.moveScript index new_index m = Raise IndexError)
  /\ (forall (index new_index : Z) (m : Manager.manager),
        let len := Z.of_nat (length (Manager.script_list m)) in
        let i := Z.to_nat (index mod len) in
        let j := Z.to_nat new_index in
        0 <= new_index < len -> - len <= index < len ->
        exists m' : Manager.manager,
          Manager.moveScript index new_index m = Ok m'
          /\ Manager.script_list m' !! j = Manager.script_list m !! i
          /\ Manager.script_list m' !! i = Manager.script_list m !! j
          /\ (forall k : nat, k <> i -> k <> j ->
                Manager.script_list m' !! k = Manager.script_list m !! k)
          /\ Manager.script_list m' ≡ₚ Manager.script_list m
          /\ Manager.selected_script_index m' = Manager.selected_script_index m
          /\ Manager.emitted m' = Manager.emitted m ++ move_signals).
Proof.
  split; [|split].
  - apply moveScript_outside.
  - apply moveScript_bad_index.
  - intros index new_index m len i j Hnew Hidx.
    destruct (position_mod (length (script_list m)) index Hidx) as [Hpos Hlt].
    fold len in Hpos. fold i in Hpos, Hlt.
    destruct (moveScript_valid index new_index m i Hnew Hpos) as [Heq [[x Hx] [y Hy]]].
    fold j in Heq, Hy. rewrite Hx, Hy in Heq. cbn [default] in Heq.
    eexists. split; [exact Heq|]. cbn.
    pose proof (lookup_lt_Some _ _ _ Hy) as Hj. pose proof (lookup_lt_Some _ _ _ Hx) as Hi.
    split; [|split; [|split; [|split; [|split]]]]; try reflexivity.
    + destruct (decide (i = j)) as [->|Hne].
      * rewrite list_lookup_insert_eq by (rewrite length_insert; lia). congruence.
      * rewrite list_lookup_insert_ne by exact Hne.
        rewrite list_lookup_insert_eq by lia. now rewrite Hx.
    + rewrite list_lookup_insert_eq by (rewrite length_insert; lia). now rewrite Hy.
    + intros k Hki Hkj. now rewrite !list_lookup_insert_ne by congruence.
    + now apply swap_Permutation.
    + now rewrite <- app_assoc.
Qed.

Definition two_scripts : manager :=
  {| loaded_scripts := ∅; script_labels := ∅;
     script_list := [Build_script "pause" "s1" (Some "PauseAtHeight");
                     Build_script "lcd" "s2" (Some "DisplayInfoOnLCD")];
     selected_script_index := 0; emitted := []; logged := [] |}.

Lemma moveScript_exchanges_two_scripts_witness :
  exists m' : Manager.manager,
    Manager.moveScript (-1) 0 two_scripts = Ok m'
    /\ Manager.script_list m' !! 0%nat = Manager.script_list two_scripts !! 1%nat
    /\ Manager.script_list m' !! 1%nat = Manager.script_list two_scripts !! 0%nat
    /\ (forall k : nat, k <> 1%nat -> k <> 0%nat ->
          Manager.script_list m' !! k = Manager.script_list two_scripts !! k)
    /\ Manager.script_list m' ≡ₚ Manager.script_list two_scripts
    /\ Manager.selected_script_index m' = Manager.selected_script_index two_scripts
    /\ Manager.emitted m' = Manager.emitted two_scripts ++ move_signals.
Proof.
  apply (proj2 (proj2 moveScript_exchanges_two_scripts) (-1) 0 two_scripts); cbn; lia.
Defined.

(** X2. Moving a script and moving it back. A second [moveScript] with the
    same arguments restores the list of scripts. *)
Theorem moveScript_twice_restores_the_list (index new_index : Z) (m m1 : Manager.manager) :
  Manager.moveScript index new_index m = Ok m1 ->
  exists m2 : Manager.manager,
    Manager.moveScript index new_index m1 = Ok m2
    /\ Manager.script_list m2 = Manager.script_list m.
Proof.
  intros H.
  destruct (Z_lt_le_dec new_index 0) as [Hneg|Hpos];
    [|destruct (Z_lt_le_dec new_index (Z.of_nat (length (script_list m)))) as [Hin|Hout]].
  - rewrite moveScript_outside in H by now left.
    injection H as <-. exists m.
    now rewrite moveScript_outside by now left.
  - destruct (position (length (script_list m)) index) as [i|] eqn:Hi.
    + destruct (moveScript_valid index new_index m i ltac:(lia) Hi)
        as [Heq [[x Hx] [y Hy]]].
      rewrite Heq in H. injection H as <-. rewrite Hx, Hy. cbn [default].
      set (j := Z.to_nat new_index) in *.
      set (l1 := <[i := y]> (<[j := x]> (script_list m))).
      assert (Hlen : length l1 = length (script_list m)).
      { unfold l1. now rewrite !length_insert. }
      pose proof (lookup_lt_Some _ _ _ Hx) as Hil.
      pose proof (lookup_lt_Some _ _ _ Hy) as Hjl.
      assert (H1i : l1 !! i = Some y).
      { unfold l1. apply list_lookup_insert_eq. now rewrite length_insert. }
      assert (H1j : l1 !! j = Some x).
      { unfold l1. destruct (decide (i = j)) as [->|Hne].
        - rewrite list_lookup_insert_eq by (now rewrite length_insert). congruence.
        - rewrite list_lookup_insert_ne by exact Hne. now apply list_lookup_insert_eq. }
      match goal with |- exists _, moveScript _ _ ?st = _ /\ _ => set (m1 := st) end.
      assert (Hl1 : script_list m1 = l1) by reflexivity.
      destruct (moveScript_valid index new_index m1 i) as [Heq2 _].
      { rewrite Hl1, Hlen. lia. }
      { now rewrite Hl1, Hlen. }
      fold j in Heq2. rewrite Hl1, H1i, H1j in Heq2. cbn [default] in Heq2.
      eexists. split; [exact Heq2|]. cbn. apply list_eq. intros k.
      destruct (decide (k = i)) as [->|Hki].
      * rewrite list_lookup_insert_eq by (rewrite length_insert; lia). now rewrite Hx.
      * rewrite list_lookup_insert_ne by congruence.
        destruct (decide (k = j)) as [->|Hkj].
        -- rewrite list_lookup_insert_eq by lia. now rewrite Hy.
        -- rewrite list_lookup_insert_ne by congruence. unfold l1.
           now rewrite !list_lookup_insert_ne by congruence.
    + apply position_None in Hi.
      rewrite moveScript_bad_index in H by lia. discriminate H.
  - rewrite moveScript_outside in H by now right.
    injection H as <-. exists m.
    now rewrite moveScript_outside by now right.
Qed.

Lemma moveScript_twice_restores_the_list_witness :
  exists m2 : Manager.manager,
    Manager.moveScript 1 0
      (propertyChanged
         (emit [ScriptListChanged; SelectedIndexChanged]
            (with_script_list [Build_script "lcd" "s2" (Some "DisplayInfoOnLCD");
                               Build_script "pause" "s1" (Some "PauseAtHeight")]
               two_scripts))) = Ok m2
    /\ Manager.script_list m2 = Manager.script_list two_scripts.
Proof.
  apply (moveScript_twice_restores_the_list 1 0 two_scripts). reflexivity.
Defined.

Lemma clamp_selected (m : manager) (n : Z) :
  (if n <? selected_script_index m then with_selected n m else m)
  = with_selected (Z.min (selected_script_index m) n) m.
Proof.
  destruct (Z.ltb_spec n (selected_script_index m)).
  - now rewrite Z.min_r by lia.
  - rewrite Z.min_l by lia. now destruct m.
Qed.

Lemma removeScriptByIndex_valid (index : Z) (m : manager) (j : nat) :
  position (length (script_list m)) index = Some j ->
  removeScriptByIndex index m
  = Ok (propertyChanged
          (emit [ScriptListChanged; SelectedIndexChanged]
             (with_selected
                (Z.min (selected_script_index m) (Z.of_nat (length (script_list m)) - 2))
                (with_script_list (delete j (script_list m)) m))))
  /\ length (delete j (script_list m)) = (length (script_list m) - 1)%nat
  /\ (0 < length (script_list m))%nat.
Proof.
  intros Hj. unfold removeScriptByIndex, pop. rewrite Hj.
  apply position_Some in Hj. destruct Hj as [Hlt _].
  destruct (lookup_lt_is_Some_2 (script_list m) j Hlt) as [x Hx].
  rewrite Hx. cbn.
  assert (Hlen : length (delete j (script_list m)) = (length (script_list m) - 1)%nat).
  { apply length_delete. eauto. }
  split; [|split; [exact Hlen | lia]]. rewrite Hlen.
  replace (Z.of_nat (length (script_list m) - 1) - 1)
    with (Z.of_nat (length (script_list m)) - 2) by lia.
  change (selected_script_index m)
    with (selected_script_index (with_script_list (delete j (script_list m)) m)) at 1.
  now rewrite clamp_selected.
Qed.

(** X3. [removeScriptByIndex]. An index out of the list raises [IndexError]
    (so does any index on an empty list). Otherwise the script at that place
    is taken out, a negative index counting from the end, and the selected
    index is lowered to the last place of the shorter list when it was
    beyond it: it ends below the length of the list. *)
Theorem removeScriptByIndex_keeps_the_selection_in_range :
  (forall (index : Z) (m : Manager.manager),
      index < - Z.of_nat (length (Manager.script_list m))
      \/ Z.of_nat (length (Manager.script_list m)) <= index ->
      Manager.removeScriptByIndex index m = Raise IndexError)
  /\ (forall (index : Z) (m : Manager.manager),
        let len := Z.of_nat (length (Manager.script_list m)) in
        - len <= index < len ->
        exists m' : Manager.manager,
          Manager.removeScriptByIndex index m = Ok m'
          /\ Manager.script_list m'
             = delete (Z.to_nat (index mod len)) (Manager.script_list m)
          /\ Z.of_nat (length (Manager.script_list m')) = len - 1
          /\ Manager.selected_script_index m'
             = Z.min (Manager.selected_script_index m) (len - 2)
          /\ Manager.selected_script_index m'
             < Z.of_nat (length (Manager.script_list m'))).
Proof.
  split.
  - intros index m H. apply position_None in H.
    unfold removeScriptByIndex, pop. now rewrite H.
  - intros index m len H.
    destruct (position_mod (length (script_list m)) index H) as [Hpos _].
    destruct (removeScriptByIndex_valid index m _ Hpos) as [Heq [Hlen Hne]].
    eexists. split; [exact Heq|]. cbn [script_list selected_script_index propertyChanged emit
                                         with_selected with_script_list].
    split; [reflexivity|]. rewrite Hlen. unfold len. split; [lia|]. split; [reflexivity | lia].
Qed.

Lemma removeScriptByIndex_keeps_the_selection_in_range_witness :
  exists m' : Manager.manager,
    Manager.removeScriptByIndex (-1) (with_selected 1 two_scripts) = Ok m'
    /\ Manager.script_list m'
       = delete (Z.to_nat ((-1) mod 2)) (Manager.script_list (with_selected 1 two_scripts))
    /\ Z.of_nat (length (Manager.script_list m')) = 2 - 1
    /\ Manager.selected_script_index m' = Z.min 1 (2 - 2)
    /\ Manager.selected_script_index m' < Z.of_nat (length (Manager.script_list m')).
Proof.
  apply (proj2 removeScriptByIndex_keeps_the_selection_in_range (-1)
           (with_selected 1 two_scripts)).
  cbn. lia.
Defined.

Definition add_signals : list signal :=
  [SelectedIndexChanged; ScriptListChanged; PropertyChanged "post_processing_plugin" "value"].

Lemma get_last {A : Type} (l : list A) (x : A) : get (l ++ [x]) (Z.of_nat (length l)) = Ok x.
Proof.
  unfold get.
  assert (H : position (length (l ++ [x])) (Z.of_nat (length l)) = Some (length l)).
  { apply position_Some. rewrite length_app. cbn. lia. }
  rewrite H. now rewrite list_lookup_middle.
Qed.

Lemma addScriptToList_loaded (key : string) (m : manager) (new_script : script) :
  loaded_scripts m !! key = Some (Ok new_script) ->
  addScriptToList key m
  = (propertyChanged
       (emit [ScriptListChanged]
          (setSelectedScriptIndex (Z.of_nat (length (script_list m)))
             (with_script_list (script_list m ++ [new_script])
                (log "d" ("Adding script " +:+ key +:+ " to list.") m)))), None).
Proof.
  intros H. unfold addScriptToList. cbn [loaded_scripts log]. rewrite H.
  cbn [script_list with_script_list]. rewrite length_app. cbn [length].
  change (script_list (log "d" ("Adding script " +:+ key +:+ " to list.") m))
    with (script_list m).
  replace (Z.of_nat (length (script_list m) + 1) - 1)
    with (Z.of_nat (length (script_list m))) by lia.
  reflexivity.
Qed.

(** X4. [addScriptToList]. A key that is not loaded raises [KeyError] and
    only the line logged is left; for a loaded key the new script goes to
    the end of the list and is the selected one. *)
Theorem addScriptToList_selects_the_new_script :
  (forall (key : string) (m : Manager.manager),
      Manager.loaded_scripts m !! key = None ->
      Manager.addScriptToList key m
      = (Manager.log "d" ("Adding script " +:+ key +:+ " to list.") m, Some KeyError))
  /\ (forall (key : string) (m : Manager.manager) (new_script : Manager.script),
        Manager.loaded_scripts m !! key = Some (Ok new_script) ->
        let m' := fst (Manager.addScriptToList key m) in
        snd (Manager.addScriptToList key m) = None
        /\ Manager.script_list m' = Manager.script_list m ++ [new_script]
        /\ Manager.selected_script_index m' = Z.of_nat (length (Manager.script_list m))
        /\ PyIndex.get (Manager.script_list m') (Manager.selected_script_index m')
           = Ok new_script
        /\ Manager.selectedScriptDefinitionId m' = Manager.definition_id new_script
        /\ Manager.selectedScriptStackId m' = Manager.stack_id new_script
        /\ Manager.emitted m' = Manager.emitted m ++ add_signals).
Proof.
  split.
  - intros key m H. unfold addScriptToList. cbn [loaded_scripts log].
    unfold script_class in *. now rewrite H.
  - intros key m new_script H. cbv zeta. rewrite (addScriptToList_loaded key m new_script H).
    cbn [fst snd]. unfold selectedScriptDefinitionId, selectedScriptStackId.
    cbn [script_list selected_script_index emitted propertyChanged emit setSelectedScriptIndex
         with_selected with_script_list log].
    rewrite get_last. rewrite <- !app_assoc. now repeat split.
Qed.

Definition one_loaded : manager :=
  {| loaded_scripts := {[ "DisplayInfoOnLCD" := Ok (Build_script "lcd" "s3" (Some "DisplayInfoOnLCD")) ]};
     script_labels := {[ "DisplayInfoOnLCD" := "Display Info on LCD" ]};
     script_list := [Build_script "pause" "s1" (Some "PauseAtHeight")];
     selected_script_index := 0; emitted := []; logged := [] |}.

Lemma addScriptToList_selects_the_new_script_witness :
  Manager.selectedScriptDefinitionId (fst (Manager.addScriptToList "DisplayInfoOnLCD" one_loaded))
  = "lcd".
Proof.
  apply (proj2 addScriptToList_selects_the_new_script "DisplayInfoOnLCD" one_loaded
           (Build_script "lcd" "s3" (Some "DisplayInfoOnLCD"))).
  reflexivity.
Defined.

(** X5. Adding a script and removing the last one. The list of scripts is
    the one before, but the selected index is not: it ends on the last
    script of the list (or at -1 when the list is empty), whatever was
    selected before. *)
Theorem removing_the_added_script_restores_the_list (key : string) (m : Manager.manager)
    (new_script : Manager.script) :
  Manager.loaded_scripts m !! key = Some (Ok new_script) ->
  exists m2 : Manager.manager,
    Manager.removeScriptByIndex (-1) (fst (Manager.addScriptToList key m)) = Ok m2
    /\ Manager.script_list m2 = Manager.script_list m
    /\ Manager.selected_script_index m2 = Z.of_nat (length (Manager.script_list m)) - 1.
Proof.
  intros H. rewrite (addScriptToList_loaded key m new_script H). cbn [fst].
  match goal with |- exists _, removeScriptByIndex _ ?st = _ /\ _ => set (m1 := st) end.
  assert (Hl : script_list m1 = script_list m ++ [new_script]) by reflexivity.
  assert (Hs : selected_script_index m1 = Z.of_nat (length (script_list m))) by reflexivity.
  destruct (removeScriptByIndex_valid (-1) m1 (length (script_list m))) as [Heq _].
  { apply position_Some. rewrite Hl, length_app. cbn. lia. }
  eexists. split; [exact Heq|].
  cbn [script_list selected_script_index propertyChanged emit with_selected with_script_list].
  rewrite Hl, Hs, length_app. cbn [length]. split; [|lia].
  rewrite delete_middle. apply app_nil_r.
Qed.

Lemma removing_the_added_script_restores_the_list_witness :
  exists m2 : Manager.manager,
    Manager.removeScriptByIndex (-1) (fst (Manager.addScriptToList "DisplayInfoOnLCD" one_loaded))
    = Ok m2
    /\ Manager.script_list m2 = Manager.script_list one_loaded
    /\ Manager.selected_script_index m2 = Z.of_nat (length (Manager.script_list one_loaded)) - 1.
Proof.
  apply (removing_the_added_script_restores_the_list "DisplayInfoOnLCD" one_loaded
           (Build_script "lcd" "s3" (Some "DisplayInfoOnLCD"))).
  reflexivity.
Defined.

(** The selected index is -1 or a place of the list. *)
Definition selection_in_range (m : manager) : Prop :=
  -1 <= selected_script_index m < Z.of_nat (length (script_list m)).

Lemma moveScript_frame (index new_index : Z) (m m' : manager) :
  moveScript index new_index m = Ok m' ->
  length (script_list m') = length (script_list m)
  /\ selected_script_index m' = selected_script_index m.
Proof.
  intros H.
  destruct (Z_lt_le_dec new_index 0) as [Hneg|Hpos];
    [|destruct (Z_lt_le_dec new_index (Z.of_nat (length (script_list m)))) as [Hin|Hout]].
  - rewrite moveScript_outside in H by now left. now injection H as <-.
  - destruct (position (length (script_list m)) index) as [i|] eqn:Hi.
    + destruct (moveScript_valid index new_index m i ltac:(lia) Hi) as [Heq _].
      rewrite Heq in H. injection H as <-. cbn. now rewrite !length_insert.
    + apply position_None in Hi. rewrite moveScript_bad_index in H by lia. discriminate H.
  - rewrite moveScript_outside in H by now right. now injection H as <-.
Qed.

(** X6. The selected index stays in range. Once it is -1 or a place of the
    list, [moveScript], [removeScriptByIndex] and [addScriptToList] leave it
    so; it then designates a script whenever the list is not empty, -1
    standing for the last script of the list, as a negative index of Python
    does. *)
Theorem selection_stays_in_range (m : Manager.manager) :
  selection_in_range m ->
  (forall (index new_index : Z) (m' : Manager.manager),
      Manager.moveScript index new_index m = Ok m' -> selection_in_range m')
  /\ (forall (index : Z) (m' : Manager.manager),
        Manager.removeScriptByIndex index m = Ok m' -> selection_in_range m')
  /\ (forall key : string, selection_in_range (fst (Manager.addScriptToList key m)))
  /\ (Manager.script_list m <> [] ->
      exists s : Manager.script,
        PyIndex.get (Manager.script_list m) (Manager.selected_script_index m) = Ok s
        /\ Manager.selectedScriptDefinitionId m = Manager.definition_id s
        /\ (Manager.selected_script_index m = -1 -> last (Manager.script_list m) = Some s)).
Proof.
  unfold selection_in_range. intros Hm. split; [|split; [|split]].
  - intros index new_index m' H. destruct (moveScript_frame _ _ _ _ H) as [-> ->]. exact Hm.
  - intros index m' H.
    destruct (position (length (script_list m)) index) as [j|] eqn:Hj.
    + destruct (removeScriptByIndex_valid index m j Hj) as [Heq [Hlen Hpos]].
      rewrite Heq in H. injection H as <-.
      cbn [script_list selected_script_index propertyChanged emit with_selected
           with_script_list].
      rewrite Hlen. lia.
    + unfold removeScriptByIndex, pop in H. rewrite Hj in H. discriminate H.
  - intros key. unfold addScriptToList. cbn [loaded_scripts log].
    destruct (loaded_scripts m !! key) as [[new_script|e]|]; cbn; try exact Hm.
    rewrite length_app. cbn. lia.
  - intros Hne.
    assert (Hlen : (0 < length (script_list m))%nat).
    { destruct (script_list m); [congruence | cbn; lia]. }
    destruct (position_mod (length (script_list m)) (selected_script_index m) ltac:(lia))
      as [Hpos _].
    destruct (get_position _ _ _ Hpos) as [s [Hs Hget]].
    exists s. split; [exact Hget|]. split.
    + unfold selectedScriptDefinitionId. now rewrite Hget.
    + intros Hsel. rewrite Hsel in Hs. rewrite last_lookup. rewrite <- Hs. f_equal.
      assert (Hq : (-1) mod Z.of_nat (length (script_list m))
                   = Z.of_nat (length (script_list m)) - 1).
      { symmetry. apply (Z.mod_unique _ _ (-1)); lia. }
      rewrite Hq. lia.
Qed.

Lemma selection_stays_in_range_witness :
  exists s : Manager.script,
    PyIndex.get (Manager.script_list (with_selected (-1) two_scripts))
      (Manager.selected_script_index (with_selected (-1) two_scripts)) = Ok s
    /\ Manager.selectedScriptDefinitionId (with_selected (-1) two_scripts)
       = Manager.definition_id s
    /\ (Manager.selected_script_index (with_selected (-1) two_scripts) = -1 ->
        last (Manager.script_list (with_selected (-1) two_scripts)) = Some s).
Proof.
  apply (proj2 (proj2 (proj2 (selection_stays_in_range (with_selected (-1) two_scripts)
                                ltac:(unfold selection_in_range; cbn; lia))))).
  discriminate.
Defined.

End ManagerFacts.

(** ** The sections of the document *)

(** One step through a sequence of binds in [H]: the first computation
    returns [x], or [H] is absurd. *)
Ltac bind_step H x E :=
  match type of H with
  | context [mbind _ ?c] =>
      destruct c as [x|] eqn:E; cbn [mbind result_bind] in H; [|discriminate H]
  end.

Section SectionCountFacts.

Import PyStr LCD.

Context `{host : Host}.

Lemma append_to_last_length (text : string) (d d' : list string) :
  append_to_last text d = Ok d' -> length d' = length d.
Proof.
  unfold append_to_last. destruct (d !! (length d - 1)%nat); [|discriminate].
  cbn. destruct (Nat.eqb (length d) 0); [discriminate|].
  intros [= <-]. apply length_insert.
Qed.

Lemma time_line_length (s : settings) (sf : PyFloat.float) (line : string)
    (lines lines' : list string) (d d' : list string) :
  time_line s sf line lines d = Ok (lines', d') -> length d' = length d.
Proof.
  unfold time_line. intros H.
  bind_step H tindex E1. bind_step H cura_time E2.
  bind_step H adjusted E3. destruct adjusted as [hr mmm].
  bind_step H original E4. destruct original as [ohr ommm].
  bind_step H d1 E5. apply append_to_last_length in E5. rewrite length_insert in E5.
  destruct (add_m118_line s).
  - bind_step H d2 E6. apply append_to_last_length in E6.
    injection H as _ <-. congruence.
  - injection H as _ <-. congruence.
Qed.

Lemma time_lines_length (s : settings) (sf : PyFloat.float) (fuel : nat) :
  forall (i : nat) (lines d : list string) (r : result unit) (d' : list string),
    time_lines fuel s sf i lines d = Ends r d' -> length d' = length d.
Proof.
  induction fuel as [|fuel IH]; intros i lines d r d' H; [discriminate|].
  cbn [time_lines] in H. destruct (lines !! i) as [line|]; [|now injection H as _ <-].
  destruct (startswith line ";TIME:"); [|now apply IH in H].
  destruct (time_line s sf line lines d) as [[lines1 d1]|e] eqn:E.
  - apply IH in H. apply time_line_length in E. congruence.
  - now injection H as _ <-.
Qed.

Lemma relocate_end_marker_length (d d' : list string) :
  relocate_end_marker d = Ok d' -> length d' = length d.
Proof.
  unfold relocate_end_marker. destruct (d !! (length d - 1)%nat); [|discriminate].
  cbn. destruct (Nat.eqb (length d) 0); [discriminate|].
  intros [= <-]. apply length_insert.
Qed.

Lemma name_sections_length (fuel : nat) (s : settings) (fn : string) (positions : list nat) :
  forall (mx : option string) (i : Z) (d : list string),
    length (snd (name_sections fuel s fn positions mx i d)) = length d.
Proof.
  induction positions as [|k positions IH]; intros mx i d; [reflexivity|].
  cbn [name_sections]. unfold name_section.
  destruct (d !! k) as [layer|]; [|apply IH].
  destruct (PyList.index d layer) as [layer_index|]; [|reflexivity].
  destruct (name_lines fuel s fn 0 _) as [[st|e]|]; try reflexivity.
  rewrite IH. apply length_insert.
Qed.

Lemma end_message_data (s : settings) (ttl : string) (sf : PyFloat.float) (d : list string) :
  data_after (end_message s ttl sf d) = d.
Proof.
  unfold end_message. destruct (enable_end_message s); [|reflexivity].
  now destruct (message_to_user s sf).
Qed.

(** X9. [execute] never adds or removes a section: the list [data] has the
    same length when the call ends, however it ends. *)
Theorem execute_keeps_the_number_of_sections (fuel : nat) (s : LCD.settings)
    (data : list string) :
  length (LCD.data_after (LCD.execute fuel s data)) = length data.
Proof.
  unfold execute.
  destruct (String.eqb (display_option s) "filename_layer").
  - unfold filename_layer.
    pose proof (name_sections_length fuel s (shown_name s) (seq 0 (length data)) None
                  (startNum s) data) as H.
    destruct (name_sections fuel s (shown_name s) (seq 0 (length data)) None (startNum s) data)
      as [[| |] d]; cbn in H; cbn; [|exact H|exact H].
    now rewrite end_message_data.
  - destruct (String.eqb (display_option s) "display_progress"); [|reflexivity].
    unfold display_progress, insert_estimates.
    destruct (data !! 0%nat) as [first|]; [|reflexivity].
    destruct (time_lines fuel s _ 0 _ data) as [r d1|] eqn:E1; [|reflexivity].
    apply time_lines_length in E1. destruct r as [[]|e]; [|exact E1].
    destruct (relocate_end_marker d1) as [d2|e] eqn:E2; [|exact E1].
    apply relocate_end_marker_length in E2.
    destruct (find_totals d2) as [t|e]; [|cbn; congruence].
    destruct (annotate_layers s _ t d2) as [st r] eqn:E3.
    assert (H3 : length (LCD.data st) = length d2).
    { rewrite annotate_layers_eq in E3.
      now destruct (layer_loop_frame _ _ _ _ _ _ _ E3) as [H _]. }
    destruct r as [e|]; [cbn; congruence|].
    destruct (countdown_to_pause s).
    + pose proof (proj1 (countdown_frame (PyFloat.quot (speed_factor s) (PyFloat.of_Z 100))
                           (LCD.data st))) as H4.
      destruct (countdown_to_pauses _ (LCD.data st)) as [d4 [e|]]; cbn in H4; cbn;
        [congruence|]. rewrite end_message_data. congruence.
    + rewrite end_message_data. congruence.
Qed.

End SectionCountFacts.

(** ** Lines that stand twice *)

Section RepeatedLineFacts.

Import PyStr LCD.

Context `{host : Host}.

(** [l.index(x)] is the first place of [x]. *)
Lemma index_first (l : list string) (x : string) (t : nat) :
  PyList.index l x = Some t ->
  l !! t = Some x /\ forall p : nat, (p < t)%nat -> l !! p <> Some x.
Proof.
  revert t. induction l as [|y l IH]; intros t H; [discriminate|].
  cbn [PyList.index] in H. destruct (String.eqb y x) eqn:E.
  - injection H as <-. apply String.eqb_eq in E. subst y.
    split; [reflexivity | intros p Hp; lia].
  - destruct (PyList.index l x) as [t'|]; [|discriminate]. injection H as <-.
    destruct (IH t' eq_refl) as [Hl Hfirst]. split; [exact Hl|].
    intros [|p] Hp; cbn.
    + intros [= ->]. now rewrite String.eqb_refl in E.
    + apply Hfirst. lia.
Qed.

(** Lines put in after the place [t]: the lines up to [t] stay where they
    are, the lines after it move up. *)
Definition put_after (t : nat) (new lines : list string) : list string :=
  take (S t) lines ++ new ++ drop (S t) lines.

Lemma insert_at_put_after (t : nat) (x : string) (new lines : list string) :
  (t < length lines)%nat ->
  PyList.insert_at (t + 1) x (put_after t new lines) = put_after t (x :: new) lines.
Proof.
  intros Ht. unfold PyList.insert_at, put_after.
  assert (Hlen : (t + 1)%nat = length (take (S t) lines)) by (rewrite length_take; lia).
  rewrite take_app_length' by exact Hlen. rewrite drop_app_length' by exact Hlen.
  reflexivity.
Qed.

Lemma insert_at_put_after_second (t : nat) (x y : string) (new lines : list string) :
  (t < length lines)%nat ->
  PyList.insert_at (t + 2) y (put_after t (x :: new) lines) = put_after t (x :: y :: new) lines.
Proof.
  intros Ht. unfold PyList.insert_at, put_after.
  assert (Hlen : (t + 2)%nat = length (take (S t) lines ++ [x])).
  { rewrite length_app, length_take_le by lia. cbn. lia. }
  change (take (S t) lines ++ (x :: new) ++ drop (S t) lines)
    with (take (S t) lines ++ [x] ++ (new ++ drop (S t) lines)).
  rewrite (app_assoc _ [x]).
  rewrite take_app_length' by exact Hlen. rewrite drop_app_length' by exact Hlen.
  rewrite <- app_assoc. reflexivity.
Qed.

Lemma put_after_nil (t : nat) (lines : list string) : put_after t [] lines = lines.
Proof. unfold put_after. apply take_drop. Qed.

Lemma put_after_low (t : nat) (new lines : list string) (p : nat) :
  (t < length lines)%nat -> (p <= t)%nat -> put_after t new lines !! p = lines !! p.
Proof.
  intros Ht Hp. unfold put_after.
  rewrite lookup_app_l by (rewrite length_take; lia). apply lookup_take_lt. lia.
Qed.

Lemma put_after_high (t : nat) (new lines : list string) (p : nat) :
  (t < length lines)%nat -> (t < p)%nat ->
  put_after t new lines !! (p + length new)%nat = lines !! p.
Proof.
  intros Ht Hp. unfold put_after.
  rewrite lookup_app_r by (rewrite length_take; lia).
  rewrite lookup_app_r by (rewrite length_take; lia).
  rewrite lookup_drop, length_take. f_equal. lia.
Qed.

(** What a [";TIME:"] line does to [lines]: two or three lines go in after
    the first line equal to it. *)
Lemma time_line_lines (s : settings) (sf : PyFloat.float) (line : string)
    (lines lines' d d' : list string) :
  time_line s sf line lines d = Ok (lines', d') ->
  exists (t : nat) (new : list string),
    PyList.index lines line = Some t
    /\ lines' = put_after t new lines
    /\ (0 < length new)%nat.
Proof.
  unfold time_line. intros H.
  bind_step H tindex E1. bind_step H cura_time E2.
  bind_step H adjusted E3. destruct adjusted as [hr mmm].
  bind_step H original E4. destruct original as [ohr ommm].
  bind_step H d1 E5.
  assert (Ht : PyList.index lines line = Some tindex).
  { destruct (PyList.index lines line); [now injection E1 as -> | discriminate]. }
  destruct (index_first _ _ _ Ht) as [Hl _]. apply lookup_lt_Some in Hl.
  exists tindex. rewrite <- (put_after_nil tindex lines) in H.
  destruct (add_m118_line s).
  - bind_step H d2 E6. cbv beta iota zeta in H.
    rewrite !insert_at_put_after in H by exact Hl.
    injection H as <- _. eexists. split; [exact Ht|]. split; [reflexivity | cbn; lia].
  - cbv beta iota zeta in H. rewrite !insert_at_put_after in H by exact Hl.
    injection H as <- _. eexists. split; [exact Ht|]. split; [reflexivity | cbn; lia].
Qed.

(** A line that starts with [mark] and stands at two places, the later one
    not yet passed by the loop. *)
Definition repeated_ahead (mark : string) (i : nat) (lines : list string) : Prop :=
  exists (j0 j : nat) (T : string),
    (j0 < j)%nat /\ (i <= j)%nat /\ lines !! j0 = Some T /\ lines !! j = Some T
    /\ startswith T mark = true.

(** Lines put in after the first line equal to the current one keep such a
    line ahead of the loop. *)
Lemma repeated_ahead_put_after (mark : string) (i t : nat) (line : string)
    (new lines : list string) :
  repeated_ahead mark i lines -> lines !! i = Some line ->
  PyList.index lines line = Some t -> (0 < length new)%nat ->
  repeated_ahead mark (S i) (put_after t new lines).
Proof.
  intros (j0 & j & T & Hlt & Hij & H0 & Hj & HT) Hi Ht Hnew.
  destruct (index_first _ _ _ Ht) as [Hlt' Hfirst].
  pose proof (lookup_lt_Some _ _ _ Hlt') as Hbound.
  assert (Hti : (t <= i)%nat).
  { destruct (decide (t <= i)%nat) as [?|Hn]; [assumption|].
    exfalso. apply (Hfirst i); [lia | exact Hi]. }
  assert (Hjt : (t < j)%nat).
  { destruct (decide (t < j)%nat) as [?|Hn]; [assumption|].
    assert (j = i) by lia. subst j. assert (t = i) by lia. subst t.
    exfalso. apply (Hfirst j0 Hlt). congruence. }
  destruct (decide (j0 <= t)%nat) as [Hlow|Hhigh].
  - exists j0, (j + length new)%nat, T.
    split; [lia|]. split; [lia|]. split; [|split; [|exact HT]].
    + now rewrite put_after_low.
    + now rewrite put_after_high.
  - exists (j0 + length new)%nat, (j + length new)%nat, T.
    split; [lia|]. split; [lia|]. split; [|split; [|exact HT]].
    + rewrite put_after_high; [exact H0 | exact Hbound | lia].
    + now rewrite put_after_high.
Qed.

Lemma repeated_ahead_next (mark : string) (i : nat) (line : string) (lines : list string) :
  repeated_ahead mark i lines -> lines !! i = Some line -> startswith line mark = false ->
  repeated_ahead mark (S i) lines.
Proof.
  intros (j0 & j & T & Hlt & Hij & H0 & Hj & HT) Hi Hline.
  exists j0, j, T. repeat split; try assumption.
  destruct (decide (j = i)) as [->|Hne]; [congruence | lia].
Qed.

Lemma repeated_ahead_inside (mark : string) (i : nat) (lines : list string) :
  repeated_ahead mark i lines -> is_Some (lines !! i).
Proof.
  intros (j0 & j & T & Hlt & Hij & H0 & Hj & HT).
  apply lookup_lt_is_Some_2. apply lookup_lt_Some in Hj. lia.
Qed.

(** With such a line the loop over the lines never ends well. *)
Lemma time_lines_repeated (s : settings) (sf : PyFloat.float) (fuel : nat) :
  forall (i : nat) (lines d d' : list string),
    repeated_ahead ";TIME:" i lines ->
    time_lines fuel s sf i lines d <> Ends (Ok ()) d'.
Proof.
  induction fuel as [|fuel IH]; intros i lines d d' Hrep; [discriminate|].
  cbn [time_lines]. destruct (repeated_ahead_inside _ _ _ Hrep) as [line Hi]. rewrite Hi.
  destruct (startswith line ";TIME:") eqn:Hline.
  - destruct (time_line s sf line lines d) as [[lines1 d1]|e] eqn:E; [|discriminate].
    apply IH. destruct (time_line_lines _ _ _ _ _ _ _ E) as (t & new & Ht & -> & Hnew).
    now apply repeated_ahead_put_after with line.
  - apply IH. now apply repeated_ahead_next with line.
Qed.

(** X10. A [";TIME:"] line that stands twice in the first section. The loop
    over the lines of that section puts its lines in after the first of the
    two and so never gets past the second: in the display of the progress,
    [execute] does not return, whatever the number of steps it is given; it
    runs on, or raises. *)
Theorem repeated_time_line_never_returns (fuel : nat) (s : LCD.settings)
    (data : list string) (first T : string) (j0 j : nat) :
  LCD.display_option s = "display_progress" ->
  data !! 0%nat = Some first ->
  (j0 < j)%nat ->
  PyStr.split first PyStr.nl_char !! j0 = Some T ->
  PyStr.split first PyStr.nl_char !! j = Some T ->
  PyStr.startswith T ";TIME:" = true ->
  LCD.ended (LCD.execute fuel s data) <> LCD.Returns.
Proof.
  intros Hopt Hfirst Hlt H0 Hj HT. unfold execute. rewrite Hopt. cbn [String.eqb].
  change (String.eqb "display_progress" "filename_layer") with false.
  change (String.eqb "display_progress" "display_progress") with true. cbv iota.
  unfold display_progress, insert_estimates. rewrite Hfirst.
  pose proof (time_lines_repeated s (PyFloat.quot (speed_factor s) (PyFloat.of_Z 100)) fuel 0
                (split first nl_char) data) as Hnever.
  destruct (time_lines fuel s _ 0 _ data) as [[[]|e] d1|]; try discriminate.
  exfalso. apply (Hnever d1); [|reflexivity].
  exists j0, j, T. repeat split; try assumption. lia.
Qed.

(** What a line does to [lines] in the display of the file name: a line
    that starts with [";LAYER:"] has one or two lines put in after the first
    line equal to it; another line changes nothing. *)
Lemma name_line_lines (s : settings) (fn line : string) (st st' : naming) :
  name_line s fn line st = Ok st' ->
  if startswith line ";LAYER:" then
    exists (t : nat) (new : list string),
      PyList.index (lines st) line = Some t
      /\ lines st' = put_after t new (lines st)
      /\ (0 < length new)%nat
  else lines st' = lines st.
Proof.
  unfold name_line. intros H. bind_step H mx E1.
  destruct (startswith line ";LAYER:").
  - bind_step H shown_line E2. bind_step H line_index E3.
    assert (Ht : PyList.index (lines st) line = Some line_index).
    { destruct (PyList.index (lines st) line); [now injection E3 as -> | discriminate]. }
    destruct (index_first _ _ _ Ht) as [Hl _]. apply lookup_lt_Some in Hl.
    exists line_index. rewrite <- (put_after_nil line_index (lines st)) in H.
    rewrite insert_at_put_after in H by exact Hl.
    destruct (add_m118_line s).
    + rewrite insert_at_put_after_second in H by exact Hl.
      injection H as <-. cbn [lines]. eexists. split; [exact Ht|].
      split; [reflexivity | cbn; lia].
    + injection H as <-. cbn [lines]. eexists. split; [exact Ht|].
      split; [reflexivity | cbn; lia].
  - now injection H as <-.
Qed.

Lemma name_lines_repeated (s : settings) (fn : string) (fuel : nat) :
  forall (pos : nat) (st st' : naming),
    repeated_ahead ";LAYER:" pos (lines st) ->
    name_lines fuel s fn pos st <> Some (Ok st').
Proof.
  induction fuel as [|fuel IH]; intros pos st st' Hrep; [discriminate|].
  cbn [name_lines]. destruct (repeated_ahead_inside _ _ _ Hrep) as [line Hi]. rewrite Hi.
  destruct (name_line s fn line st) as [st1|e] eqn:E; [|discriminate].
  apply IH. pose proof (name_line_lines _ _ _ _ _ E) as Hl.
  destruct (startswith line ";LAYER:") eqn:Hline.
  - destruct Hl as (t & new & Ht & -> & Hnew). now apply repeated_ahead_put_after with line.
  - rewrite Hl. now apply repeated_ahead_next with line.
Qed.

(** The loop over the sections reaches the section [k] as it was at the
    start: a turn writes at or before its own place. *)
Lemma name_sections_repeated (s : settings) (fn section : string) (fuel k : nat) :
  repeated_ahead ";LAYER:" 0 (split section nl_char) ->
  forall (n a : nat) (mx : option string) (i : Z) (d : list string),
    (a <= k < a + n)%nat -> d !! k = Some section ->
    fst (name_sections fuel s fn (seq a n) mx i d) <> Returns.
Proof.
  intros Hrep. induction n as [|n IH]; intros a mx i d Hk Hd; [lia|].
  cbn [seq name_sections]. unfold name_section.
  destruct (d !! a) as [layer|] eqn:Ha.
  - destruct (PyList.index d layer) as [layer_index|] eqn:Hidx; [|discriminate].
    destruct (name_lines fuel s fn 0 _) as [[st|e]|] eqn:Hlines; try discriminate.
    destruct (decide (a = k)) as [->|Hne].
    + exfalso. assert (layer = section) by congruence. subst layer.
      revert Hlines. now apply name_lines_repeated.
    + apply IH; [lia|].
      destruct (index_first _ _ _ Hidx) as [_ Hfirst].
      rewrite list_lookup_insert_ne; [exact Hd|].
      intros ->. apply (Hfirst a); [lia | exact Ha].
  - apply lookup_ge_None in Ha. apply lookup_lt_Some in Hd. lia.
Qed.

(** X11. A [";LAYER:"] line that stands twice in a section. In the display of
    the file name, the loop over the lines of that section never gets past
    the second of the two: [execute] does not return, whatever the number of
    steps it is given; it runs on, or raises. *)
Theorem repeated_layer_line_never_returns (fuel : nat) (s : LCD.settings)
    (data : list string) (k : nat) (section T : string) (j0 j : nat) :
  LCD.display_option s = "filename_layer" ->
  data !! k = Some section ->
  (j0 < j)%nat ->
  PyStr.split section PyStr.nl_char !! j0 = Some T ->
  PyStr.split section PyStr.nl_char !! j = Some T ->
  PyStr.startswith T ";LAYER:" = true ->
  LCD.ended (LCD.execute fuel s data) <> LCD.Returns.
Proof.
  intros Hopt Hk Hlt H0 Hj HT. unfold execute. rewrite Hopt.
  change (String.eqb "filename_layer" "filename_layer") with true. cbv iota.
  unfold filename_layer.
  pose proof (name_sections_repeated s (shown_name s) section fuel k) as Hnever.
  specialize (Hnever ltac:(exists j0, j, T; repeat split; try assumption; lia)).
  specialize (Hnever (length data) 0%nat None (startNum s) data).
  pose proof (lookup_lt_Some _ _ _ Hk) as Hlen.
  specialize (Hnever ltac:(lia) Hk).
  destruct (name_sections fuel s (shown_name s) (seq 0 (length data)) None (startNum s) data)
    as [[| |] d]; cbn in Hnever; [congruence | discriminate | discriminate].
Qed.

End RepeatedLineFacts.

Definition twice_timed : list string :=
  [ gcode [";FLAVOR:Marlin"; ";TIME:3600"; ";Filament used: 1m"; ";TIME:3600"; ""];
    gcode ["G28"; ";LAYER_COUNT:1"; ""];
    gcode [";LAYER:0"; "G1 X1"; ""];
    gcode ["M104 S0"; ""] ].

Lemma repeated_time_line_never_returns_witness :
  LCD.ended (@LCD.execute example_host 1000 example_settings twice_timed) <> LCD.Returns.
Proof.
  apply (@repeated_time_line_never_returns example_host 1000 example_settings twice_timed
           (gcode [";FLAVOR:Marlin"; ";TIME:3600"; ";Filament used: 1m"; ";TIME:3600"; ""])
           ";TIME:3600" 1 3); try reflexivity. lia.
Defined.

Definition twice_marked : list string :=
  [ gcode [";FLAVOR:Marlin"; ""];
    gcode [";LAYER:0"; "G1 X1"; ";LAYER:0"; "G1 X2"; ""];
    gcode ["M104 S0"; ""] ].

Lemma repeated_layer_line_never_returns_witness :
  LCD.ended (@LCD.execute example_host 1000 filename_settings twice_marked) <> LCD.Returns.
Proof.
  apply (@repeated_layer_line_never_returns example_host 1000 filename_settings twice_marked 1
           (gcode [";LAYER:0"; "G1 X1"; ";LAYER:0"; "G1 X2"; ""]) ";LAYER:0" 0 2);
    try reflexivity. lia.
Defined.

(** ** The entered start time *)

Section StartTimeFacts.

Import PyStr LCD.

Context `{host : Host}.

Lemma split_aux_length (sep : ascii) (s : string) :
  forall cur : string, (1 <= length (split_aux sep cur s))%nat.
Proof.
  induction s as [|c rest IH]; intros cur; cbn [split_aux]; [cbn; lia|].
  destruct (Ascii.eqb c sep); [cbn; lia | apply IH].
Qed.

(** A text that holds the separator has at least two fields. *)
Lemma split_two_fields (sep : ascii) (s : string) :
  contains (String sep "") s = true ->
  forall cur : string, (2 <= length (split_aux sep cur s))%nat.
Proof.
  induction s as [|c rest IH]; intros H cur; [discriminate|].
  cbn [contains] in H. rewrite prefix_cons, prefix_empty, andb_true_r in H.
  cbn [split_aux]. destruct (Ascii.eqb c sep).
  - cbn [length]. pose proof (split_aux_length sep rest ""). lia.
  - apply IH. exact H.
Qed.

Lemma entered_start_time_checked (entered : string) :
  len entered = 5%nat -> contains ":" entered = true ->
  checked_start_time entered = entered /\ String.eqb entered "" = false.
Proof.
  intros Hlen Hcolon.
  assert (He : String.eqb entered "" = false).
  { destruct (String.eqb_spec entered ""); [subst; discriminate | reflexivity]. }
  assert (H0 : String.eqb entered "0" = false).
  { destruct (String.eqb_spec entered "0"); [subst; discriminate | reflexivity]. }
  unfold checked_start_time. rewrite He, H0, Hlen, Hcolon. now split.
Qed.

(** X12. An entered start time that is not a time of the day. An entry of
    five characters with a colon is taken as it is; unless its first two
    fields read as an hour from 0 to 23 and a minute from 0 to 59,
    [message_to_user] raises [ValueError] (from [int] or from [datetime]):
    the entry is not ignored. *)
Theorem start_time_out_of_range_raises (s : LCD.settings) (speed_factor : PyFloat.float)
    (entered : string) :
  PyStr.len entered = 5%nat ->
  PyStr.contains ":" entered = true ->
  ~ (exists hr mi : Z,
       PyStr.split entered LCD.colon !! 0%nat ≫= PyParse.int_of_str = Some hr
       /\ PyStr.split entered LCD.colon !! 1%nat ≫= PyParse.int_of_str = Some mi
       /\ 0 <= hr <= 23 /\ 0 <= mi <= 59) ->
  LCD.message_to_user (with_start_time s entered) speed_factor = Raise ValueError.
Proof.
  intros Hlen Hcolon Hbad.
  destruct (entered_start_time_checked entered Hlen Hcolon) as [Hchecked He].
  pose proof (split_two_fields colon entered Hcolon "") as Hfields.
  fold (split entered colon) in Hfields.
  destruct (lookup_lt_is_Some_2 (split entered colon) 0 ltac:(lia)) as [h Hh].
  destruct (lookup_lt_is_Some_2 (split entered colon) 1 ltac:(lia)) as [m Hm].
  rewrite Hh, Hm in Hbad. cbn [mbind option_bind] in Hbad.
  unfold message_to_user. cbn [print_start_time with_start_time]. rewrite Hchecked.
  unfold start_instant, field1, parse_int. rewrite He, Hh, Hm. cbn [negb or_raise mbind result_bind].
  destruct (PyParse.int_of_str h) as [hr|]; [|reflexivity]. cbn [negb or_raise mbind result_bind].
  destruct (PyParse.int_of_str m) as [mi|]; [|reflexivity]. cbn [negb or_raise mbind result_bind].
  unfold datetime_new.
  match goal with |- context [if ?c then _ else _] => destruct c eqn:E end; [|reflexivity].
  exfalso. apply Hbad. exists hr, mi.
  repeat (apply andb_true_iff in E; destruct E as [E ?]).
  repeat match goal with H : (_ <=? _) = true |- _ => apply Z.leb_le in H end.
  repeat split; try reflexivity; lia.
Qed.

End StartTimeFacts.

Lemma start_time_out_of_range_raises_witness :
  @LCD.message_to_user example_host (with_start_time example_settings "24:00") (PyFloat.of_Z 1)
  = Raise ValueError.
Proof.
  apply (@start_time_out_of_range_raises example_host example_settings (PyFloat.of_Z 1) "24:00").
  - reflexivity.
  - reflexivity.
  - intros (hr & mi & Hh & Hm & Hhr & Hmi). vm_compute in Hh. injection Hh as <-. lia.
Defined.

(** ** A layer before the layer count *)

Section MissingCountFacts.

Import PyStr LCD.

Context `{host : Host}.

(** Joining the lines of a text gives the text back. *)
Lemma join_split_aux (s : string) :
  forall cur : string, join nl (split_aux nl_char cur s) = cur +:+ s.
Proof.
  induction s as [|c rest IH]; intros cur; cbn [split_aux].
  - cbn. now rewrite append_empty_r.
  - destruct (Ascii.eqb c nl_char) eqn:E.
    + apply Ascii.eqb_eq in E. subst c.
      pose proof (split_aux_length nl_char rest "") as Hlen.
      specialize (IH ""). destruct (split_aux nl_char "" rest) as [|y l]; [cbn in Hlen; lia|].
      rewrite join_cons, IH. reflexivity.
    + rewrite IH. now rewrite append_assoc.
Qed.

Lemma join_split (s : string) : join nl (split s nl_char) = s.
Proof. unfold split. now rewrite join_split_aux. Qed.

Lemma index_exists (d : list string) (x : string) (k : nat) :
  d !! k = Some x -> exists idx : nat, PyList.index d x = Some idx /\ d !! idx = Some x.
Proof.
  revert k. induction d as [|y d IH]; intros k H; [discriminate|].
  cbn [PyList.index]. destruct (String.eqb_spec y x) as [->|Hne].
  - now exists 0%nat.
  - destruct k as [|k]; [cbn in H; congruence|]. cbn in H.
    destruct (IH k H) as [idx [Hi Hl]]. exists (S idx). rewrite Hi. now split.
Qed.

(** A section of plain lines is passed over: nothing changes. *)
Lemma name_section_plain (fuel : nat) (s : settings) (fn sec : string) (k : nat)
    (mx : option string) (i : Z) (d : list string) :
  d !! k = Some sec ->
  Forall is_plain (split sec nl_char) ->
  (length (split sec nl_char) < fuel)%nat ->
  name_section fuel s fn k mx i d = Some (Ok (mx, i, d)).
Proof.
  intros Hk Hplain Hfuel. unfold name_section. rewrite Hk.
  destruct (index_exists d sec k Hk) as [idx [Hidx Hl]]. rewrite Hidx.
  rewrite name_lines_plain.
  - cbn [lines max_layer LCD.i]. rewrite join_split. now rewrite list_insert_id.
  - cbn [lines]. intros j line _ Hj. rewrite Forall_forall in Hplain.
    apply Hplain. eapply list_elem_of_lookup_2, Hj.
  - cbn [lines]. lia.
  - lia.
Qed.

Lemma name_sections_plain (fuel : nat) (s : settings) (fn : string) (before : list string) :
  forall (a : nat) (rest : list nat) (mx : option string) (i : Z) (d : list string),
    (forall (k : nat) (sec : string), before !! k = Some sec -> d !! (a + k)%nat = Some sec) ->
    Forall (fun sec => Forall is_plain (split sec nl_char)
                       /\ (length (split sec nl_char) < fuel)%nat) before ->
    name_sections fuel s fn (seq a (length before) ++ rest) mx i d
    = name_sections fuel s fn rest mx i d.
Proof.
  induction before as [|sec before IH]; intros a rest mx i d Hd Hplain; [reflexivity|].
  apply Forall_cons_1 in Hplain. destruct Hplain as [[Hsec Hfuel] Hplain].
  cbn [length seq app name_sections].
  rewrite (name_section_plain fuel s fn sec a mx i d).
  - apply IH; [|exact Hplain]. intros k x Hk.
    replace (S a + k)%nat with (a + S k)%nat by lia. now apply Hd.
  - rewrite <- (Nat.add_0_r a). now apply Hd.
  - exact Hsec.
  - exact Hfuel.
Qed.

(** X13. A layer before any layer count. In the display of the file name with
    the maximum layer shown, when the first line that starts with
    [";LAYER:"] comes before any line that starts with [";LAYER_COUNT:"],
    [execute] raises [TypeError] (the count is still the integer 0, which
    does not concatenate to a string) and leaves the document as it was. *)
Theorem layer_before_count_raises_TypeError (fuel : nat) (s : LCD.settings)
    (before after pre post : list string) (section marker : string) :
  LCD.display_option s = "filename_layer" ->
  LCD.maxlayer s = true ->
  Forall (fun sec => Forall is_plain (PyStr.split sec PyStr.nl_char)
                     /\ (length (PyStr.split sec PyStr.nl_char) < fuel)%nat) before ->
  PyStr.split section PyStr.nl_char = pre ++ marker :: post ->
  Forall is_plain pre ->
  PyStr.startswith marker ";LAYER:" = true ->
  (length pre < fuel)%nat ->
  LCD.execute fuel s (before ++ section :: after)
  = {| LCD.ended := LCD.Raises TypeError;
       LCD.data_after := before ++ section :: after;
       LCD.shown := [] |}.
Proof.
  intros Hopt Hmax Hbefore Hsplit Hpre Hmarker Hfuel.
  unfold execute. rewrite Hopt.
  change (String.eqb "filename_layer" "filename_layer") with true. cbv iota.
  unfold filename_layer. set (d := before ++ section :: after).
  assert (Hseq : seq 0 (length d)
                 = seq 0 (length before) ++ length before :: seq (S (length before)) (length after)).
  { unfold d. rewrite length_app. cbn [length].
    rewrite seq_app. cbn [seq]. reflexivity. }
  rewrite Hseq, name_sections_plain.
  - cbn [name_sections]. unfold name_section.
    assert (Hk : d !! length before = Some section) by (unfold d; now rewrite list_lookup_middle).
    rewrite Hk. destruct (index_exists d section _ Hk) as [idx [Hidx _]]. rewrite Hidx.
    rewrite Hsplit.
    replace fuel with (length pre + S (fuel - length pre - 1))%nat by lia.
    rewrite name_lines_skip.
    + cbn [name_lines lines Nat.add]. rewrite (list_lookup_middle pre post marker (length pre) eq_refl).
      unfold name_line. rewrite (marker_is_no_count marker Hmarker).
      cbn [mbind result_bind max_layer]. rewrite Hmarker, Hmax.
      cbn [or_raise mbind result_bind]. reflexivity.
    + cbn [lines]. intros j Hj. rewrite Nat.add_0_l, lookup_app_l by lia.
      destruct (lookup_lt_is_Some_2 pre j Hj) as [line Hl]. exists line.
      split; [exact Hl|]. rewrite Forall_forall in Hpre. apply Hpre.
      eapply list_elem_of_lookup_2, Hl.
  - intros k sec Hk. unfold d. rewrite Nat.add_0_l. now apply lookup_app_l_Some.
  - exact Hbefore.
Qed.

End MissingCountFacts.

Definition counted_settings : LCD.settings :=
  {| LCD.display_option := "filename_layer"; LCD.add_m118_line := false; LCD.file_name := "";
     LCD.addPrefixPrinting := true; LCD.scroll := false; LCD.startNum := 0; LCD.maxlayer := true;
     LCD.display_total_layers := true; LCD.display_remaining_time := true;
     LCD.speed_factor := PyFloat.of_Z 100; LCD.countdown_to_pause := false;
     LCD.enable_end_message := false; LCD.print_start_time := "" |}.

Lemma layer_before_count_raises_TypeError_witness :
  @LCD.execute example_host 20 counted_settings
    ([gcode [";FLAVOR:Marlin"; ""]] ++ gcode ["G92 E0"; ";LAYER:0"; "G1 X1"; ""] :: [gcode ["M104 S0"; ""]])
  = {| LCD.ended := LCD.Raises TypeError;
       LCD.data_after := [gcode [";FLAVOR:Marlin"; ""]] ++ gcode ["G92 E0"; ";LAYER:0"; "G1 X1"; ""]
                         :: [gcode ["M104 S0"; ""]];
       LCD.shown := [] |}.
Proof.
  apply (@layer_before_count_raises_TypeError example_host 20 counted_settings
           [gcode [";FLAVOR:Marlin"; ""]] [gcode ["M104 S0"; ""]] ["G92 E0"] ["G1 X1"; ""]
           (gcode ["G92 E0"; ";LAYER:0"; "G1 X1"; ""]) ";LAYER:0").
  - reflexivity.
  - reflexivity.
  - repeat constructor.
  - reflexivity.
  - repeat constructor.
  - reflexivity.
  - cbn. lia.
Defined.

(** ** The build plates *)

Section BuildPlateFacts.

Import Pipeline.

(** X14. The other build plates. Whatever the scripts do, [execute] leaves
    the g-code of every build plate but the active one as it was, and it
    neither creates nor removes the dictionary or an entry of it. *)
Theorem other_build_plates_are_untouched (script_list : list Pipeline.Script)
    (active : Z) (sc : Pipeline.scene) :
  match Pipeline.gcode_dict sc,
        Pipeline.gcode_dict (Pipeline.scene_after (Pipeline.execute script_list active sc)) with
  | Some dict, Some dict' =>
      (forall k : Z, k <> active -> dict' !! k = dict !! k)
      /\ (is_Some (dict' !! active) <-> is_Some (dict !! active))
  | None, None => True
  | _, _ => False
  end.
Proof.
  unfold execute. destruct sc as [[dict|]]; cbn [gcode_dict quiet scene_after]; [|exact I].
  destruct (decide (dict = ∅)); cbn [gcode_dict quiet scene_after]; [now split|].
  destruct (dict !! active) as [[|first rest]|] eqn:Ha; cbn [gcode_dict quiet scene_after];
    [split; [reflexivity | now rewrite Ha] | | split; [reflexivity | now rewrite Ha]].
  destruct (negb (PyStr.contains processed_marker first)); cbn [gcode_dict quiet scene_after];
    [|split; [reflexivity | now rewrite Ha]].
  destruct script_list as [|script l]; cbn [scene_after gcode_dict].
  - split; [intros k Hk; now rewrite lookup_insert_ne by congruence|].
    rewrite lookup_insert_eq. split; eauto.
  - destruct (gcode_list _) as [|s0 tail]; cbn [scene_after gcode_dict].
    + split; [intros k Hk; now rewrite lookup_insert_ne by congruence|].
      rewrite lookup_insert_eq. split; eauto.
    + split; [intros k Hk; now rewrite lookup_insert_ne by congruence|].
      rewrite lookup_insert_eq. split; eauto.
Qed.

(** X15. No script. With an empty list of scripts, [execute] calls nothing,
    leaves the scene as it was, with no marker added, and raises nothing but
    the [KeyError] of a missing active build plate. *)
Theorem no_script_changes_nothing (active : Z) (sc : Pipeline.scene) :
  Pipeline.scene_after (Pipeline.execute [] active sc) = sc
  /\ Pipeline.script_calls (Pipeline.execute [] active sc) = []
  /\ (Pipeline.raised (Pipeline.execute [] active sc) = None
      \/ Pipeline.raised (Pipeline.execute [] active sc) = Some KeyError
         /\ exists dict : gmap Z (list string),
              Pipeline.gcode_dict sc = Some dict /\ dict <> ∅ /\ dict !! active = None).
Proof.
  unfold execute. destruct sc as [[dict|]]; cbn [gcode_dict quiet scene_after script_calls raised];
    [|now repeat split; try left].
  destruct (decide (dict = ∅)); cbn [quiet scene_after script_calls raised];
    [now repeat split; try left|].
  destruct (dict !! active) as [[|first rest]|] eqn:Ha; cbn [quiet scene_after script_calls raised].
  - now repeat split; try left.
  - destruct (negb (PyStr.contains processed_marker first));
      cbn [run_scripts fold_left scene_after script_calls raised gcode_list fresh held calls
           default];
      [|now repeat split; try left].
    change (default (first :: rest) None) with (first :: rest).
    rewrite insert_id by exact Ha. now repeat split; try left.
  - split; [reflexivity|]. split; [reflexivity|]. right. split; [reflexivity|].
    exists dict. now repeat split.
Qed.

End BuildPlateFacts.

(** ** The estimate lines *)

Section EstimateLineFacts.

Import PyStr LCD.

Context `{host : Host}.

(** A line that does not start with [";TIME:"]. *)
Definition untimed (line : string) : Prop := startswith line ";TIME:" = false.

(** The loop passes over such lines without a change. *)
Lemma time_lines_skip (s : settings) (sf : PyFloat.float) (lines d : list string) (k : nat) :
  forall (fuel i : nat),
    (forall j : nat, (j < k)%nat ->
       exists line : string, lines !! (i + j)%nat = Some line /\ untimed line) ->
    time_lines (k + fuel) s sf i lines d = time_lines fuel s sf (i + k) lines d.
Proof.
  induction k as [|k IH]; intros fuel i H.
  - now rewrite Nat.add_0_r.
  - destruct (H 0%nat ltac:(lia)) as [line [Hl Hu]]. rewrite Nat.add_0_r in Hl.
    cbn [Nat.add time_lines]. rewrite Hl, Hu. rewrite IH; [f_equal; lia|].
    intros j Hj. destruct (H (S j) ltac:(lia)) as [line' [Hl' Hu']].
    exists line'. split; [|exact Hu']. now replace (S i + j)%nat with (i + S j)%nat by lia.
Qed.

Lemma time_lines_untimed (s : settings) (sf : PyFloat.float) (lines d : list string)
    (i fuel : nat) :
  (forall j line, (i <= j)%nat -> lines !! j = Some line -> untimed line) ->
  (length lines < i + fuel)%nat -> (0 < fuel)%nat ->
  time_lines fuel s sf i lines d = Ends (Ok ()) d.
Proof.
  intros Hu Hfuel Hpos.
  destruct (decide (i <= length lines)%nat) as [Hi|Hi].
  - replace fuel with ((length lines - i) + (fuel - (length lines - i)))%nat by lia.
    rewrite time_lines_skip.
    + destruct (fuel - (length lines - i))%nat as [|fuel'] eqn:E; [lia|].
      cbn [time_lines]. rewrite lookup_ge_None_2; [reflexivity | lia].
    + intros j Hj.
      destruct (lookup_lt_is_Some_2 lines (i + j)%nat ltac:(lia)) as [line Hl].
      exists line. split; [exact Hl|]. apply (Hu (i + j)%nat); [lia | exact Hl].
  - destruct fuel as [|fuel']; [lia|]. cbn [time_lines].
    rewrite lookup_ge_None_2; [reflexivity | lia].
Qed.

(** The lines that go in after the [";TIME:"] line. *)
Definition estimate_lines (s : settings) (hr mmm orig_hr orig_mmm : Z) : list string :=
  [";Cura Time:  " +:+ str orig_hr +:+ "hr " +:+ str orig_mmm +:+ "min";
   "M117 ET " +:+ str hr +:+ "hr " +:+ str mmm +:+ "min"]
  ++ (if add_m118_line s
      then ["M118 Adjusted Print Time " +:+ str hr +:+ "hr " +:+ str mmm +:+ "min"]
      else []).

(** The text that goes to the end of the last section. *)
Definition estimate_footer (s : settings) (sf : PyFloat.float) (hr mmm orig_hr orig_mmm : Z)
    : string :=
  ("M117 Orig Cura Est " +:+ str orig_hr +:+ "hr " +:+ str orig_mmm +:+ "min" +:+ nl)
  +:+ (if add_m118_line s
       then "M118 Est w/FudgeFactor  " +:+ repr_float (PyFloat.mul sf (PyFloat.of_Z 100))
            +:+ "% was " +:+ str hr +:+ "hr " +:+ str mmm +:+ "min" +:+ nl
       else "").

Lemma estimate_lines_untimed (s : settings) (hr mmm orig_hr orig_mmm : Z) (line : string) :
  line ∈ estimate_lines s hr mmm orig_hr orig_mmm -> untimed line.
Proof.
  unfold estimate_lines. intros H.
  apply elem_of_cons in H. destruct H as [->|H]; [reflexivity|].
  apply elem_of_cons in H. destruct H as [->|H]; [reflexivity|].
  destruct (add_m118_line s).
  - apply list_elem_of_singleton in H. now subst.
  - now apply not_elem_of_nil in H.
Qed.

Lemma append_to_last_alter (tail : string) (d : list string) :
  d <> [] ->
  append_to_last tail d = Ok (alter (fun x => x +:+ tail) (length d - 1)%nat d).
Proof.
  intros Hd. unfold append_to_last.
  assert (Hlen : (0 < length d)%nat) by (destruct d; [congruence | cbn; lia]).
  destruct (lookup_lt_is_Some_2 d (length d - 1)%nat ltac:(lia)) as [x Hx].
  rewrite Hx. cbn [or_raise mbind result_bind].
  destruct (Nat.eqb_spec (length d) 0); [lia|]. f_equal.
  apply list_eq. intros k. destruct (decide (k = (length d - 1)%nat)) as [->|Hne].
  - rewrite list_lookup_insert_eq by lia. rewrite list_lookup_alter_eq, Hx. reflexivity.
  - rewrite list_lookup_insert_ne by congruence. now rewrite list_lookup_alter_ne by congruence.
Qed.

Lemma alter_nonempty (f : string -> string) (i : nat) (l : list string) :
  l <> [] -> alter f i l <> [].
Proof.
  intros H E. apply H, length_zero_iff_nil.
  rewrite <- (length_alter f l i), E. reflexivity.
Qed.

(** The [";TIME:"] line as the loop meets it first. *)
Lemma time_line_first (s : settings) (sf : PyFloat.float) (T : string)
    (pre post d : list string) (cura_time hr mmm orig_hr orig_mmm : Z) :
  Forall untimed pre -> startswith T ";TIME:" = true -> d <> [] ->
  field1 T ≫= parse_int = Ok cura_time ->
  adjusted_estimate cura_time sf = Ok (hr, mmm) ->
  original_estimate cura_time = Ok (orig_hr, orig_mmm) ->
  time_line s sf T (pre ++ T :: post) d
  = Ok (pre ++ T :: estimate_lines s hr mmm orig_hr orig_mmm ++ post,
        alter (fun x => x +:+ estimate_footer s sf hr mmm orig_hr orig_mmm)
          (length d - 1)%nat
          (<[0%nat := join nl (pre ++ T :: estimate_lines s hr mmm orig_hr orig_mmm ++ post)]> d)).
Proof.
  intros Hpre HT Hd Hparse Hadj Horig. unfold time_line.
  assert (Hi : PyList.index (pre ++ T :: post) T = Some (length pre)).
  { apply index_fresh. intros x Hx ->. rewrite Forall_forall in Hpre.
    specialize (Hpre T Hx). unfold untimed in Hpre. congruence. }
  rewrite Hi. cbn [or_raise mbind result_bind]. rewrite Hparse. cbn [mbind result_bind].
  rewrite Hadj. cbn [mbind result_bind]. rewrite Horig. cbn [mbind result_bind].
  unfold estimate_lines, estimate_footer.
  assert (Hne : forall x : string, <[0%nat := x]> d <> []).
  { intros x. destruct d; [congruence | discriminate]. }
  destruct (add_m118_line s).
  - rewrite !insert_at_after. rewrite append_to_last_alter by apply Hne.
    cbn [mbind result_bind]. rewrite append_to_last_alter by apply alter_nonempty, Hne.
    cbn [mbind result_bind]. rewrite length_alter, length_insert, list_alter_alter_eq.
    f_equal. f_equal. apply list_alter_ext; [|reflexivity].
    intros x _. cbn. now rewrite append_assoc.
  - rewrite !insert_at_after. rewrite append_to_last_alter by apply Hne.
    cbn [mbind result_bind]. rewrite length_insert.
    f_equal. f_equal. apply list_alter_ext; [|reflexivity].
    intros x _. now rewrite append_empty_r.
Qed.

(** X16. The estimate lines of the first section. When the first section has
    one line that starts with [";TIME:"], its value reads as an integer
    and the two estimates are computed from it without an exception, the
    loop ends; the comment with the time of Cura, the M117 line with the
    adjusted time and, if asked for, the M118 line stand in this order right
    after that line, and the lines with the same estimates go to the end of
    the last section. *)
Theorem estimates_go_after_the_time_line (fuel : nat) (s : LCD.settings)
    (sf : PyFloat.float) (data pre post : list string) (first T : string)
    (cura_time hr mmm orig_hr orig_mmm : Z) :
  data !! 0%nat = Some first ->
  PyStr.split first PyStr.nl_char = pre ++ T :: post ->
  Forall untimed pre -> Forall untimed post ->
  PyStr.startswith T ";TIME:" = true ->
  LCD.field1 T ≫= LCD.parse_int = Ok cura_time ->
  LCD.adjusted_estimate cura_time sf = Ok (hr, mmm) ->
  LCD.original_estimate cura_time = Ok (orig_hr, orig_mmm) ->
  (length pre + length post + 5 < fuel)%nat ->
  LCD.insert_estimates fuel s sf data
  = LCD.Ends (Ok ())
      (alter (fun x => x +:+ estimate_footer s sf hr mmm orig_hr orig_mmm)
         (length data - 1)%nat
         (<[0%nat := PyStr.join PyStr.nl
                       (pre ++ T :: estimate_lines s hr mmm orig_hr orig_mmm ++ post)]> data)).
Proof.
  intros Hfirst Hsplit Hpre Hpost HT Hparse Hadj Horig Hfuel.
  unfold insert_estimates. rewrite Hfirst, Hsplit.
  replace fuel with (length pre + S (fuel - length pre - 1))%nat by lia.
  rewrite time_lines_skip.
  - cbn [time_lines Nat.add]. rewrite (list_lookup_middle pre post T (length pre) eq_refl), HT.
    rewrite (time_line_first s sf T pre post data cura_time hr mmm orig_hr orig_mmm)
      by (try assumption; intros ->; discriminate).
    apply time_lines_untimed.
    + intros j line Hj Hl. rewrite lookup_app_r in Hl by lia.
      destruct (j - length pre)%nat as [|j'] eqn:Ej; [lia|].
      change ((estimate_lines s hr mmm orig_hr orig_mmm ++ post) !! j' = Some line) in Hl.
      apply lookup_app_Some in Hl. destruct Hl as [Hl|[_ Hl]].
      * apply (estimate_lines_untimed s hr mmm orig_hr orig_mmm).
        eapply list_elem_of_lookup_2, Hl.
      * rewrite Forall_forall in Hpost. apply Hpost. eapply list_elem_of_lookup_2, Hl.
    + rewrite length_app. cbn [length]. rewrite length_app.
      assert (length (estimate_lines s hr mmm orig_hr orig_mmm) <= 3)%nat.
      { unfold estimate_lines. destruct (add_m118_line s); cbn; lia. }
      lia.
    + lia.
  - intros j Hj. rewrite Nat.add_0_l, lookup_app_l by lia.
    destruct (lookup_lt_is_Some_2 pre j Hj) as [line Hl]. exists line.
    split; [exact Hl|]. rewrite Forall_forall in Hpre. apply Hpre.
    eapply list_elem_of_lookup_2, Hl.
Qed.

End EstimateLineFacts.

Lemma estimates_go_after_the_time_line_witness :
  @LCD.insert_estimates example_host 20 example_settings (PyFloat.of_Z 1)
    [gcode [";FLAVOR:Marlin"; ";TIME:5400"; ""]; gcode ["G28"; ""]; gcode ["M104 S0"; ""]]
  = LCD.Ends (Ok ())
      (alter (fun x => x +:+ @estimate_footer example_host example_settings (PyFloat.of_Z 1) 1 30 1 30)
         (length [gcode [";FLAVOR:Marlin"; ";TIME:5400"; ""]; gcode ["G28"; ""];
                  gcode ["M104 S0"; ""]] - 1)%nat
         (<[0%nat := PyStr.join PyStr.nl
                       ([";FLAVOR:Marlin"] ++ ";TIME:5400"
                          :: estimate_lines example_settings 1 30 1 30 ++ [""])]>
            [gcode [";FLAVOR:Marlin"; ";TIME:5400"; ""]; gcode ["G28"; ""];
             gcode ["M104 S0"; ""]])).
Proof.
  apply (@estimates_go_after_the_time_line example_host 20 example_settings (PyFloat.of_Z 1)
           [gcode [";FLAVOR:Marlin"; ";TIME:5400"; ""]; gcode ["G28"; ""]; gcode ["M104 S0"; ""]]
           [";FLAVOR:Marlin"] [""] (gcode [";FLAVOR:Marlin"; ";TIME:5400"; ""]) ";TIME:5400"
           5400 1 30 1 30).
  - reflexivity.
  - reflexivity.
  - repeat constructor.
  - repeat constructor.
  - reflexivity.
  - reflexivity.
  - vm_compute. reflexivity.
  - vm_compute. reflexivity.
  - cbn. lia.
Defined.

(** ** The time of Cura *)

Section OriginalEstimateFacts.

Import PyFloat.

Local Open Scope Q_scope.

Lemma exact_value (n : Z) :
  (0 <= n)%Z -> nonneg_finite (exact n) /\ Qval (exact n) == inject_Z n.
Proof.
  intros H. destruct n as [|p|p]; [| |lia].
  - split; [now left | reflexivity].
  - split; [right; eauto|]. cbn [exact Qval]. change (pow2 0) with 1. ring.
Qed.

Lemma original_estimate_eq (s : Z) :
  LCD.original_estimate s
  = match int_truediv s 3600 with
    | Ok orig_hhh =>
        match round (floordiv1 orig_hhh) with
        | Ok hr =>
            match round (mul (mod1 orig_hhh) (of_Z 60)) with
            | Ok mmm => Ok (hr, mmm)
            | Raise e => Raise e
            end
        | Raise e => Raise e
        end
    | Raise e => Raise e
    end.
Proof. reflexivity. Qed.

(** X17. The time of Cura in hours and minutes. For a raw estimate of at most
    [10^12] seconds, the hours and minutes written in the [";Cura Time:"]
    comment are computed without an error, the minutes are between 0 and 60
    (60 included), and together they are within 30 seconds of the raw
    estimate. *)
Theorem original_estimate_within_half_a_minute (s : Z) :
  (0 <= s <= 10 ^ 12)%Z ->
  exists hr mmm : Z,
    LCD.original_estimate s = Ok (hr, mmm)
    /\ (0 <= hr)%Z /\ (0 <= mmm <= 60)%Z
    /\ (Z.abs (hr * 3600 + mmm * 60 - s) <= 30)%Z.
Proof.
  intros [Hs0 Hs1].
  pose proof tiny_bound as Htiny. pose proof (pow2_pos (-1074)) as Htiny0.
  pose proof big_bound as Hbig.
  assert (Hbig' : pow2 971 <= pow2 1022) by (apply pow2_le; lia).
  destruct (exact_value s Hs0) as [Hxf Hxv].
  assert (HS0 : 0 <= inject_Z s) by (now apply (inject_le 0)).
  assert (HS1 : inject_Z s <= 1000000000000).
  { change 1000000000000 with (inject_Z (10 ^ 12)). now apply inject_le. }
  set (secs := inject_Z s) in *.
  (* orig_hhh *)
  assert (Hh : close (quot (exact s) (exact 3600)) (secs * (1 # 3600))).
  { change (exact 3600) with (S754_finite false 3600 0). apply quot_accuracy; [exact Hxf | |].
    - rewrite Hxv. assert (Hv : Qval (S754_finite false 3600 0) == 3600) by reflexivity.
      rewrite Hv. ring.
    - eapply Qlt_le_trans; [|exact Hbig']. eapply Qlt_le_trans; [|exact Hbig].
      unfold pow2 in *. lra. }
  destruct (close_bounds _ _ Hh) as (Hhf & Hhl & Hhu).
  assert (Hdiv : int_truediv s 3600 = Ok (quot (exact s) (exact 3600))).
  { unfold int_truediv. change (3600 =? 0)%Z with false. cbv iota. unfold quot in *.
    destruct Hhf as [->|(m & e & ->)]; reflexivity. }
  set (h := quot (exact s) (exact 3600)) in *.
  set (tiny := pow2 (-1074)) in *.
  destruct (floor_and_fraction h Hhf) as (H & HH0 & HHl & HHu & Hfl & Hfr).
  { eapply Qlt_le_trans; [|exact Hbig']. eapply Qlt_le_trans; [|exact Hbig].
    unfold pow2 in *. lra. }
  apply close_bounds in Hfl. destruct Hfl as (Hflf & Hfll & Hflu).
  apply close_bounds in Hfr. destruct Hfr as (Hfrf & Hfrl & Hfru).
  (* hr *)
  destruct (round_nearest (floordiv1 h) Hflf) as (n1 & Hn1 & Hn10 & Hn1a).
  apply Qabs_Qle_condition in Hn1a. destruct Hn1a as [Hn1l Hn1u].
  fold tiny in Hfll, Hflu, Hfrl, Hfru.
  assert (Hn1H : n1 = H).
  { assert (Hlt1 : inject_Z n1 < inject_Z (H + 1)).
    { rewrite inject_Z_plus. change (inject_Z 1) with 1. unfold pow2 in *. lra. }
    assert (Hlt2 : inject_Z H < inject_Z (n1 + 1)).
    { rewrite inject_Z_plus. change (inject_Z 1) with 1. unfold pow2 in *. lra. }
    rewrite <- Zlt_Qlt in Hlt1, Hlt2. lia. }
  subst n1.
  (* mmm *)
  assert (Hg : close (mul (mod1 h) (of_Z 60)) (Qval (mod1 h) * 60)).
  { assert (Hv : Qval (of_Z 60) == 60) by reflexivity.
    apply close_eq with (Qval (mod1 h) * Qval (of_Z 60)); [now rewrite Hv|].
    apply mul_accuracy; [exact Hfrf | rewrite float_60; right; eauto |].
    rewrite Hv. eapply Qlt_le_trans; [|exact Hbig]. unfold pow2 in *. lra. }
  apply close_bounds in Hg. destruct Hg as (Hgf & Hgl & Hgu).
  fold tiny in Hgl, Hgu.
  destruct (round_nearest _ Hgf) as (n2 & Hn2 & Hn20 & Hn2a).
  apply Qabs_Qle_condition in Hn2a. destruct Hn2a as [Hn2l Hn2u].
  exists H, n2. split; [|split; [exact HH0|]].
  - rewrite original_estimate_eq, Hdiv. cbv beta iota zeta. fold h.
    rewrite Hn1, Hn2. reflexivity.
  - assert (Hm : inject_Z n2 < inject_Z 61).
    { change (inject_Z 61) with 61. unfold pow2 in *. lra. }
    assert (Hlow : inject_Z (-31) < inject_Z (H * 3600 + n2 * 60 - s)).
    { unfold Z.sub. rewrite !inject_Z_plus, !inject_Z_mult, inject_Z_opp. fold secs.
      change (inject_Z 3600) with 3600. change (inject_Z 60) with 60.
      change (inject_Z (-31)) with (-31). unfold pow2 in *. lra. }
    assert (Hhigh : inject_Z (H * 3600 + n2 * 60 - s) < inject_Z 31).
    { unfold Z.sub. rewrite !inject_Z_plus, !inject_Z_mult, inject_Z_opp. fold secs.
      change (inject_Z 3600) with 3600. change (inject_Z 60) with 60.
      change (inject_Z 31) with 31. unfold pow2 in *. lra. }
    rewrite <- Zlt_Qlt in Hm, Hlow, Hhigh. split; lia.
Qed.

End OriginalEstimateFacts.

Lemma original_estimate_within_half_a_minute_witness :
  exists hr mmm : Z,
    LCD.original_estimate 7199 = Ok (hr, mmm)
    /\ (0 <= hr)%Z /\ (0 <= mmm <= 60)%Z
    /\ (Z.abs (hr * 3600 + mmm * 60 - 7199) <= 30)%Z.
Proof.
  apply original_estimate_within_half_a_minute. split; [lia | vm_compute; discriminate].
Defined.

(** ** The window of the Marketplace *)

Section MarketplaceFacts.

Import Marketplace.

Lemma show_loaded (w : world) (st : state) :
  window st = true ->
  show w st = act [WindowShow; WindowRequestActivate] (setTabShown 0 st).
Proof. intros H. unfold show. rewrite H. simpl. rewrite H. reflexivity. Qed.

Lemma setTabShown_window (t : Z) (st : state) :
  window (setTabShown t st) = window st /\ done (setTabShown t st) = done st
  /\ plugin_registry (setTabShown t st) = plugin_registry st.
Proof. unfold setTabShown. destruct (negb _); auto. Qed.

Lemma setTabShown_tab (t : Z) (st : state) : tab_shown (setTabShown t st) = t.
Proof.
  unfold setTabShown. destruct (t =? tab_shown st) eqn:E; simpl; [| reflexivity].
  apply Z.eqb_eq in E. symmetry. exact E.
Qed.

Lemma show_not_loaded (w : world) (st : state) :
  window st = false -> component_loads w = false ->
  show w st =
    {| window := false; plugin_registry := true; tab_shown := tab_shown st;
       restart_needed := restart_needed st; emitted := emitted st;
       done := done st ++ [ConnectRestartCheck; CreateQmlComponent (qml_path w)] |}.
Proof. intros H L. unfold show. rewrite H. simpl. rewrite L. reflexivity. Qed.

(** X18. The window is loaded once. Once a call of [show] has loaded the
    window, no later call creates a component or connects the restart check
    again, whatever the application answers: each one shows and activates
    the window and leaves the first tab selected. *)
Theorem show_loads_the_window_once (w : world) (ws : list world) (st : state) :
  window st = false -> component_loads w = true ->
  let st' := foldl (fun s w' => show w' s) (show w st) ws in
  done st' =
    done st ++ [ConnectRestartCheck; CreateQmlComponent (qml_path w)]
      ++ concat (replicate (S (length ws)) [WindowShow; WindowRequestActivate])
  /\ window st' = true /\ tab_shown st' = 0.
Proof.
  intros H L. cbv zeta.
  assert (G : forall ws s, window s = true -> tab_shown s = 0 ->
            let s' := foldl (fun s w' => show w' s) s ws in
            done s' = done s ++ concat (replicate (length ws) [WindowShow; WindowRequestActivate])
            /\ window s' = true /\ tab_shown s' = 0).
  { clear. induction ws as [|w' ws IH]; intros s Hw Ht; cbv zeta.
    - simpl. rewrite app_nil_r. auto.
    - simpl foldl. rewrite (show_loaded w' s Hw).
      assert (E : setTabShown 0 s = s) by (unfold setTabShown; rewrite Ht; reflexivity).
      rewrite E.
      destruct (IH (act [WindowShow; WindowRequestActivate] s)) as (D & W & T); [exact Hw | exact Ht |].
      cbv zeta in D, W, T. rewrite D, W, T. split; [| auto].
      simpl. rewrite <- app_assoc. reflexivity. }
  set (s1 := show w st).
  assert (W1 : window s1 = true).
  { unfold s1, show. rewrite H. simpl. rewrite L. simpl. unfold setTabShown. simpl.
    destruct (negb _); simpl; reflexivity. }
  assert (T1 : tab_shown s1 = 0).
  { unfold s1, show. rewrite H. simpl. rewrite L. simpl. apply setTabShown_tab. }
  assert (D1 : done s1 = done st ++ [ConnectRestartCheck; CreateQmlComponent (qml_path w)]
                           ++ [WindowShow; WindowRequestActivate]).
  { unfold s1, show. rewrite H. simpl. rewrite L. simpl. unfold setTabShown. simpl.
    destruct (negb _); simpl; rewrite <- app_assoc; reflexivity. }
  destruct (G ws s1 W1 T1) as (D & W & T). cbv zeta in D, W, T.
  rewrite D, W, T, D1. split; [| auto].
  rewrite <- !app_assoc. simpl. reflexivity.
Qed.

(** X19. A load that fails is tried again. While the component does not load,
    each call of [show] creates it anew and connects the restart check once
    more; the window is never shown, and the tab and the signals emitted stay
    as they were. *)
Theorem failed_load_is_retried_on_each_show (ws : list world) (st : state) :
  window st = false -> Forall (fun w => component_loads w = false) ws ->
  let st' := foldl (fun s w => show w s) st ws in
  done st' =
    done st ++ concat (map (fun w => [ConnectRestartCheck; CreateQmlComponent (qml_path w)]) ws)
  /\ window st' = false /\ tab_shown st' = tab_shown st /\ emitted st' = emitted st.
Proof.
  intros H F. cbv zeta. revert st H. induction F as [|w ws L F IH]; intros st H.
  - simpl. rewrite app_nil_r. auto.
  - simpl foldl. rewrite (show_not_loaded w st H L).
    match goal with |- context [foldl _ ?s ws] => destruct (IH s eq_refl) as (D & W & T & E) end.
    simpl in D, T, E. rewrite D, W, T, E. split; [| auto].
    simpl. rewrite <- app_assoc. reflexivity.
Qed.

Lemma show_keeps_the_registry (w : world) (st : state) :
  plugin_registry st = true -> plugin_registry (show w st) = true.
Proof.
  intros R. unfold show.
  destruct (window st) eqn:Hw; simpl.
  - rewrite Hw. simpl. unfold setTabShown. destruct (negb _); exact R.
  - destruct (component_loads w); simpl; [| reflexivity].
    unfold setTabShown. destruct (negb _); reflexivity.
Qed.

Lemma first_show_sets_the_registry (w : world) :
  plugin_registry (show w initial) = true.
Proof.
  unfold show. simpl. destruct (component_loads w); reflexivity.
Qed.

(** X20. The restart check before the window was ever asked for. The check is
    connected to the package manager when the object is made; run before any
    call of [show] while no package waits to be installed or removed, it
    ends in an [AttributeError]. Once [show] has been called, loaded or not,
    it never fails: it notifies, and a restart is needed exactly when a
    package waits or a plug-in was switched. *)
Theorem restart_check_needs_the_registry (w w' : world) (ws : list world) :
  (hasPackagesToRemoveOrInstall w = false ->
   checkIfRestartNeeded w initial = AttributeError)
  /\ let st := foldl (fun s w => show w s) (show w' initial) ws in
     exists st', checkIfRestartNeeded w st = Checked st'
       /\ showRestartNotification st' =
            hasPackagesToRemoveOrInstall w || (0 <? activation_changed w)%nat
       /\ emitted st' = emitted st ++ [ShowRestartNotificationChanged].
Proof.
  split.
  - intros H. unfold checkIfRestartNeeded. rewrite H. reflexivity.
  - cbv zeta.
    assert (R : plugin_registry (foldl (fun s w => show w s) (show w' initial) ws) = true).
    { generalize (first_show_sets_the_registry w'). generalize (show w' initial).
      induction ws as [|w1 ws IH]; intros s R; simpl; [exact R |].
      apply IH, show_keeps_the_registry, R. }
    unfold checkIfRestartNeeded. rewrite R.
    destruct (hasPackagesToRemoveOrInstall w); eexists; (split; [reflexivity | split; reflexivity]).
Qed.

End MarketplaceFacts.

Definition loading_world : Marketplace.world :=
  {| Marketplace.plugin_path := None; Marketplace.module_dir := "plugins/Marketplace";
     Marketplace.component_loads := true;
     Marketplace.hasPackagesToRemoveOrInstall := false;
     Marketplace.activation_changed := 0 |}.

Definition failing_world : Marketplace.world :=
  {| Marketplace.plugin_path := Some "plugins/Marketplace"; Marketplace.module_dir := "";
     Marketplace.component_loads := false;
     Marketplace.hasPackagesToRemoveOrInstall := false;
     Marketplace.activation_changed := 0 |}.

Lemma show_loads_the_window_once_witness :
  let st' := foldl (fun s w' => Marketplace.show w' s)
               (Marketplace.show loading_world Marketplace.initial) [failing_world] in
  Marketplace.done st' =
    [Marketplace.ConnectRestartCheck;
     Marketplace.CreateQmlComponent ["plugins/Marketplace"; "resources"; "qml"; "Marketplace.qml"];
     Marketplace.WindowShow; Marketplace.WindowRequestActivate;
     Marketplace.WindowShow; Marketplace.WindowRequestActivate]
  /\ Marketplace.window st' = true /\ Marketplace.tab_shown st' = 0.
Proof.
  apply (show_loads_the_window_once loading_world [failing_world] Marketplace.initial);
    reflexivity.
Defined.

Lemma failed_load_is_retried_on_each_show_witness :
  let st' := foldl (fun s w => Marketplace.show w s) Marketplace.initial
               [failing_world; failing_world] in
  Marketplace.done st' =
    [Marketplace.ConnectRestartCheck;
     Marketplace.CreateQmlComponent ["plugins/Marketplace"; "resources"; "qml"; "Marketplace.qml"];
     Marketplace.ConnectRestartCheck;
     Marketplace.CreateQmlComponent ["plugins/Marketplace"; "resources"; "qml"; "Marketplace.qml"]]
  /\ Marketplace.window st' = false /\ Marketplace.tab_shown st' = 0
  /\ Marketplace.emitted st' = [].
Proof.
  apply (failed_load_is_retried_on_each_show [failing_world; failing_world] Marketplace.initial);
    [reflexivity | repeat constructor].
Defined.

Lemma restart_check_needs_the_registry_witness :
  Marketplace.checkIfRestartNeeded failing_world Marketplace.initial
  = Marketplace.AttributeError.
Proof.
  apply (proj1 (restart_check_needs_the_registry failing_world failing_world [])).
  reflexivity.
Defined.

(** ** The ordinals of a whole run *)

Section OrdinalRunFacts.

Import PyStr LCD.

Context `{host : Host}.



(** A line that does not start with [";LAYER:"]. *)
Definition quiet (line : string) : Prop := startswith line ";LAYER:" = false.





























End OrdinalRunFacts.


(** A document with a section without marker between two layers. *)
Definition layers_with_a_gap : list string :=
  [ gcode [";FLAVOR:Marlin"; ";LAYER_COUNT:2"; ""];
    gcode [";LAYER:0"; "G1 X1"; ""];
    gcode ["G92 E0"; ""];
    gcode [";LAYER:1"; "G1 X2"; ""];
    gcode ["M104 S0"; ""] ].


(** The run of the witness: the layers are numbered 0 and 1, the section
    between them is as it was. *)
Example numbered_layers_with_a_gap :
  LCD.data_after (@LCD.execute example_host 20 filename_settings layers_with_a_gap)
  = [ gcode [";FLAVOR:Marlin"; ";LAYER_COUNT:2"; ""];
      gcode [";LAYER:0"; "M117 benchy - Layer 0!"; "G1 X1"; ""];
      gcode ["G92 E0"; ""];
      gcode [";LAYER:1"; "M117 benchy - Layer 1!"; "G1 X2"; ""];
      gcode ["M104 S0"; ""] ].
Proof. vm_compute. reflexivity. Qed.

(** ** The countdown to the pauses, over a whole document *)

Section CountdownRunFacts.

Import PyStr LCD.































(** *** [replace] on the lines of a section *)


















End CountdownRunFacts.

(** The document [paused_document] once the layers are annotated. *)
Definition annotated_pause : list string :=
  [ gcode [";FLAVOR:Marlin"; ";TIME:3600"; ""];
    gcode ["G28"; ";LAYER_COUNT:3"; ""];
    gcode [";LAYER:0"; "M117 1/3 | ET 1h00m"; "G1 X1"; ";TIME_ELAPSED:1200.0"; ""];
    gcode [";LAYER:1"; "M117 2/3 | ET 40m"; ";script: PauseAtHeight.py"; "M0";
           ";TIME_ELAPSED:2400.0"; ""];
    gcode [";LAYER:2"; "M117 3/3 | ET 20m"; "G1 X3"; ";TIME_ELAPSED:3600.0"; ""];
    gcode ["M104 S0"; ";End of Gcode"; ""] ].


(** The countdown on that document: the layer in front of the pause counts
    down to it, the layer with the pause and the layer after it keep their
    remaining time. *)
Example countdown_on_annotated_pause :
  fst (LCD.countdown_to_pauses (PyFloat.of_Z 1) annotated_pause)
  = [ gcode [";FLAVOR:Marlin"; ";TIME:3600"; ""];
      gcode ["G28"; ";LAYER_COUNT:3"; ""];
      gcode [";LAYER:0"; "M117 1/3 | TP 20m0s"; "G1 X1"; ";TIME_ELAPSED:1200.0"; ""];
      gcode [";LAYER:1"; "M117 2/3 | ET 40m"; ";script: PauseAtHeight.py"; "M0";
             ";TIME_ELAPSED:2400.0"; ""];
      gcode [";LAYER:2"; "M117 3/3 | ET 20m"; "G1 X3"; ";TIME_ELAPSED:3600.0"; ""];
      gcode ["M104 S0"; ";End of Gcode"; ""] ].
Proof. vm_compute. reflexivity. Qed.
